(** * Echoes of Asteria: combat, progression, persistence and shop rules

    A shallow embedding of the game's Python sources and the properties its
    specification states about them.  The repository holds the game twice:

    - the package [src/echoes_of_asteria] ([items.py], [player.py],
      [world.py], [game.py]), embedded in the modules [Item], [Entity],
      [Enemy], [Player], [World] and [Game];
    - the single-file original [mystic_dungeon.py], whose [Item], [Entity]
      and [Player] classes have the same code as the package's and whose
      combat, defeat and shop code differs; that code is embedded in the
      module [Mystic].

    Conventions of the embedding:

    - Python [int] is [Z]; [//] is [Z.div] (both floor).
    - Python [float] is IEEE 754 binary64, taken from the Standard Library's
      executable specification [SpecFloat] ([prec = 53], [emax = 1024],
      round to nearest even), so that [int(x * 1.4)] is computed bit for bit.
    - An exception is a [Raise] result.  The runtime (random source,
      allocator) reached before it is kept; the half-updated game object is
      not returned with it.
    - The [random] module is a stream of raw words consumed in call order.
    - An [Item] object carries its object identity [oid] next to its
      attributes: [Item] has no [__eq__], so Python's [==] on items compares
      identities, and no code of the game assigns to an item's attribute.
    - [slow_print] output is modelled for the combat resolver only (as a
      list of messages); elsewhere the output sink is left out. *)

From Stdlib Require Import ZArith Lia Bool List String Ascii.
From Stdlib Require Import Floats.SpecFloat.
From stdpp Require Import gmap strings list.

Set Warnings "-register-all".
Local Open Scope Z_scope.

(** ** Exceptions and results *)

(** The Python exceptions the modelled code can raise.  [Untyped] is not a
    Python exception: it marks a value whose type the typed records of this
    file do not cover (Python would store it unchecked). *)
Inductive exn :=
  | OverflowError | ValueError | ZeroDivisionError
  | KeyError | TypeError | AttributeError | IndexError | EOFError
  | Untyped.

Inductive result (A : Type) :=
  | Ok (a : A)
  | Raise (e : exn).
Arguments Ok {A} a.
Arguments Raise {A} e.

Definition rbind {A B} (r : result A) (k : A -> result B) : result B :=
  match r with
  | Ok a => k a
  | Raise e => Raise e
  end.

Notation "'try' x := r 'in' k" := (rbind r (fun x => k))
  (at level 10, x pattern, k at level 200).

(** A list comprehension over code that can raise. *)
Fixpoint rmapM {A B} (f : A -> result B) (l : list A) : result (list B) :=
  match l with
  | nil => Ok nil
  | cons a l' => try b := f a in try bs := rmapM f l' in Ok (cons b bs)
  end.

(** ** Python floats on integers *)

Module PyFloat.

(** [float(n)] for an integer [n]: the nearest binary64, ties to even;
    [OverflowError] when it is out of range. *)
Definition float_of_int (n : Z) : result spec_float :=
  match binary_normalize 53 1024 n 0 false with
  | S754_infinity _ => Raise OverflowError
  | f => Ok f
  end.

(** [int(f)]: truncation toward zero; [OverflowError] on an infinity and
    [ValueError] on a NaN. *)
Definition int_of_float (f : spec_float) : result Z :=
  match f with
  | S754_zero _ => Ok 0
  | S754_finite s m e => Ok (cond_Zopp s (Z.shiftl (Zpos m) e))
  | S754_infinity _ => Raise OverflowError
  | S754_nan => Raise ValueError
  end.

(** [n * c] for an integer [n] and a float [c]. *)
Definition int_mul_float (n : Z) (c : spec_float) : result spec_float :=
  try f := float_of_int n in Ok (SFmul 53 1024 f c).

(** An integer as an exact float that is not normalised: the mantissa is
    its magnitude and the exponent 0. *)
Definition exact (n : Z) : spec_float :=
  match n with
  | Z0 => S754_zero false
  | Zpos p => S754_finite false p 0
  | Zneg p => S754_finite true p 0
  end.

(** [a / b] for integers: [ZeroDivisionError] when [b] is 0; otherwise
    the exact quotient rounded once, as CPython's [long_true_divide] does
    (the operands are not converted first), and [OverflowError] when the
    rounded quotient is out of range. *)
Definition int_truediv (a b : Z) : result spec_float :=
  if b =? 0 then Raise ZeroDivisionError else
  match SFdiv 53 1024 (exact a) (exact b) with
  | S754_infinity _ => Raise OverflowError
  | f => Ok f
  end.

(** [int(n * c)] and [int(a / b)]. *)
Definition int_mul (n : Z) (c : spec_float) : result Z :=
  try f := int_mul_float n c in int_of_float f.

Definition int_div (a b : Z) : result Z :=
  try f := int_truediv a b in int_of_float f.

(** The float literals of the sources, as the binary64 values Python reads
    them to: [0x1.999999999999ap-3], [0x1.6666666666666p+0], ... *)
Definition f_0_2 : spec_float := S754_finite false 7205759403792794 (-55).
Definition f_1_4 : spec_float := S754_finite false 6305039478318694 (-52).
Definition f_1_5 : spec_float := S754_finite false 6755399441055744 (-52).
Definition f_1_8 : spec_float := S754_finite false 8106479329266893 (-52).
Definition f_0_08 : spec_float := S754_finite false 5764607523034235 (-56).
Definition f_0_12 : spec_float := S754_finite false 8646911284551352 (-56).
Definition f_0_15 : spec_float := S754_finite false 5404319552844595 (-55).
Definition f_0_18 : spec_float := S754_finite false 6485183463413514 (-55).
Definition f_0_20 : spec_float := f_0_2.
Definition f_0_9 : spec_float := S754_finite false 8106479329266893 (-53).
Definition f_0_6 : spec_float := S754_finite false 5404319552844595 (-53).
Definition f_0_5 : spec_float := S754_finite false 4503599627370496 (-53).
Definition f_0_3 : spec_float := S754_finite false 5404319552844595 (-54).
Definition f_0_06 : spec_float := S754_finite false 8646911284551352 (-57).

(** [x < y] on floats. *)
Definition lt (x y : spec_float) : bool := SFltb x y.

End PyFloat.

(** ** Python strings *)

(** Strings are byte strings; [lower], [strip] and [isdigit] act on the
    ASCII range, which is all the game's own text uses. *)
Module Str.

Definition lower_char (c : ascii) : ascii :=
  let n := nat_of_ascii c in
  if ((65 <=? n) && (n <=? 90))%nat then ascii_of_nat (n + 32) else c.

(** [s.lower()] *)
Fixpoint lower (s : string) : string :=
  match s with
  | EmptyString => EmptyString
  | String c s' => String (lower_char c) (lower s')
  end.

Definition is_space (c : ascii) : bool :=
  let n := nat_of_ascii c in
  (((9 <=? n) && (n <=? 13)) || ((28 <=? n) && (n <=? 32)))%nat.

Fixpoint lstrip (s : string) : string :=
  match s with
  | EmptyString => EmptyString
  | String c s' => if is_space c then lstrip s' else s
  end.

Fixpoint rstrip (s : string) : string :=
  match s with
  | EmptyString => EmptyString
  | String c s' =>
      match rstrip s' with
      | EmptyString => if is_space c then EmptyString else String c EmptyString
      | t => String c t
      end
  end.

(** [s.strip()] *)
Definition strip (s : string) : string := rstrip (lstrip s).

Fixpoint startswith (p s : string) : bool :=
  match p, s with
  | EmptyString, _ => true
  | String a p', String b s' => Ascii.eqb a b && startswith p' s'
  | String _ _, EmptyString => false
  end.

(** [needle in hay]: substring containment. *)
Fixpoint contains (needle hay : string) : bool :=
  startswith needle hay ||
  match hay with
  | EmptyString => false
  | String _ hay' => contains needle hay'
  end.

Definition is_digit (c : ascii) : bool :=
  let n := nat_of_ascii c in ((48 <=? n) && (n <=? 57))%nat.

Fixpoint all_digits (s : string) : bool :=
  match s with
  | EmptyString => true
  | String c s' => is_digit c && all_digits s'
  end.

(** [s.isdigit()]: non-empty and all digits. *)
Definition isdigit (s : string) : bool :=
  match s with
  | EmptyString => false
  | _ => all_digits s
  end.

Fixpoint int_acc (acc : Z) (s : string) : Z :=
  match s with
  | EmptyString => acc
  | String c s' => int_acc (10 * acc + (Z.of_nat (nat_of_ascii c) - 48)) s'
  end.

(** [int(s)] on a string of digits. *)
Definition int (s : string) : Z := int_acc 0 s.

(** [sep.join(l)] *)
Fixpoint join (sep : string) (l : list string) : string :=
  match l with
  | [] => EmptyString
  | s :: l' =>
      match l' with
      | [] => s
      | _ => String.append s (String.append sep (join sep l'))
      end
  end.

End Str.

(** ** Python values, for [to_dict] and [from_dict] *)

Inductive pyval :=
  | VNone
  | VBool (b : bool)
  | VInt (z : Z)
  | VStr (s : string)
  | VList (l : list pyval)
  | VTuple (l : list pyval)
  | VDict (d : gmap string pyval).

(** ** The runtime: the random source and the allocator of object identities *)

Module random.

(** The raw words the generator is going to produce, in order.  Any
    sequence of outcomes can be forced by choosing the stream. *)
Definition source := nat -> N.

Definition next (g : source) : N * source := (g 0%nat, fun i => g (S i)).

(** [random.randint(a, b)]: an integer of [[a, b]]. *)
Definition randint (a b : Z) (g : source) : Z * source :=
  let '(w, g') := next g in (a + Z.of_N w mod (b - a + 1), g').

(** [random.random()]: a float [k / 2^53] of [[0, 1)]. *)
Definition random (g : source) : spec_float * source :=
  let '(w, g') := next g in
  (binary_normalize 53 1024 (Z.of_N w mod 2 ^ 53) (-53) false, g').

(** A source that produces the words of [l], then zeros. *)
Definition of_list (l : list N) : source := fun i => nth i l 0%N.

End random.

Record runtime := Runtime {
  rng : random.source;
  next_oid : positive
}.

(** Effectful code: it reads and advances the runtime and may raise. *)
Definition Eff (A : Type) : Type := runtime -> result A * runtime.

Definition ret {A} (a : A) : Eff A := fun rt => (Ok a, rt).

Definition raise {A} (e : exn) : Eff A := fun rt => (Raise e, rt).

Definition bind {A B} (m : Eff A) (k : A -> Eff B) : Eff B :=
  fun rt =>
    match m rt with
    | (Ok a, rt') => k a rt'
    | (Raise e, rt') => (Raise e, rt')
    end.

Definition lift {A} (r : result A) : Eff A := fun rt => (r, rt).

Notation "'do' x <- m ; k" := (bind m (fun x => k))
  (at level 10, x pattern, m at level 100, k at level 200).

Definition randint (a b : Z) : Eff Z :=
  fun rt => let '(n, g) := random.randint a b (rng rt) in (Ok n, Runtime g (next_oid rt)).

Definition random_float : Eff spec_float :=
  fun rt => let '(u, g) := random.random (rng rt) in (Ok u, Runtime g (next_oid rt)).

(** The identity of a newly created object. *)
Definition fresh_oid : Eff positive :=
  fun rt => (Ok (next_oid rt), Runtime (rng rt) (Pos.succ (next_oid rt))).

Fixpoint mapM {A B} (f : A -> Eff B) (l : list A) : Eff (list B) :=
  match l with
  | [] => ret []
  | a :: l' => do b <- f a; do bs <- mapM f l'; ret (b :: bs)
  end.

(** Decoding a [dict] entry into a typed attribute. *)
Definition get_str (d : gmap string pyval) (k : string) (default : string) : result string :=
  match d !! k with
  | None => Ok default
  | Some (VStr s) => Ok s
  | Some _ => Raise Untyped
  end.

Definition get_int (d : gmap string pyval) (k : string) (default : Z) : result Z :=
  match d !! k with
  | None => Ok default
  | Some (VInt z) => Ok z
  | Some _ => Raise Untyped
  end.

(** [d[k]]: [KeyError] when the key is missing. *)
Definition item_str (d : gmap string pyval) (k : string) : result string :=
  match d !! k with
  | None => Raise KeyError
  | Some (VStr s) => Ok s
  | Some _ => Raise Untyped
  end.

(** Python truth value of a value. *)
Definition truthy (v : pyval) : bool :=
  match v with
  | VNone => false
  | VBool b => b
  | VInt z => negb (z =? 0)
  | VStr s => negb (String.eqb s EmptyString)
  | VList l | VTuple l => match l with [] => false | _ => true end
  | VDict d => negb (bool_decide (d = ∅))
  end.

(** ** items.py *)

Module Item.

(** An item object: its identity and its six attributes. *)
Record t := mk {
  oid : positive;
  id : string;
  name : string;
  desc : string;
  kind : string;
  power : Z;
  value : Z
}.

(** [Item(id_, name, desc, kind, power, value)]: a new object. *)
Definition new (id_ name_ desc_ kind_ : string) (power_ value_ : Z) : Eff t :=
  do o <- fresh_oid; ret (mk o id_ name_ desc_ kind_ power_ value_).

Definition to_dict (it : t) : gmap string pyval :=
  <["id" := VStr (id it)]>
  (<["name" := VStr (name it)]>
  (<["desc" := VStr (desc it)]>
  (<["kind" := VStr (kind it)]>
  (<["power" := VInt (power it)]>
  (<["value" := VInt (value it)]> ∅))))).

Definition from_dict (data : gmap string pyval) : Eff t :=
  do id_ <- lift (item_str data "id");
  do name_ <- lift (item_str data "name");
  do desc_ <- lift (item_str data "desc");
  do kind_ <- lift (get_str data "kind" "misc");
  do power_ <- lift (get_int data "power" 0);
  do value_ <- lift (get_int data "value" 0);
  new id_ name_ desc_ kind_ power_ value_.

(** Two item objects with the same attributes (whatever their identities). *)
Definition same_fields (a b : t) : Prop :=
  id a = id b /\ name a = name b /\ desc a = desc b /\
  kind a = kind b /\ power a = power b /\ value a = value b.

End Item.

(** ** player.py *)

Module Entity.

Record t := mk {
  name : string;
  max_hp : Z;
  hp : Z;
  atk : Z;
  defense : Z;
  dodge : Z
}.

(** [Entity(name, hp, atk, defense, dodge)] *)
Definition init (name_ : string) (hp_ atk_ defense_ dodge_ : Z) : t :=
  mk name_ hp_ hp_ atk_ defense_ dodge_.

Definition alive (e : t) : bool := 0 <? hp e.

Definition set_hp (v : Z) (e : t) : t :=
  mk (name e) (max_hp e) v (atk e) (defense e) (dodge e).

End Entity.

(** An enemy is an [Entity] object to which [_create_enemy] attaches
    [xp_reward] and [gold_reward]. *)
Module Enemy.

Record t := mk {
  base : Entity.t;
  xp_reward : Z;
  gold_reward : Z
}.

Definition set_base (e : Entity.t) (en : t) : t :=
  mk e (xp_reward en) (gold_reward en).

End Enemy.

Module Player.

(** [Player(Entity)]: the inherited attributes are [base]. *)
Record t := mk {
  base : Entity.t;
  level : Z;
  xp : Z;
  xp_to_next : Z;
  pos : Z * Z;
  gold : Z;
  inventory : list Item.t;
  equipped_weapon : option Item.t;
  equipped_armor : option Item.t;
  discovered : gset (Z * Z);
  quests : gmap string pyval;
  save_slot : string
}.

Definition name (p : t) : string := Entity.name (base p).
Definition max_hp (p : t) : Z := Entity.max_hp (base p).
Definition hp (p : t) : Z := Entity.hp (base p).
Definition atk (p : t) : Z := Entity.atk (base p).
Definition defense (p : t) : Z := Entity.defense (base p).
Definition dodge (p : t) : Z := Entity.dodge (base p).

Definition set_base (e : Entity.t) (p : t) : t :=
  mk e (level p) (xp p) (xp_to_next p) (pos p) (gold p) (inventory p)
     (equipped_weapon p) (equipped_armor p) (discovered p) (quests p) (save_slot p).
Definition set_hp (v : Z) (p : t) : t := set_base (Entity.set_hp v (base p)) p.
Definition set_level (v : Z) (p : t) : t :=
  mk (base p) v (xp p) (xp_to_next p) (pos p) (gold p) (inventory p)
     (equipped_weapon p) (equipped_armor p) (discovered p) (quests p) (save_slot p).
Definition set_xp (v : Z) (p : t) : t :=
  mk (base p) (level p) v (xp_to_next p) (pos p) (gold p) (inventory p)
     (equipped_weapon p) (equipped_armor p) (discovered p) (quests p) (save_slot p).
Definition set_xp_to_next (v : Z) (p : t) : t :=
  mk (base p) (level p) (xp p) v (pos p) (gold p) (inventory p)
     (equipped_weapon p) (equipped_armor p) (discovered p) (quests p) (save_slot p).
Definition set_pos (v : Z * Z) (p : t) : t :=
  mk (base p) (level p) (xp p) (xp_to_next p) v (gold p) (inventory p)
     (equipped_weapon p) (equipped_armor p) (discovered p) (quests p) (save_slot p).
Definition set_gold (v : Z) (p : t) : t :=
  mk (base p) (level p) (xp p) (xp_to_next p) (pos p) v (inventory p)
     (equipped_weapon p) (equipped_armor p) (discovered p) (quests p) (save_slot p).
Definition set_inventory (v : list Item.t) (p : t) : t :=
  mk (base p) (level p) (xp p) (xp_to_next p) (pos p) (gold p) v
     (equipped_weapon p) (equipped_armor p) (discovered p) (quests p) (save_slot p).
Definition set_equipped_weapon (v : option Item.t) (p : t) : t :=
  mk (base p) (level p) (xp p) (xp_to_next p) (pos p) (gold p) (inventory p)
     v (equipped_armor p) (discovered p) (quests p) (save_slot p).
Definition set_equipped_armor (v : option Item.t) (p : t) : t :=
  mk (base p) (level p) (xp p) (xp_to_next p) (pos p) (gold p) (inventory p)
     (equipped_weapon p) v (discovered p) (quests p) (save_slot p).
Definition set_discovered (v : gset (Z * Z)) (p : t) : t :=
  mk (base p) (level p) (xp p) (xp_to_next p) (pos p) (gold p) (inventory p)
     (equipped_weapon p) (equipped_armor p) v (quests p) (save_slot p).
Definition set_quests (v : gmap string pyval) (p : t) : t :=
  mk (base p) (level p) (xp p) (xp_to_next p) (pos p) (gold p) (inventory p)
     (equipped_weapon p) (equipped_armor p) (discovered p) v (save_slot p).

(** [Player(name)] *)
Definition init (name_ : string) : t :=
  mk (Entity.init name_ 40 6 2 8) 1 0 30 (1, 1) 30 [] None None ∅ ∅ "savegame.json".

Definition alive (p : t) : bool := Entity.alive (base p).

Definition attack_power (p : t) : Z :=
  match equipped_weapon p with
  | Some w => atk p + Item.power w
  | None => atk p
  end.

Definition defense_value (p : t) : Z :=
  match equipped_armor p with
  | Some a => defense p + Item.power a
  | None => defense p
  end.

Definition add_item (item : Item.t) (p : t) : t :=
  set_inventory (inventory p ++ [item]) p.

(** The loop of [remove_item_by_id]: the popped item and what is left. *)
Fixpoint remove_by_id (id_ : string) (inv : list Item.t) : option Item.t * list Item.t :=
  match inv with
  | [] => (None, [])
  | it :: rest =>
      if String.eqb (Item.id it) id_ then (Some it, rest)
      else let '(r, rest') := remove_by_id id_ rest in (r, it :: rest')
  end.

Definition remove_item_by_id (id_ : string) (p : t) : option Item.t * t :=
  let '(r, inv) := remove_by_id id_ (inventory p) in (r, set_inventory inv p).

(** The loop of [find_item], over an already lowercased [name]. *)
Fixpoint find_item_loop (name_ : string) (inv : list Item.t) : option Item.t :=
  match inv with
  | [] => None
  | it :: rest =>
      if Str.contains name_ (Str.lower (Item.name it)) then Some it
      else find_item_loop name_ rest
  end.

Definition find_item (name_ : string) (p : t) : option Item.t :=
  find_item_loop (Str.lower name_) (inventory p).

(** [_level_up] ([level_up] in mystic_dungeon.py, with the same body). *)
Definition _level_up (p : t) : result t :=
  let e := base p in
  let e' := Entity.mk (Entity.name e) (Entity.max_hp e + 8) (Entity.max_hp e + 8)
                      (Entity.atk e + 2) (Entity.defense e + 1) (Entity.dodge e) in
  let p' := set_base e' (set_level (level p + 1) p) in
  try n := PyFloat.int_mul (xp_to_next p) PyFloat.f_1_4 in
  Ok (set_xp_to_next n p').

(** The [while] loop of [gain_xp].  [None]: the fuel ran out before the
    loop ended. *)
Fixpoint gain_xp_loop (fuel : nat) (p : t) : option (result t) :=
  if xp_to_next p <=? xp p then
    match fuel with
    | O => None
    | S fuel' =>
        match _level_up (set_xp (xp p - xp_to_next p) p) with
        | Ok p' => gain_xp_loop fuel' p'
        | Raise e => Some (Raise e)
        end
    end
  else Some (Ok p).

Definition gain_xp (fuel : nat) (amount : Z) (p : t) : option (result t) :=
  gain_xp_loop fuel (set_xp (xp p + amount) p).

Definition item_or_none (o : option Item.t) : pyval :=
  match o with
  | Some it => VDict (Item.to_dict it)
  | None => VNone
  end.

Definition tuple_of_pos (xy : Z * Z) : pyval := VTuple [VInt (fst xy); VInt (snd xy)].

(** [list(self.discovered)] enumerates the set in an order Python does not
    fix; [elements] is one such order, and [from_dict] builds a set again. *)
Definition to_dict (p : t) : gmap string pyval :=
  <["name" := VStr (name p)]>
  (<["hp" := VInt (hp p)]>
  (<["max_hp" := VInt (max_hp p)]>
  (<["atk" := VInt (atk p)]>
  (<["defense" := VInt (defense p)]>
  (<["dodge" := VInt (dodge p)]>
  (<["level" := VInt (level p)]>
  (<["xp" := VInt (xp p)]>
  (<["xp_to_next" := VInt (xp_to_next p)]>
  (<["pos" := tuple_of_pos (pos p)]>
  (<["gold" := VInt (gold p)]>
  (<["inventory" := VList (map (fun it => VDict (Item.to_dict it)) (inventory p))]>
  (<["equipped_weapon" := item_or_none (equipped_weapon p)]>
  (<["equipped_armor" := item_or_none (equipped_armor p)]>
  (<["quests" := VDict (quests p)]>
  (<["discovered" := VList (map tuple_of_pos (elements (discovered p)))]> ∅))))))))))))))).

(** [tuple(x)] for a pair of integers, given as a tuple or a list. *)
Definition pos_of_val (v : pyval) : result (Z * Z) :=
  match v with
  | VTuple [VInt x; VInt y] | VList [VInt x; VInt y] => Ok (x, y)
  | VTuple [_; _] | VList [_; _] => Raise Untyped
  | _ => Raise TypeError
  end.

Fixpoint positions_of (l : list pyval) : result (list (Z * Z)) :=
  match l with
  | [] => Ok []
  | v :: l' =>
      try xy := pos_of_val v in
      try rest := positions_of l' in
      Ok (xy :: rest)
  end.

Definition item_of_val (v : pyval) : Eff Item.t :=
  match v with
  | VDict d => Item.from_dict d
  | _ => raise TypeError
  end.

(** [Item.from_dict(v) if v else None] *)
Definition equipped_of (o : option pyval) : Eff (option Item.t) :=
  match o with
  | None => ret None
  | Some v =>
      if truthy v then do it <- item_of_val v; ret (Some it) else ret None
  end.

Definition from_dict (data : gmap string pyval) : Eff t :=
  do name_ <- lift (get_str data "name" "Hero");
  let p := init name_ in
  do hp_ <- lift (get_int data "hp" (hp p));
  do max_hp_ <- lift (get_int data "max_hp" (max_hp p));
  do atk_ <- lift (get_int data "atk" (atk p));
  do defense_ <- lift (get_int data "defense" (defense p));
  do dodge_ <- lift (get_int data "dodge" (dodge p));
  do level_ <- lift (get_int data "level" (level p));
  do xp_ <- lift (get_int data "xp" (xp p));
  do xp_to_next_ <- lift (get_int data "xp_to_next" (xp_to_next p));
  do pos_ <- lift (pos_of_val (default (VTuple [VInt 1; VInt 1]) (data !! "pos")));
  do gold_ <- lift (get_int data "gold" (gold p));
  do inv <-
    match default (VList []) (data !! "inventory") with
    | VList l => mapM item_of_val l
    | _ => raise Untyped
    end;
  do ew <- equipped_of (data !! "equipped_weapon");
  do ea <- equipped_of (data !! "equipped_armor");
  do quests_ <-
    match default (VDict ∅) (data !! "quests") with
    | VDict q => ret q
    | _ => raise Untyped
    end;
  do disc <-
    match default (VList []) (data !! "discovered") with
    | VList l => lift (positions_of l)
    | _ => raise Untyped
    end;
  ret (mk (Entity.mk name_ max_hp_ hp_ atk_ defense_ dodge_)
          level_ xp_ xp_to_next_ pos_ gold_ inv ew ea
          (list_to_set disc) quests_ (save_slot p)).

End Player.

(** ** world.py *)

Module Room.

Record t := mk {
  name : string;
  desc : string;
  pos : Z * Z;
  items : list Item.t;
  enemy : option Enemy.t;
  locked : bool;
  special : option string
}.

Definition set_items (v : list Item.t) (r : t) : t :=
  mk (name r) (desc r) (pos r) v (enemy r) (locked r) (special r).
Definition set_enemy (v : option Enemy.t) (r : t) : t :=
  mk (name r) (desc r) (pos r) (items r) v (locked r) (special r).
Definition set_locked (v : bool) (r : t) : t :=
  mk (name r) (desc r) (pos r) (items r) (enemy r) v (special r).
Definition set_name (v : string) (r : t) : t :=
  mk v (desc r) (pos r) (items r) (enemy r) (locked r) (special r).
Definition set_desc (v : string) (r : t) : t :=
  mk (name r) v (pos r) (items r) (enemy r) (locked r) (special r).

(** [r.enemy and r.enemy.alive()] *)
Definition enemy_alive (r : t) : bool :=
  match enemy r with
  | Some e => Entity.alive (Enemy.base e)
  | None => false
  end.

(** [r.special == s] *)
Definition special_is (s : string) (r : t) : bool :=
  match special r with
  | Some s' => String.eqb s' s
  | None => false
  end.

End Room.

(** A Python [dict] keyed by coordinate pairs, in insertion order (the
    [key] branch of [cmd_use] iterates over it). *)
Module Rooms.

Definition t := list ((Z * Z) * Room.t).

Definition key_eqb (a b : Z * Z) : bool := (fst a =? fst b) && (snd a =? snd b).

Fixpoint get (k : Z * Z) (d : t) : option Room.t :=
  match d with
  | [] => None
  | (k', r) :: d' => if key_eqb k' k then Some r else get k d'
  end.

(** [d[k] = r]: in place when the key is there, appended otherwise. *)
Fixpoint set (k : Z * Z) (r : Room.t) (d : t) : t :=
  match d with
  | [] => [(k, r)]
  | (k', r') :: d' => if key_eqb k' k then (k', r) :: d' else (k', r') :: set k r d'
  end.

End Rooms.

Module World.

Record t := mk {
  width : Z;
  height : Z;
  rooms : Rooms.t
}.

Definition set_rooms (v : Rooms.t) (w : t) : t := mk (width w) (height w) v.

(** [_create_enemy(kind, hp, atk, defense, dodge)]: [a or b] takes [b]
    when the override [a] is [None] or [0]. *)
Definition template (kind : string) : Z * Z * Z * Z * Z * Z :=
  if String.eqb kind "Wolf" then (14, 5, 1, 4, 12, 8)
  else if String.eqb kind "Marsh Slime" then (12, 4, 0, 2, 10, 6)
  else if String.eqb kind "Bandit" then (18, 6, 1, 5, 14, 12)
  else if String.eqb kind "Obsidian Warden" then (60, 10, 4, 4, 80, 50)
  else (10, 3, 0, 2, 5, 2).

Definition or_else (o : option Z) (d : Z) : Z :=
  match o with
  | Some v => if v =? 0 then d else v
  | None => d
  end.

Definition _create_enemy (kind : string) (hp atk defense dodge : option Z) : Enemy.t :=
  let '(t_hp, t_atk, t_def, t_dodge, t_xp, t_gold) := template kind in
  Enemy.mk (Entity.init kind (or_else hp t_hp) (or_else atk t_atk)
                        (or_else defense t_def) (or_else dodge t_dodge))
           t_xp t_gold.

Definition get_room (w : t) (pos : Z * Z) : option Room.t := Rooms.get pos (rooms w).

Definition in_bounds (w : t) (xy : Z * Z) : bool :=
  (0 <=? fst xy) && (fst xy <? width w) && (0 <=? snd xy) && (snd xy <? height w).

(** [neighbors(pos)]: the dict from direction to position, in insertion
    order. *)
Definition neighbors (w : t) (pos : Z * Z) : list (string * (Z * Z)) :=
  let directions :=
    [("north", (fst pos, snd pos - 1));
     ("south", (fst pos, snd pos + 1));
     ("west", (fst pos - 1, snd pos));
     ("east", (fst pos + 1, snd pos))] in
  List.filter (fun kv => in_bounds w (snd kv)) directions.

(** The [for x in range(width): for y in range(height)] loop of [_generate]
    that fills the cells no room was given for. *)
Definition fill_cell (d : Rooms.t) (xy : Z * Z) : Rooms.t :=
  match Rooms.get xy d with
  | Some _ => d
  | None =>
      Rooms.set xy (Room.mk "Wilderness" "Tall grass stretches in all directions."
                            xy [] None false None) d
  end.

Definition range (n : Z) : list Z := map Z.of_nat (seq 0 (Z.to_nat n)).

Definition fill (w h : Z) (d : Rooms.t) : Rooms.t :=
  fold_left (fun d x => fold_left (fun d y => fill_cell d (x, y)) (range h) d) (range w) d.

Definition add_room (x y : Z) (name_ desc_ : string) (items_ : list Item.t)
    (enemy_ : option Enemy.t) (locked_ : bool) (special_ : option string)
    (d : Rooms.t) : Rooms.t :=
  Rooms.set (x, y) (Room.mk name_ desc_ (x, y) items_ enemy_ locked_ special_) d.

(** [World(width, height)]: [__init__] and [_generate]. *)
Definition init (width_ height_ : Z) : Eff t :=
  let d := add_room 1 1 "Crossroads"
             "A dusty crossroads with a weathered sign pointing in four directions."
             [] None false None [] in
  let d := add_room 1 2 "Merchant's Way" "A well-worn path where traders often rest."
             [] None false (Some "merchant") d in
  let d := add_room 2 1 "Whispering Trees"
             "Ancient trees that seem to whisper secrets when the wind blows."
             [] (Some (_create_enemy "Wolf" None None None None)) false None d in
  do coin <- Item.new "ancient_coin" "Ancient Coin" "A weathered coin from ages past."
               "misc" 0 100;
  let d := add_room 2 2 "Old Ruins" "Crumbled stones from a long-forgotten civilization."
             [coin] None false None d in
  let d := add_room 0 1 "Foggy Marsh"
             "Thick mist obscures your vision. The ground is soft and treacherous."
             [] (Some (_create_enemy "Marsh Slime" None None None None)) false None d in
  do herb <- Item.new "herb" "Healing Herb" "A medicinal plant that can heal wounds."
               "consumable" 15 5;
  let d := add_room 1 0 "Sunlit Meadow"
             "Wildflowers sway in a gentle breeze. A peaceful place."
             [herb] None false None d in
  let d := add_room 3 1 "Bandit Camp" "Remnants of a camp. Someone unfriendly lingers here."
             [] (Some (_create_enemy "Bandit" None None None None)) false None d in
  let d := add_room 3 2 "Mysterious Cave"
             "A dark cave entrance. Strange symbols are carved around the doorway."
             [] None true (Some "riddle") d in
  do gem <- Item.new "strange_gem" "Strange Gem" "A gem pulsing with inner light."
              "misc" 0 200;
  let d := add_room 4 1 "Cliff Edge"
             "A stunning view of the sea far below. Something glints nearby."
             [gem] None false None d in
  do fish <- Item.new "fish" "Lucky Fish" "A plump fish. Might restore some energy."
               "consumable" 8 3;
  let d := add_room 2 3 "Quiet Pond"
             "Crystal clear water reflects the sky. Fish swim lazily."
             [fish] None false None d in
  let d := fill width_ height_ d in
  do keep <-
    match Rooms.get (4, 4) d with
    | Some r => ret r
    | None => raise KeyError
    end;
  let boss := _create_enemy "Obsidian Warden" (Some 60) (Some 10) (Some 4) (Some 4) in
  let d := Rooms.set (4, 4)
             (Room.set_enemy (Some boss)
               (Room.set_desc
                  "A fortress of black glass looms before you. Dark energy radiates from within."
                  (Room.set_name "Obsidian Keep" keep))) d in
  do u <- random_float;
  do d <-
    if PyFloat.lt u PyFloat.f_0_9 then
      do key <- Item.new "rusty_key" "Rusty Key"
                  "An old iron key. Might fit an ancient lock." "key" 0 0;
      match Rooms.get (2, 2) d with
      | Some r => ret (Rooms.set (2, 2) (Room.set_items (Room.items r ++ [key]) r) d)
      | None => raise KeyError
      end
    else ret d;
  ret (mk width_ height_ d).

(** One cell of [ascii_minimap]: the body of its inner loop. *)
Definition map_cell (w : t) (player_pos : Z * Z) (reveal_set : gset (Z * Z))
    (xy : Z * Z) : result ascii :=
  if Rooms.key_eqb xy player_pos then Ok "@"%char
  else if bool_decide (xy ∈ reveal_set) then
    match Rooms.get xy (rooms w) with
    | None => Raise KeyError
    | Some room =>
        if Room.enemy_alive room then Ok "!"%char
        else if Room.locked room then Ok "#"%char
        else match Room.items room with
             | _ :: _ => Ok "*"%char
             | [] => Ok "."%char
             end
    end
  else Ok " "%char.

(** The [lines] of [ascii_minimap]: one string per [y], one character per
    [x]. *)
Definition minimap_rows (w : t) (player_pos : Z * Z) (reveal_set : gset (Z * Z))
    : result (list string) :=
  rmapM (fun y =>
           try row := rmapM (fun x => map_cell w player_pos reveal_set (x, y))
                            (range (width w)) in
           Ok (string_of_list_ascii row))
        (range (height w)).

(** [ascii_minimap(player_pos, reveal_set)] *)
Definition ascii_minimap (w : t) (player_pos : Z * Z) (reveal_set : gset (Z * Z))
    : result string :=
  try lines := minimap_rows w player_pos reveal_set in
  Ok (Str.join (String "010"%char EmptyString) lines).

End World.

(** ** The [json] module and the save files *)

Module Json.

(** What [json.load] reads back from what [json.dump] wrote: a tuple is
    written as an array and comes back as a list; dicts (their keys are
    strings here), lists, strings, integers, booleans and [None] come back
    as they are. *)
Fixpoint reload (v : pyval) : pyval :=
  match v with
  | VTuple l | VList l => VList (map reload l)
  | VDict d => VDict (reload <$> d)
  | _ => v
  end.

End Json.

(** A file: a JSON document, given as the value [json.load] reads from it,
    or text that [json.load] rejects. *)
Inductive file :=
  | Document (v : pyval)
  | NotJson.

(** The directory the game runs in: the files by path.  Writing a file is
    taken to succeed. *)
Abbreviation files := (gmap string file).

(** ** game.py *)

(** A combat-capable object: an enemy ([Entity] with rewards) or the player.
    [hasattr(x, 'attack_power')] holds for the player only. *)
Inductive combatant :=
  | Foe (e : Enemy.t)
  | Hero (p : Player.t).

Definition c_entity (c : combatant) : Entity.t :=
  match c with
  | Foe e => Enemy.base e
  | Hero p => Player.base p
  end.

Definition c_set_hp (v : Z) (c : combatant) : combatant :=
  match c with
  | Foe e => Foe (Enemy.set_base (Entity.set_hp v (Enemy.base e)) e)
  | Hero p => Hero (Player.set_hp v p)
  end.

(** What [slow_print] shows during an attack. *)
Inductive msg :=
  | Dodged (defender : string)
  | CriticalHit
  | Hits (attacker defender : string) (damage : Z).

Module Game.

Record t := mk {
  world : World.t;
  player : Player.t;
  merchant_goods : list Item.t;
  running : bool;
  intro_done : bool;
  turn_count : Z
}.

Definition set_world (v : World.t) (g : t) : t :=
  mk v (player g) (merchant_goods g) (running g) (intro_done g) (turn_count g).
Definition set_player (v : Player.t) (g : t) : t :=
  mk (world g) v (merchant_goods g) (running g) (intro_done g) (turn_count g).
Definition set_turn_count (v : Z) (g : t) : t :=
  mk (world g) (player g) (merchant_goods g) (running g) (intro_done g) v.

(** [Game()] *)
Definition init : Eff t :=
  do w <- World.init 5 5;
  let p := Player.init "Hero" in
  do knife <- Item.new "knife" "Traveler's Knife"
                "A simple steel knife. Better than nothing." "weapon" 2 4;
  do vest <- Item.new "leather_vest" "Leather Vest" "Light protection for the torso."
               "armor" 1 6;
  do bread <- Item.new "bread" "Stale Bread" "Restores a bit of HP." "consumable" 8 2;
  let p := Player.set_inventory [knife; vest; bread] p in
  do sword <- Item.new "iron_sword" "Iron Sword" "A solid blade." "weapon" 4 40;
  do mail <- Item.new "chain_mail" "Chain Mail" "Better armor." "armor" 3 50;
  do potion <- Item.new "potion" "Minor Potion" "Restores 25 HP." "consumable" 25 20;
  let p := Player.set_discovered ({[Player.pos p]} ∪ Player.discovered p) p in
  ret (mk w p [sword; mail; potion] true false 0).

Definition current_room (g : t) : option Room.t :=
  World.get_room (world g) (Player.pos (player g)).

Definition reveal_current (g : t) : t :=
  let p := player g in
  set_player (Player.set_discovered ({[Player.pos p]} ∪ Player.discovered p) p) g.

(** [cmd_look]: it reads attributes of the current room ([AttributeError]
    when there is none) and reveals the tile. *)
Definition cmd_look (g : t) : Eff t :=
  match current_room g with
  | None => raise AttributeError
  | Some _ => ret (reveal_current g)
  end.

(** [random_event]: only the gold find changes the state. *)
Definition random_event (g : t) : Eff t :=
  do roll <- random_float;
  if PyFloat.lt roll PyFloat.f_0_08 then ret g
  else if PyFloat.lt roll PyFloat.f_0_12 then ret g
  else if PyFloat.lt roll PyFloat.f_0_15 then ret g
  else if PyFloat.lt roll PyFloat.f_0_18 then
    do found <- randint 1 5;
    let p := player g in
    ret (set_player (Player.set_gold (Player.gold p + found) p) g)
  else if PyFloat.lt roll PyFloat.f_0_20 then ret g
  else ret g.

(** [dirs[direction]] on the dict [neighbors] returns. *)
Fixpoint lookup_dir (direction : string) (dirs : list (string * (Z * Z))) : option (Z * Z) :=
  match dirs with
  | [] => None
  | (k, v) :: dirs' => if String.eqb k direction then Some v else lookup_dir direction dirs'
  end.

Definition cmd_move (direction : string) (g : t) : Eff t :=
  if String.eqb direction EmptyString then ret g
  else
    let direction := Str.lower (Str.strip direction) in
    let dirs := World.neighbors (world g) (Player.pos (player g)) in
    match lookup_dir direction dirs with
    | None => ret g
    | Some new_pos =>
        match World.get_room (world g) new_pos with
        | None => raise AttributeError
        | Some r =>
            if Room.locked r then ret g
            else
              let g := set_player (Player.set_pos new_pos (player g)) g in
              let g := set_turn_count (turn_count g + 1) g in
              let g := reveal_current g in
              do g <- cmd_look g;
              random_event g
        end
    end.

(** What [cmd_inspect] shows. *)
Inductive inspected :=
  | InspectWhat
  | Carried (it : Item.t)
  | OnGround (it : Item.t)
  | NotFound.

Fixpoint find_in_room (name_ : string) (items : list Item.t) : option Item.t :=
  match items with
  | [] => None
  | it :: rest =>
      if Str.contains name_ (Str.lower (Item.name it)) then Some it
      else find_in_room name_ rest
  end.

Definition cmd_inspect (name_ : string) (g : t) : result inspected :=
  if String.eqb name_ EmptyString then Ok InspectWhat
  else
    let name_ := Str.strip name_ in
    match Player.find_item name_ (player g) with
    | Some it => Ok (Carried it)
    | None =>
        match current_room g with
        | None => Raise AttributeError
        | Some room =>
            match find_in_room name_ (Room.items room) with
            | Some it => Ok (OnGround it)
            | None => Ok NotFound
            end
        end
    end.

Definition cmd_equip (name_ : string) (g : t) : t :=
  if String.eqb name_ EmptyString then g
  else
    match Player.find_item name_ (player g) with
    | None => g
    | Some it =>
        if String.eqb (Item.kind it) "weapon" then
          set_player (Player.set_equipped_weapon (Some it) (player g)) g
        else if String.eqb (Item.kind it) "armor" then
          set_player (Player.set_equipped_armor (Some it) (player g)) g
        else g
    end.

(** The first locked room at Manhattan distance at most 1, in the order
    of the [rooms] dict. *)
Fixpoint first_locked_near (xy : Z * Z) (d : Rooms.t) : option ((Z * Z) * Room.t) :=
  match d with
  | [] => None
  | (k, room) :: d' =>
      if Room.locked room && (Z.abs (fst k - fst xy) + Z.abs (snd k - snd xy) <=? 1)
      then Some (k, room)
      else first_locked_near xy d'
  end.

Definition cmd_use (name_ : string) (g : t) : t :=
  if String.eqb name_ EmptyString then g
  else
    match Player.find_item name_ (player g) with
    | None => g
    | Some it =>
        let p := player g in
        if String.eqb (Item.kind it) "consumable" then
          let p := Player.set_hp (Z.min (Player.max_hp p) (Player.hp p + Item.power it)) p in
          set_player (snd (Player.remove_item_by_id (Item.id it) p)) g
        else if String.eqb (Item.kind it) "key" then
          match first_locked_near (Player.pos p) (World.rooms (world g)) with
          | Some (k, room) =>
              let w := World.set_rooms
                         (Rooms.set k (Room.set_locked false room) (World.rooms (world g)))
                         (world g) in
              set_player (snd (Player.remove_item_by_id (Item.id it) p)) (set_world w g)
          | None => g
          end
        else g
    end.

(** [a == b] on an optional item and an item: identity of objects. *)
Definition is_object (o : option Item.t) (it : Item.t) : bool :=
  match o with
  | Some x => Pos.eqb (Item.oid x) (Item.oid it)
  | None => false
  end.

Definition cmd_drop (name_ : string) (g : t) : result t :=
  if String.eqb name_ EmptyString then Ok g
  else
    match Player.find_item name_ (player g) with
    | None => Ok g
    | Some it =>
        let p := player g in
        if is_object (Player.equipped_weapon p) it || is_object (Player.equipped_armor p) it
        then Ok g
        else
          let p := snd (Player.remove_item_by_id (Item.id it) p) in
          match current_room g with
          | None => Raise AttributeError
          | Some room =>
              let w := World.set_rooms
                         (Rooms.set (Player.pos p)
                            (Room.set_items (Room.items room ++ [it]) room)
                            (World.rooms (world g)))
                         (world g) in
              Ok (set_player p (set_world w g))
          end
    end.

(** The [buy] branch of the loop of [cmd_shop], from the answer [c] to the
    prompt [Buy>] on. *)
Definition shop_buy (c : string) (g : t) : Eff t :=
  if Str.isdigit c && (1 <=? Str.int c) && (Str.int c <=? Z.of_nat (length (merchant_goods g)))
  then
    let idx := Str.int c - 1 in
    match merchant_goods g !! Z.to_nat idx with
    | None => raise IndexError
    | Some item =>
        do price <- lift (PyFloat.int_mul (Item.value item) PyFloat.f_1_5);
        let p := player g in
        if price <=? Player.gold p then
          let p := Player.set_gold (Player.gold p - price) p in
          do new_item <- Item.from_dict (Item.to_dict item);
          ret (set_player (Player.add_item new_item p) g)
        else ret g
    end
  else ret g.

(** The [sell] branch of the loop of [cmd_shop]: the items offered, and
    the code from the answer [c] to the prompt [Sell>] on (the prompt is
    reached when [sellable] is not empty). *)
Definition sellable (p : Player.t) : list Item.t :=
  List.filter (fun it => negb (is_object (Player.equipped_weapon p) it) &&
                         negb (is_object (Player.equipped_armor p) it))
              (Player.inventory p).

Definition shop_sell (c : string) (g : t) : result t :=
  let p := player g in
  let items := sellable p in
  if Str.isdigit c && (1 <=? Str.int c) && (Str.int c <=? Z.of_nat (length items))
  then
    match items !! Z.to_nat (Str.int c - 1) with
    | None => Raise IndexError
    | Some item =>
        try sell_price := PyFloat.int_mul (Item.value item) PyFloat.f_0_6 in
        let p := snd (Player.remove_item_by_id (Item.id item) p) in
        Ok (set_player (Player.set_gold (Player.gold p + sell_price) p) g)
    end
  else Ok g.

(** [cmd_unequip(what)] *)
Definition cmd_unequip (what : string) (g : t) : t :=
  let what := Str.lower (Str.strip what) in
  if String.eqb what "weapon" then
    set_player (Player.set_equipped_weapon None (player g)) g
  else if String.eqb what "armor" then
    set_player (Player.set_equipped_armor None (player g)) g
  else g.

(** The loop of [cmd_take]: the first item on the ground whose lowercased
    name contains [name] (which is not lowercased here), and the items
    left after [pop]. *)
Fixpoint take_from (name_ : string) (items : list Item.t) : option (Item.t * list Item.t) :=
  match items with
  | [] => None
  | it :: rest =>
      if Str.contains name_ (Str.lower (Item.name it)) then Some (it, rest)
      else
        match take_from name_ rest with
        | Some (x, rest') => Some (x, it :: rest')
        | None => None
        end
  end.

Definition cmd_take (name_ : string) (g : t) : result t :=
  if String.eqb name_ EmptyString then Ok g
  else
    match current_room g with
    | None => Raise AttributeError
    | Some room =>
        match take_from name_ (Room.items room) with
        | Some (it, rest) =>
            let p := Player.add_item it (player g) in
            let w := World.set_rooms
                       (Rooms.set (Player.pos (player g)) (Room.set_items rest room)
                                  (World.rooms (world g)))
                       (world g) in
            Ok (set_player p (set_world w g))
        | None => Ok g
        end
    end.

(** [q["done"]] on a quest entry, as a truth value. *)
Definition quest_done (q : pyval) : result bool :=
  match q with
  | VDict d =>
      match d !! "done" with
      | Some v => Ok (truthy v)
      | None => Raise KeyError
      end
  | _ => Raise TypeError
  end.

(** What [cmd_talk] does: it hands over to [cmd_shop] or to [cmd_attack]
    (its last action in these branches), or it talks. *)
Inductive talked :=
  | CallsShop
  | CallsAttack
  | Talked (g : t).

Definition cmd_talk (g : t) : result talked :=
  match current_room g with
  | None => Raise AttributeError
  | Some r =>
      if Room.special_is "merchant" r then Ok CallsShop
      else if Room.enemy_alive r then Ok CallsAttack
      else
        let p := player g in
        match Player.quests p !! "lost_herb" with
        | None =>
            let q := VDict (<["desc" := VStr "Find herb for wanderer"]>
                           (<["done" := VBool false]> ∅)) in
            Ok (Talked (set_player
                          (Player.set_quests (<["lost_herb" := q]> (Player.quests p)) p) g))
        | Some q =>
            try done_ := quest_done q in
            if negb done_ then
              match Player.find_item "herb" p with
              | Some herb =>
                  let p := Player.set_gold (Player.gold p + 15) p in
                  let p := snd (Player.remove_item_by_id (Item.id herb) p) in
                  match q with
                  | VDict d =>
                      let q := VDict (<["done" := VBool true]> d) in
                      Ok (Talked (set_player
                                    (Player.set_quests
                                       (<["lost_herb" := q]> (Player.quests p)) p) g))
                  | _ => Raise TypeError
                  end
              | None => Ok (Talked g)
              end
            else Ok (Talked g)
        end
  end.

(** [cmd_riddle], with the line typed at the prompt [Answer:] (read only
    in a locked riddle room). *)
Definition cmd_riddle (line : string) (g : t) : result t :=
  match current_room g with
  | None => Raise AttributeError
  | Some r =>
      if negb (Room.special_is "riddle" r) then Ok g
      else if negb (Room.locked r) then Ok g
      else
        let ans := Str.lower (Str.strip line) in
        if Str.contains "echo" ans then
          let w := World.set_rooms
                     (Rooms.set (Player.pos (player g)) (Room.set_locked false r)
                                (World.rooms (world g)))
                     (world g) in
          Ok (set_world w g)
        else Ok g
  end.

(** [cmd_map]: the map it prints. *)
Definition cmd_map (g : t) : result string :=
  World.ascii_minimap (world g) (Player.pos (player g)) (Player.discovered (player g)).

(** [save]: the document written to the save slot. *)
Definition save (g : t) (fs : files) : files :=
  let data := <["version" := VStr "1.0"]>
              (<["player" := VDict (Player.to_dict (player g))]>
              (<["turn" := VInt (turn_count g)]> ∅)) in
  <[Player.save_slot (player g) := Document (Json.reload (VDict data))]> fs.

(** The [try] block of [load] on the document read. *)
Definition load_document (data : pyval) (g : t) : Eff t :=
  match data with
  | VDict d =>
      match d !! "player" with
      | None => raise KeyError
      | Some (VDict pd) =>
          do p <- Player.from_dict pd;
          do turn <- lift (get_int d "turn" 0);
          ret (set_turn_count turn (set_player p g))
      | Some _ => raise AttributeError
      end
  | _ => raise TypeError
  end.

(** [load]: [except Exception] leaves the game as it was.  ([Untyped] is
    not an exception of Python and is not caught.) *)
Definition load (fs : files) (g : t) : Eff t :=
  match fs !! Player.save_slot (player g) with
  | None => ret g
  | Some NotJson => ret g
  | Some (Document data) =>
      fun rt =>
        match load_document data g rt with
        | (Raise Untyped, rt') => (Raise Untyped, rt')
        | (Raise _, rt') => (Ok g, rt')
        | (Ok g', rt') => (Ok g', rt')
        end
  end.

(** The [if]/[elif]/[else] at the head of [_do_attack]: [atk_val] and
    [def_val]. *)
Definition stat_values (attacker defender : combatant) (use_player_stats : bool) : Z * Z :=
  match use_player_stats, attacker, defender with
  | true, Hero p, _ => (Player.attack_power p, Entity.defense (c_entity defender))
  | false, _, Hero p => (Entity.atk (c_entity attacker), Player.defense_value p)
  | _, _, _ => (Entity.atk (c_entity attacker), Entity.defense (c_entity defender))
  end.

(** [_do_attack(attacker, defender, use_player_stats)]: the defender after
    the attack and what was printed. *)
Definition _do_attack (attacker defender : combatant) (use_player_stats : bool)
    : Eff (combatant * list msg) :=
  let '(atk_val, def_val) := stat_values attacker defender use_player_stats in
  do dodge_roll <- randint 1 20;
  if dodge_roll <=? Entity.dodge (c_entity defender) then
    ret (defender, [Dodged (Entity.name (c_entity defender))])
  else
    do offset <- randint (-1) 2;
    let base_dmg := Z.max 1 (atk_val - def_val + offset) in
    do u <- random_float;
    let is_crit := PyFloat.lt u PyFloat.f_0_12 in
    do dmg <- (if is_crit then lift (PyFloat.int_mul base_dmg PyFloat.f_1_8)
               else ret base_dmg);
    ret (c_set_hp (Entity.hp (c_entity defender) - dmg) defender,
         (if is_crit then [CriticalHit] else []) ++
         [Hits (Entity.name (c_entity attacker)) (Entity.name (c_entity defender)) dmg]).

(** The end of [cmd_attack], once the combat loop is left with the enemy
    alive: [if not self.player.alive(): ...]. *)
Definition cmd_attack_defeat (g : t) : result t :=
  let p := player g in
  if negb (Player.alive p) then
    let p := Player.set_hp (Player.max_hp p / 2) p in
    try lost_gold := PyFloat.int_mul (Player.gold p) PyFloat.f_0_2 in
    let p := Player.set_gold (Player.gold p - lost_gold) p in
    let p := Player.set_pos (1, 1) p in
    Ok (set_player p g)
  else Ok g.

End Game.

(** ** mystic_dungeon.py *)

Module Mystic.

(** The dict [attack] returns, without its message. *)
Record attack_result := AttackResult {
  hit : bool;
  damage : Z;
  critical : bool
}.

(** [attack(attacker, defender)]: the result and the defender after it. *)
Definition attack (attacker defender : Entity.t) : Eff (attack_result * Entity.t) :=
  do roll <- randint 1 20;
  let dodge_roll := roll + Entity.dodge defender in
  if 20 <? dodge_roll then ret (AttackResult false 0 false, defender)
  else
    let base := Z.max 0 (Entity.atk attacker - Entity.defense defender) in
    do u <- random_float;
    let crit := PyFloat.lt u PyFloat.f_0_12 in
    do base <- (if crit then
                  do scaled <- lift (PyFloat.int_mul base PyFloat.f_1_8); ret (scaled + 2)
                else ret base);
    do offset <- randint (-1) 2;
    let dmg := Z.max 1 (base + offset) in
    ret (AttackResult true dmg crit, Entity.set_hp (Entity.hp defender - dmg) defender).

(** The temporary entity [cmd_attack] fights with in the player's place. *)
Definition player_entity (p : Player.t) : Entity.t :=
  Entity.init (Player.name p) (Player.hp p) (Player.attack_power p)
              (Player.defense_value p) (Player.dodge p).

(** The end of [cmd_attack], after the enemy's retaliation was copied to
    the player: [if not self.player.alive(): ...]. *)
Definition cmd_attack_defeat (g : Game.t) : result Game.t :=
  let p := Game.player g in
  if negb (Player.alive p) then
    try half := PyFloat.int_div (Player.max_hp p) 2 in
    let p := Player.set_hp (Z.max 1 half) p in
    try lost := PyFloat.int_mul (Player.gold p) PyFloat.f_0_2 in
    let p := Player.set_gold (Player.gold p - lost) p in
    Ok (Game.set_player p g)
  else Ok g.

(** A numbered choice of the loop of [cmd_shop]: buying. *)
Definition shop_buy (choice : string) (g : Game.t) : result Game.t :=
  if Str.isdigit choice && (1 <=? Str.int choice) &&
     (Str.int choice <=? Z.of_nat (length (Game.merchant_goods g)))
  then
    match Game.merchant_goods g !! Z.to_nat (Str.int choice - 1) with
    | None => Raise IndexError
    | Some sel =>
        let p := Game.player g in
        if Item.value sel <=? Player.gold p then
          let p := Player.set_gold (Player.gold p - Item.value sel) p in
          Ok (Game.set_player (Player.add_item sel p) g)
        else Ok g
    end
  else Ok g.

(** [choose(options)] (and [choose_option] of utils.py, which has the same
    body) on the lines typed at the prompt: the index chosen and the lines
    left unread.  The end of the input is [input]'s [EOFError].

    Python's [str.strip], [str.isdigit] and [int] are taken as they are, on
    whatever text is typed: [int] can raise on a line that passes [isdigit]
    (a superscript digit is a digit for [isdigit] and a [ValueError] for
    [int]), and nothing in [choose] catches it. *)
Section Choose.

Variable strip : string -> string.
Variable isdigit : string -> bool.
Variable int : string -> result Z.

Fixpoint choose {A} (options : list A) (lines : list string) : result (Z * list string) :=
  match lines with
  | [] => Raise EOFError
  | line :: rest =>
      let c := strip line in
      if isdigit c then
        try n := int c in
        if (1 <=? n) && (n <=? Z.of_nat (length options))
        then Ok (n - 1, rest)
        else choose options rest
      else choose options rest
  end.

End Choose.

(** The first locked room at Manhattan distance at most 2, in the order of
    the [rooms] dict. *)
Fixpoint first_locked_within_2 (xy : Z * Z) (d : Rooms.t) : option ((Z * Z) * Room.t) :=
  match d with
  | [] => None
  | (k, room) :: d' =>
      if Room.locked room && (Z.abs (fst k - fst xy) + Z.abs (snd k - snd xy) <=? 2)
      then Some (k, room)
      else first_locked_within_2 xy d'
  end.

Definition cmd_use (name_ : string) (g : Game.t) : Game.t :=
  if String.eqb name_ EmptyString then g
  else
    match Player.find_item name_ (Game.player g) with
    | None => g
    | Some it =>
        let p := Game.player g in
        if String.eqb (Item.kind it) "consumable" then
          let p := Player.set_hp (Z.min (Player.max_hp p) (Player.hp p + Item.power it)) p in
          Game.set_player (snd (Player.remove_item_by_id (Item.id it) p)) g
        else if String.eqb (Item.kind it) "key" then
          match first_locked_within_2 (Player.pos p) (World.rooms (Game.world g)) with
          | Some (k, room) =>
              let w := World.set_rooms
                         (Rooms.set k (Room.set_locked false room) (World.rooms (Game.world g)))
                         (Game.world g) in
              Game.set_player (snd (Player.remove_item_by_id (Item.id it) p))
                              (Game.set_world w g)
          | None => g
          end
        else g
    end.

(** [cmd_drop]: there is no check of the equipment here. *)
Definition cmd_drop (name_ : string) (g : Game.t) : result Game.t :=
  if String.eqb name_ EmptyString then Ok g
  else
    match Player.find_item name_ (Game.player g) with
    | None => Ok g
    | Some it =>
        let p := snd (Player.remove_item_by_id (Item.id it) (Game.player g)) in
        match Game.current_room g with
        | None => Raise AttributeError
        | Some room =>
            let w := World.set_rooms
                       (Rooms.set (Player.pos p)
                          (Room.set_items (Room.items room ++ [it]) room)
                          (World.rooms (Game.world g)))
                       (Game.world g) in
            Ok (Game.set_player p (Game.set_world w g))
        end
    end.

(** [shop_sell_menu], with the line typed at its prompt (read only when
    the inventory is not empty). *)
Definition shop_sell_menu (line : string) (g : Game.t) : result Game.t :=
  let p := Game.player g in
  match Player.inventory p with
  | [] => Ok g
  | _ :: _ =>
      let c := Str.lower (Str.strip (Str.strip line)) in
      if String.eqb c "x" then Ok g
      else if Str.isdigit c && (1 <=? Str.int c) &&
              (Str.int c <=? Z.of_nat (length (Player.inventory p)))
      then
        let i := Z.to_nat (Str.int c - 1) in
        match Player.inventory p !! i with
        | None => Raise IndexError
        | Some it =>
            let p := Player.set_inventory (delete i (Player.inventory p)) p in
            Ok (Game.set_player (Player.set_gold (Player.gold p + Item.value it) p) g)
        end
      else Ok g
  end.

End Mystic.

(** * Properties *)

(** ** Definitions used in the statements *)

(** How far [binary_round_aux] shifts a mantissa [m] with exponent [e] to
    the right to fit it into 53 bits. *)
Definition shift_amount (m e : Z) : Z := Z.max 0 (fexp 53 1024 (Zdigits2 m + e) - e).

(** The dyadic number [m * 2^e] is positive and at least one. *)
Definition ge_one (m e : Z) : Prop := 0 < m /\ 1 <= Z.shiftl m e.

(** The draws of a runtime: the integer or the float its next word gives,
    and the runtime after one draw. *)
Definition draw_int (a b : Z) (rt : runtime) : Z := fst (random.randint a b (rng rt)).
Definition draw_float (rt : runtime) : spec_float := fst (random.random (rng rt)).
Definition skip (rt : runtime) : runtime :=
  Runtime (snd (random.next (rng rt))) (next_oid rt).

(** The stored hit points are within [[0, max_hp]]. *)
Definition hp_in_range (e : Entity.t) : Prop := 0 <= Entity.hp e <= Entity.max_hp e.

(** [gain_xp(a)] followed by [gain_xp(b)]: the second call runs when the
    first returned. *)
Definition gain_xp_then (fuel : nat) (a b : Z) (p : Player.t) : option (result Player.t) :=
  match Player.gain_xp fuel a p with
  | Some (Ok p1) => Player.gain_xp fuel b p1
  | r => r
  end.

(** Substring containment, and the first match of a query in an inventory,
    as the specification words them. *)
Definition is_substring (q s : string) : Prop :=
  exists pre post, s = String.append pre (String.append q post).

Definition name_matches (query : string) (it : Item.t) : Prop :=
  is_substring (Str.lower query) (Str.lower (Item.name it)).

Definition first_match (query : string) (inv : list Item.t) (r : option Item.t) : Prop :=
  match r with
  | Some it =>
      exists before after,
        inv = before ++ it :: after /\
        name_matches query it /\
        Forall (fun x => ~ name_matches query x) before
  | None => Forall (fun x => ~ name_matches query x) inv
  end.

(** Item lists and optional items that agree attribute by attribute. *)
Definition same_items (l1 l2 : list Item.t) : Prop := Forall2 Item.same_fields l1 l2.

Definition same_equipped (o1 o2 : option Item.t) : Prop :=
  match o1, o2 with
  | Some a, Some b => Item.same_fields a b
  | None, None => True
  | _, _ => False
  end.

(** Every object of a list was created before the allocator reached
    [next_oid]. *)
Definition allocated (rt : runtime) (l : list Item.t) : Prop :=
  Forall (fun it => (Item.oid it < next_oid rt)%positive) l.

(** The direction that leads back. *)
Definition opposite (direction : string) : string :=
  if String.eqb direction "north" then "south"
  else if String.eqb direction "south" then "north"
  else if String.eqb direction "west" then "east"
  else if String.eqb direction "east" then "west"
  else direction.

Definition manhattan (a b : Z * Z) : Z :=
  Z.abs (fst a - fst b) + Z.abs (snd a - snd b).

(** Every cell of the grid has a room, which knows its place. *)
Definition full_grid (w : World.t) : Prop :=
  forall xy, World.in_bounds w xy = true ->
    exists r, World.get_room w xy = Some r /\ Room.pos r = xy.

(** No two items of a list carry the same [id]. *)
Definition distinct_ids (l : list Item.t) : Prop := NoDup (map Item.id l).

(** The character of a printed map at column [x] of line [y]. *)
Definition char_at (rows : list string) (xy : Z * Z) : option ascii :=
  match rows !! Z.to_nat (snd xy) with
  | Some row => String.get (Z.to_nat (fst xy)) row
  | None => None
  end.

(** The items a player carries and the items on the ground where the
    player stands. *)
Definition items_here (g : Game.t) : list Item.t :=
  match Game.current_room g with
  | Some r => Room.items r
  | None => []
  end.

(** The wanderer's quest is recorded as done. *)
Definition quest_is_done (p : Player.t) : Prop :=
  exists q, Player.quests p !! "lost_herb" = Some q /\ Game.quest_done q = Ok true.

(** The equipped objects were created before the allocator reached
    [next_oid]. *)
Definition equipment_allocated (rt : runtime) (p : Player.t) : Prop :=
  forall e, Player.equipped_weapon p = Some e \/ Player.equipped_armor p = Some e ->
    (Item.oid e < next_oid rt)%positive.

(** ** Sample states *)

(** The runtime a program starts with: no object yet, and a random source
    of zeros (so that [_generate] places the rusty key). *)
Definition boot : runtime := Runtime (random.of_list []) 1.

(** [Game()] run on [boot].  It returns (see [new_game_init]); the other
    branch is never taken. *)
Definition new_game : Game.t :=
  match fst (Game.init boot) with
  | Ok g => g
  | Raise _ => Game.mk (World.mk 0 0 []) (Player.init "Hero") [] true false 0
  end.

(** A runtime after [Game()], which created eleven items, whose random
    source produces the words of [l], then zeros. *)
Definition rt_of (l : list N) : runtime := Runtime (random.of_list l) 12.

(** The items [Game()] creates for the player and the merchant. *)
Definition knife : Item.t :=
  Item.mk 6 "knife" "Traveler's Knife" "A simple steel knife. Better than nothing." "weapon" 2 4.
Definition vest : Item.t :=
  Item.mk 7 "leather_vest" "Leather Vest" "Light protection for the torso." "armor" 1 6.
Definition bread : Item.t :=
  Item.mk 8 "bread" "Stale Bread" "Restores a bit of HP." "consumable" 8 2.
Definition iron_sword : Item.t := Item.mk 9 "iron_sword" "Iron Sword" "A solid blade." "weapon" 4 40.
Definition chain_mail : Item.t := Item.mk 10 "chain_mail" "Chain Mail" "Better armor." "armor" 3 50.
Definition potion : Item.t :=
  Item.mk 11 "potion" "Minor Potion" "Restores 25 HP." "consumable" 25 20.

Definition wolf : Enemy.t := World._create_enemy "Wolf" None None None None.
Definition slime : Enemy.t := World._create_enemy "Marsh Slime" None None None None.

(** A wolf after two hits of 5. *)
Definition wounded_wolf : Enemy.t :=
  Enemy.set_base (Entity.set_hp 4 (Enemy.base wolf)) wolf.

(** A player as [Player("Hero")] makes it, and the player of the new game,
    who carries the starter items. *)
Definition hero : Player.t := Player.init "Hero".
Definition starter : Player.t := Game.player new_game.

(** The player in chain mail: effective defense 5. *)
Definition armored_hero : Player.t :=
  Player.set_equipped_armor (Some chain_mail) (Player.add_item chain_mail hero).

(** The new game with another player state. *)
Definition game_of (p : Player.t) : Game.t := Game.set_player p new_game.

(** The player beaten at [xy] with [gold_] gold. *)
Definition beaten (gold_ : Z) (xy : Z * Z) : Player.t :=
  Player.set_pos xy (Player.set_gold gold_ (Player.set_hp (-2) starter)).

(** A beaten player whose save file gave a [max_hp] of 1. *)
Definition frail (gold_ : Z) (xy : Z * Z) : Player.t :=
  Player.set_base (Entity.mk "Hero" 1 0 6 2 8) (beaten gold_ xy).

(** ** The new game *)

(** [Game()] on [boot] returns [new_game] after creating eleven items: a
    5 x 5 world of 25 rooms, the player at the crossroads with 30 gold and
    the starter items, and three goods on sale. *)
Example new_game_init :
  fst (Game.init boot) = Ok new_game /\
  next_oid (snd (Game.init boot)) = 12%positive /\
  World.width (Game.world new_game) = 5 /\
  World.height (Game.world new_game) = 5 /\
  length (World.rooms (Game.world new_game)) = 25%nat /\
  Player.pos starter = (1, 1) /\
  Player.gold starter = 30 /\
  Player.inventory starter = [knife; vest; bread] /\
  Game.merchant_goods new_game = [iron_sword; chain_mail; potion].
Proof. repeat apply conj; vm_compute; reflexivity. Qed.

(** ** Binary64 arithmetic on integers

    What [SpecFloat]'s rounding does to the integers the game multiplies
    by a float literal. *)

Lemma shr_1_m mrs : 0 <= shr_m mrs -> shr_m (shr_1 mrs) = shr_m mrs / 2.
Proof.
  destruct mrs as [m r s]; simpl. intros Hm.
  destruct m as [|p|p]; [reflexivity| |lia].
  destruct p as [p|p|]; simpl.
  - rewrite Pos2Z.inj_xI. apply Z.div_unique with (r:=1); lia.
  - rewrite Pos2Z.inj_xO. apply Z.div_unique with (r:=0); lia.
  - reflexivity.
Qed.

Lemma iter_pos_shr_m p : forall mrs, 0 <= shr_m mrs ->
  shr_m (SpecFloat.iter_pos shr_1 p mrs) = shr_m mrs / 2 ^ Zpos p.
Proof.
  induction p as [p IH|p IH|]; intros mrs Hm; simpl SpecFloat.iter_pos.
  - assert (H1: 0 <= shr_m (shr_1 mrs)) by (rewrite shr_1_m by done; apply Z.div_pos; lia).
    assert (H2: 0 <= shr_m (SpecFloat.iter_pos shr_1 p (shr_1 mrs))) by (rewrite IH by done; apply Z.div_pos; lia).
    rewrite IH, IH, shr_1_m by done.
    rewrite !Z.div_div by lia. f_equal.
    replace (Z.pos p~1) with (1 + Z.pos p + Z.pos p) by lia.
    rewrite !Z.pow_add_r by lia. change (2 ^ 1) with 2. lia.
  - assert (H2: 0 <= shr_m (SpecFloat.iter_pos shr_1 p mrs)) by (rewrite IH by done; apply Z.div_pos; lia).
    rewrite IH, IH by done.
    rewrite !Z.div_div by lia. f_equal.
    rewrite Pos2Z.inj_xO, <- Z.pow_add_r by lia. f_equal. lia.
  - rewrite shr_1_m by done. reflexivity.
Qed.


Lemma shr_exact_m m e n :
  0 <= m ->
  shr (shr_record_of_loc m loc_Exact) e n =
    (fst (shr (shr_record_of_loc m loc_Exact) e n), e + Z.max 0 n) /\
  shr_m (fst (shr (shr_record_of_loc m loc_Exact) e n)) = m / 2 ^ Z.max 0 n.
Proof.
  intros Hm. destruct n as [|p|p]; simpl.
  - rewrite Z.add_0_r, Z.div_1_r. done.
  - split; [done|]. by rewrite iter_pos_shr_m.
  - rewrite Z.add_0_r, Z.div_1_r. done.
Qed.

Lemma round_nearest_even_bounds m l :
  m <= round_nearest_even m l <= m + 1.
Proof. destruct l as [|[]]; simpl; try lia. destruct (Z.even m); lia. Qed.

Lemma digits2_pos_bounds p :
  2 ^ (Zpos (digits2_pos p) - 1) <= Zpos p < 2 ^ Zpos (digits2_pos p).
Proof.
  induction p as [p IH|p IH|]; simpl digits2_pos.
  - rewrite Pos2Z.inj_succ, (Pos2Z.inj_xI p).
    replace (Z.succ (Z.pos (digits2_pos p)) - 1) with (1 + (Z.pos (digits2_pos p) - 1)) by lia.
    rewrite Z.pow_succ_r, Z.pow_add_r by lia. change (2 ^ 1) with 2.
    generalize dependent (2 ^ (Z.pos (digits2_pos p) - 1)).
    generalize dependent (2 ^ Z.pos (digits2_pos p)). intros; lia.
  - rewrite Pos2Z.inj_succ, (Pos2Z.inj_xO p).
    replace (Z.succ (Z.pos (digits2_pos p)) - 1) with (1 + (Z.pos (digits2_pos p) - 1)) by lia.
    rewrite Z.pow_succ_r, Z.pow_add_r by lia. change (2 ^ 1) with 2.
    generalize dependent (2 ^ (Z.pos (digits2_pos p) - 1)).
    generalize dependent (2 ^ Z.pos (digits2_pos p)). intros; lia.
  - simpl. lia.
Qed.

Lemma Zdigits2_bounds m :
  0 < m -> 2 ^ (Zdigits2 m - 1) <= m < 2 ^ Zdigits2 m.
Proof. destruct m; try lia. intros _. apply digits2_pos_bounds. Qed.

Lemma Zdigits2_unique m d :
  2 ^ (d - 1) <= m < 2 ^ d -> 0 < m -> Zdigits2 m = d.
Proof.
  intros [Hlo Hhi] Hm. pose proof (Zdigits2_bounds m Hm) as [Hlo' Hhi'].
  assert (Hd: 0 < Zdigits2 m) by (destruct m; simpl; lia).
  assert (0 < d).
  { destruct (Z_lt_le_dec 0 d) as [|Hd0]; [done|].
    destruct (Z_le_lt_eq_dec _ _ Hd0) as [Hneg| ->]; [|simpl in Hhi; lia].
    rewrite Z.pow_neg_r in Hhi by lia. lia. }
  destruct (Z.lt_trichotomy (Zdigits2 m) d) as [Hlt|[Heq|Hgt]]; [|done|].
  - assert (2 ^ Zdigits2 m <= 2 ^ (d - 1)) by (apply Z.pow_le_mono_r; lia). lia.
  - assert (2 ^ d <= 2 ^ (Zdigits2 m - 1)) by (apply Z.pow_le_mono_r; lia). lia.
Qed.

Lemma binary_round_aux_shape s mx ex :
  0 < mx ->
  exists m1,
    let n1 := shift_amount mx ex in
    let e1 := ex + n1 in
    let n2 := shift_amount m1 e1 in
    mx / 2 ^ n1 <= m1 <= mx / 2 ^ n1 + 1 /\
    (n1 = 0 -> m1 = mx) /\
    binary_round_aux 53 1024 s mx ex loc_Exact =
      match m1 / 2 ^ n2 with
      | Z0 => S754_zero s
      | Zpos m => if e1 + n2 <=? 971 then S754_finite s m (e1 + n2) else S754_infinity s
      | Zneg _ => S754_nan
      end.
Proof.
  intros Hmx. unfold binary_round_aux, shr_fexp.
  destruct (shr_exact_m mx ex (fexp 53 1024 (Zdigits2 mx + ex) - ex)) as [E1 M1]; [lia|].
  rewrite E1.
  set (mrs' := fst (shr (shr_record_of_loc mx loc_Exact) ex (fexp 53 1024 (Zdigits2 mx + ex) - ex))) in *.
  set (m1 := round_nearest_even (shr_m mrs') (loc_of_shr_record mrs')).
  exists m1. cbv zeta. fold (shift_amount mx ex).
  pose proof (round_nearest_even_bounds (shr_m mrs') (loc_of_shr_record mrs')) as Hb.
  fold m1 in Hb. rewrite M1 in Hb. fold (shift_amount mx ex) in Hb.
  assert (Hm1: 0 <= m1).
  { assert (0 <= mx / 2 ^ shift_amount mx ex) by (apply Z.div_pos; [lia|apply Z.pow_pos_nonneg; unfold shift_amount; lia]). lia. }
  split; [exact Hb|]. split.
  { intros Hn. subst m1 mrs'. unfold shift_amount in Hn.
    destruct (fexp 53 1024 (Zdigits2 mx + ex) - ex) eqn:Hf; simpl; first [done|lia]. }
  destruct (shr_exact_m m1 (ex + shift_amount mx ex)
              (fexp 53 1024 (Zdigits2 m1 + (ex + shift_amount mx ex)) - (ex + shift_amount mx ex))) as [E2 M2]; [done|].
  fold (shift_amount mx ex) in E1.
  unfold shift_amount at 1 in E2. fold (shift_amount mx ex) in E2.
  rewrite E2, M2. reflexivity.
Qed.

Lemma pos_iter_xO m d : Zpos (Pos.iter xO m d) = Zpos m * 2 ^ Zpos d.
Proof.
  induction d as [|d IH] using Pos.peano_ind.
  - simpl. lia.
  - rewrite Pos.iter_succ, Pos2Z.inj_xO, IH, Pos2Z.inj_succ, Z.pow_succ_r by lia. lia.
Qed.

Lemma shift_amount_normal m e :
  2 ^ 52 <= m < 2 ^ 53 -> -1074 <= e -> shift_amount m e = 0.
Proof.
  intros Hm He. unfold shift_amount, fexp, emin.
  rewrite (Zdigits2_unique m 53) by (simpl; lia). lia.
Qed.

Lemma binary_round_aux_normal s (m : positive) e :
  2 ^ 52 <= Zpos m < 2 ^ 53 -> -1074 <= e <= 971 ->
  binary_round_aux 53 1024 s (Zpos m) e loc_Exact = S754_finite s m e.
Proof.
  intros Hm He.
  destruct (binary_round_aux_shape s (Zpos m) e) as (m1 & Hb); [lia|].
  cbv zeta in Hb. destruct Hb as (Hb & Hm1 & ->).
  assert (S0: shift_amount (Zpos m) e = 0) by (apply shift_amount_normal; lia).
  rewrite S0 in *. rewrite Hm1 by done.
  rewrite !Z.add_0_r, S0, Z.div_1_r, Z.add_0_r.
  destruct (Z.leb_spec e 971); [done|lia].
Qed.

Lemma of_int_small g :
  0 < g < 2 ^ 53 ->
  exists mz ez,
    binary_normalize 53 1024 g 0 false = S754_finite false mz ez /\
    -52 <= ez <= 0 /\ Zpos mz = g * 2 ^ (- ez) /\ 2 ^ 52 <= Zpos mz < 2 ^ 53.
Proof.
  intros Hg. destruct g as [|p|p]; try lia.
  pose proof (digits2_pos_bounds p) as Hd.
  assert (Hd53: 1 <= Zpos (digits2_pos p) <= 53).
  { split; [lia|]. destruct (Z_le_gt_dec (Zpos (digits2_pos p)) 53); [done|].
    assert (2 ^ 53 <= 2 ^ (Zpos (digits2_pos p) - 1)) by (apply Z.pow_le_mono_r; lia). lia. }
  unfold binary_normalize, binary_round, shl_align.
  replace (fexp 53 1024 (Z.pos (digits2_pos p) + 0)) with (Zpos (digits2_pos p) - 53)
    by (unfold fexp, emin; lia).
  destruct (Z.pos (digits2_pos p) - 53 - 0) as [|q|q] eqn:Hq; try lia.
  - exists p, 0. rewrite binary_round_aux_normal.
    + split; [done|]. split; [lia|]. split; [simpl; lia|].
      replace (Zpos (digits2_pos p)) with 53 in Hd by lia. simpl in Hd |- *. lia.
    + replace (Zpos (digits2_pos p)) with 53 in Hd by lia. simpl in Hd |- *. lia.
    + lia.
  - assert (Hs: Zpos (Pos.iter xO p q) = Zpos p * 2 ^ Zpos q) by apply pos_iter_xO.
    assert (Hr: 2 ^ 52 <= Zpos (Pos.iter xO p q) < 2 ^ 53).
    { rewrite Hs. replace (Zpos q) with (53 - Zpos (digits2_pos p)) by lia.
      replace (2 ^ 52) with (2 ^ (Zpos (digits2_pos p) - 1) * 2 ^ (53 - Zpos (digits2_pos p)))
        by (rewrite <- Z.pow_add_r by lia; f_equal; lia).
      replace (2 ^ 53) with (2 ^ Zpos (digits2_pos p) * 2 ^ (53 - Zpos (digits2_pos p)))
        by (rewrite <- Z.pow_add_r by lia; f_equal; lia).
      assert (0 < 2 ^ (53 - Zpos (digits2_pos p))) by (apply Z.pow_pos_nonneg; lia).
      nia. }
    exists (Pos.iter xO p q), (Zpos (digits2_pos p) - 53).
    rewrite binary_round_aux_normal by lia.
    split; [done|]. split; [lia|]. split; [|done].
    rewrite Hs. f_equal. f_equal. lia.
Qed.

Lemma shift_amount_nonneg m e : 0 <= shift_amount m e.
Proof. unfold shift_amount. lia. Qed.

Lemma SFmul_normal_bounds (ma mb : positive) ea eb :
  2 ^ 52 <= Zpos ma < 2 ^ 53 -> 2 ^ 52 <= Zpos mb < 2 ^ 53 ->
  -1000 <= ea + eb <= 800 ->
  exists m n,
    SFmul 53 1024 (S754_finite false ma ea) (S754_finite false mb eb) =
      S754_finite false m (ea + eb + n) /\
    52 <= n <= 54 /\
    Zpos (ma * mb) / 2 ^ n <= Zpos m <= Zpos (ma * mb) / 2 ^ n + 1.
Proof.
  intros Ha Hb He. simpl SFmul.
  set (mx := Zpos (ma * mb)). set (ex := ea + eb).
  assert (Hmx: 2 ^ 104 <= mx < 2 ^ 106).
  { unfold mx. rewrite Pos2Z.inj_mul.
    change (2 ^ 104) with (2 ^ 52 * 2 ^ 52). change (2 ^ 106) with (2 ^ 53 * 2 ^ 53). nia. }
  destruct (binary_round_aux_shape false mx ex) as (m1 & Hs); [lia|]. cbv zeta in Hs.
  destruct Hs as (Hm1 & _ & ->).
  assert (Hn1: shift_amount mx ex = 52 /\ 2 ^ 52 <= mx / 2 ^ 52 < 2 ^ 53 \/
               shift_amount mx ex = 53 /\ 2 ^ 52 <= mx / 2 ^ 53 < 2 ^ 53).
  { destruct (Z_lt_le_dec mx (2 ^ 105)) as [Hlt|Hge].
    - left. split.
      + unfold shift_amount, fexp, emin. rewrite (Zdigits2_unique mx 105) by (simpl; lia). lia.
      + split; [apply Z.div_le_lower_bound|apply Z.div_lt_upper_bound]; simpl in *; lia.
    - right. split.
      + unfold shift_amount, fexp, emin. rewrite (Zdigits2_unique mx 106) by (simpl; lia). lia.
      + split; [apply Z.div_le_lower_bound|apply Z.div_lt_upper_bound]; simpl in *; lia. }
  set (n1 := shift_amount mx ex) in *.
  assert (Hn1': 52 <= n1 <= 53 /\ 2 ^ 52 <= mx / 2 ^ n1 < 2 ^ 53).
  { destruct Hn1 as [[-> ?]|[-> ?]]; split; (done || lia). }
  clear Hn1. destruct Hn1' as [Hn1 Hq].
  destruct (Z_lt_le_dec m1 (2 ^ 53)) as [Hlt|Hge].
  - rewrite shift_amount_normal by lia. rewrite Z.div_1_r, Z.add_0_r.
    destruct m1 as [|m|m]; try lia.
    exists m, n1. destruct (Z.leb_spec (ex + n1) 971); [|lia].
    split; [done|]. split; [lia|exact Hm1].
  - assert (m1 = 2 ^ 53) as -> by lia.
    assert (Hsa: shift_amount (2 ^ 53) (ex + n1) = 1).
    { unfold shift_amount, fexp, emin. rewrite (Zdigits2_unique (2 ^ 53) 54) by (simpl; lia). lia. }
    rewrite Hsa. change (2 ^ 53 / 2 ^ 1) with (Zpos (2 ^ 52)%positive).
    exists (2 ^ 52)%positive, (n1 + 1).
    destruct (Z.leb_spec (ex + n1 + 1) 971); [|lia].
    split; [f_equal; lia|]. split; [lia|].
    rewrite Z.pow_add_r, <- Z.div_div by lia. change (2 ^ 1) with 2.
    set (q := mx / 2 ^ n1) in *.
    assert (q = 2 ^ 53 - 1) as -> by (clearbody q; lia).
    split; apply Z.leb_le; reflexivity.
Qed.

Lemma int_mul_0_2 g :
  0 <= g < 2 ^ 50 -> PyFloat.int_mul g PyFloat.f_0_2 = Ok (g / 5).
Proof.
  intros Hg. destruct (Z_le_lt_eq_dec 0 g) as [Hpos| <-]; [lia| |reflexivity].
  destruct (of_int_small g) as (mz & ez & Hf & Hez & Hmz & Hr); [simpl in *; lia|].
  unfold PyFloat.int_mul, PyFloat.int_mul_float, PyFloat.float_of_int, PyFloat.f_0_2.
  rewrite Hf. cbn [rbind].
  destruct (SFmul_normal_bounds mz 7205759403792794 ez (-55)) as (m & n & -> & Hn & Hm);
    [done|simpl; lia|lia|].
  cbn [PyFloat.int_of_float cond_Zopp]. f_equal.
  set (k := - ez) in *.
  assert (Hk: 3 <= k <= 52).
  { split; [|lia]. destruct (Z_le_gt_dec 3 k); [done|].
    assert (2 ^ k <= 2 ^ 2) by (apply Z.pow_le_mono_r; lia).
    change (2 ^ 2) with 4 in *. change (2 ^ 52) with (4 * 2 ^ 50) in Hr. nia. }
  rewrite Z.shiftl_div_pow2 by lia.
  replace (- (ez + -55 + n)) with (55 + k - n) by lia.
  assert (HK: 8 <= 2 ^ k) by (change 8 with (2 ^ 3); apply Z.pow_le_mono_r; lia).
  assert (HN: 0 < 2 ^ n <= 2 ^ 54) by (split; [apply Z.pow_pos_nonneg|apply Z.pow_le_mono_r]; lia).
  assert (HD: 0 < 2 ^ (55 + k - n)) by (apply Z.pow_pos_nonneg; lia).
  assert (HDN: 2 ^ (55 + k - n) * 2 ^ n = 2 ^ 55 * 2 ^ k).
  { rewrite <- !Z.pow_add_r by lia. f_equal. lia. }
  rewrite Pos2Z.inj_mul, Hmz in Hm.
  set (K := 2 ^ k) in *. set (N := 2 ^ n) in *. set (D := 2 ^ (55 + k - n)) in *.
  set (M := Z.pos 7205759403792794) in *.
  assert (HM: 5 * M = 2 ^ 55 + 2) by reflexivity.
  pose proof (Z.div_mod g 5 ltac:(lia)) as Hdm.
  pose proof (Z.mod_pos_bound g 5 ltac:(lia)) as Hmod.
  set (q := g / 5) in *. set (r := g mod 5) in *.
  assert (Hlo: q * D <= g * K * M / N).
  { apply Z.div_le_lower_bound; [lia|].
    replace (N * (q * D)) with (q * (D * N)) by lia. rewrite HDN.
    clearbody K N D M q r. simpl in *. nia. }
  assert (Hhi: g * K * M / N + 1 < (q + 1) * D).
  { assert (g * K * M / N < (q + 1) * D - 1); [|lia].
    apply Z.div_lt_upper_bound; [lia|].
    replace (N * ((q + 1) * D - 1)) with ((q + 1) * (D * N) - N) by lia. rewrite HDN.
    clearbody K N D M q r. simpl in *. nia. }
  symmetry. apply Z.div_unique with (r := Zpos m - q * D); lia.
Qed.


Lemma ge_one_mono m m' e : ge_one m e -> m <= m' -> ge_one m' e.
Proof.
  intros [Hm Hs] Hle. split; [lia|].
  destruct (Z_le_gt_dec 0 e).
  - rewrite Z.shiftl_mul_pow2 in * by done.
    assert (0 < 2 ^ e) by (apply Z.pow_pos_nonneg; lia). nia.
  - rewrite Z.shiftl_div_pow2 in * by lia.
    etransitivity; [exact Hs|]. apply Z.div_le_mono; [apply Z.pow_pos_nonneg; lia|done].
Qed.

Lemma ge_one_digits m e : ge_one m e -> 1 <= Zdigits2 m + e.
Proof.
  intros [Hm Hs]. pose proof (Zdigits2_bounds m Hm) as [Hlo Hhi].
  assert (0 < Zdigits2 m) by (destruct m; simpl; lia).
  destruct (Z_le_gt_dec 0 e); [lia|].
  rewrite Z.shiftl_div_pow2 in Hs by lia.
  assert (Hp: 0 < 2 ^ (- e)) by (apply Z.pow_pos_nonneg; lia).
  assert (2 ^ (- e) <= m).
  { destruct (Z_le_gt_dec (2 ^ (- e)) m); [done|]. rewrite Z.div_small in Hs by lia. lia. }
  destruct (Z_le_gt_dec 1 (Zdigits2 m + e)); [done|].
  assert (2 ^ Zdigits2 m <= 2 ^ (- e)) by (apply Z.pow_le_mono_r; lia). lia.
Qed.

Lemma ge_one_shift m e :
  ge_one m e -> ge_one (m / 2 ^ shift_amount m e) (e + shift_amount m e).
Proof.
  intros Hge. pose proof (ge_one_digits m e Hge) as Hd. destruct Hge as [Hm Hs].
  pose proof (Zdigits2_bounds m Hm) as [Hlo Hhi].
  unfold shift_amount, fexp, emin in *.
  set (d := Zdigits2 m) in *.
  destruct (Z_le_gt_dec (d - 53) 0) as [Hsmall|Hbig].
  - replace (Z.max 0 (Z.max (d + e - 53) (3 - 1024 - 53) - e)) with 0 by lia.
    rewrite Z.div_1_r, Z.add_0_r. done.
  - replace (Z.max 0 (Z.max (d + e - 53) (3 - 1024 - 53) - e)) with (d - 53) by lia.
    assert (Hq: 2 ^ 52 <= m / 2 ^ (d - 53)).
    { apply Z.div_le_lower_bound; [apply Z.pow_pos_nonneg; lia|].
      rewrite <- Z.pow_add_r by lia. replace (d - 53 + 52) with (d - 1) by lia. done. }
    split; [simpl in Hq; lia|].
    destruct (Z_le_gt_dec 0 (e + (d - 53))).
    + rewrite Z.shiftl_mul_pow2 by done.
      assert (0 < 2 ^ (e + (d - 53))) by (apply Z.pow_pos_nonneg; lia).
      simpl in Hq. nia.
    + rewrite Z.shiftl_div_pow2 by lia.
      apply Z.div_le_lower_bound; [apply Z.pow_pos_nonneg; lia|]. rewrite Z.mul_1_r.
      transitivity (2 ^ 52); [apply Z.pow_le_mono_r; lia|done].
Qed.

Lemma binary_round_aux_ge_one s mx ex :
  ge_one mx ex ->
  (exists m e, binary_round_aux 53 1024 s mx ex loc_Exact = S754_finite s m e /\
               ge_one (Zpos m) e) \/
  binary_round_aux 53 1024 s mx ex loc_Exact = S754_infinity s.
Proof.
  intros Hge. destruct (binary_round_aux_shape s mx ex) as (m1 & Hs); [apply Hge|].
  cbv zeta in Hs. destruct Hs as (Hm1 & _ & ->).
  pose proof (ge_one_shift mx ex Hge) as H1.
  apply (ge_one_mono _ m1) in H1; [|lia].
  pose proof (ge_one_shift _ _ H1) as H2.
  destruct (m1 / 2 ^ shift_amount m1 (ex + shift_amount mx ex)) as [|m2|m2] eqn:E;
    [destruct H2; lia| |destruct H2; lia].
  destruct (_ <=? 971); [left; eauto|right; done].
Qed.

Lemma ge_one_alt m e : ge_one m e <-> 0 < m /\ 2 ^ Z.max 0 (- e) <= m.
Proof.
  unfold ge_one. split; intros [Hm H]; (split; [done|]).
  - destruct (Z_le_gt_dec 0 e).
    + rewrite Z.max_l by lia. simpl. lia.
    + rewrite Z.max_r by lia. rewrite Z.shiftl_div_pow2 in H by lia.
      assert (0 < 2 ^ (- e)) by (apply Z.pow_pos_nonneg; lia).
      destruct (Z_le_gt_dec (2 ^ (- e)) m); [done|]. rewrite Z.div_small in H by lia. lia.
  - destruct (Z_le_gt_dec 0 e).
    + rewrite Z.shiftl_mul_pow2 by done.
      assert (0 < 2 ^ e) by (apply Z.pow_pos_nonneg; lia). nia.
    + rewrite Z.max_r in H by lia. rewrite Z.shiftl_div_pow2 by lia.
      apply Z.div_le_lower_bound; [apply Z.pow_pos_nonneg; lia|lia].
Qed.

Lemma ge_one_mul ma ea mb eb :
  ge_one ma ea -> ge_one mb eb -> ge_one (ma * mb) (ea + eb).
Proof.
  rewrite !ge_one_alt. intros [Ha Ha'] [Hb Hb']. split; [nia|].
  transitivity (2 ^ Z.max 0 (- ea) * 2 ^ Z.max 0 (- eb)).
  - rewrite <- Z.pow_add_r by lia. apply Z.pow_le_mono_r; lia.
  - assert (0 < 2 ^ Z.max 0 (- ea)) by (apply Z.pow_pos_nonneg; lia).
    assert (0 < 2 ^ Z.max 0 (- eb)) by (apply Z.pow_pos_nonneg; lia). nia.
Qed.

Lemma float_of_int_ge_one x :
  1 <= x ->
  PyFloat.float_of_int x = Raise OverflowError \/
  exists m e, PyFloat.float_of_int x = Ok (S754_finite false m e) /\ ge_one (Zpos m) e.
Proof.
  intros Hx. destruct x as [|p|p]; try lia.
  unfold PyFloat.float_of_int, binary_normalize, binary_round.
  destruct (shl_align p 0 (fexp 53 1024 (Z.pos (digits2_pos p) + 0))) as [mz ez] eqn:Hal.
  assert (Hge: ge_one (Zpos mz) ez).
  { unfold shl_align in Hal.
    destruct (fexp 53 1024 (Z.pos (digits2_pos p) + 0) - 0) as [|d|d] eqn:Hd;
      injection Hal as <- <-; try (unfold ge_one; rewrite Z.shiftl_0_r; lia).
    rewrite (pos_iter_xO p d : Zpos (PosDef.Pos.iter xO p d) = _). apply ge_one_alt.
    assert (0 < 2 ^ Zpos d) by (apply Z.pow_pos_nonneg; lia).
    split; [nia|].
    replace (fexp 53 1024 (Z.pos (digits2_pos p) + 0)) with (Zneg d) by lia.
    rewrite Z.max_r by lia. change (- Zneg d) with (Zpos d). nia. }
  destruct (binary_round_aux_ge_one false _ _ Hge) as [(m & e & -> & Hme)| ->]; eauto.
Qed.

Lemma int_mul_ge_one x mc ec y :
  1 <= x -> ge_one (Zpos mc) ec ->
  PyFloat.int_mul x (S754_finite false mc ec) = Ok y -> 1 <= y.
Proof.
  intros Hx Hc. unfold PyFloat.int_mul, PyFloat.int_mul_float.
  destruct (float_of_int_ge_one x Hx) as [-> | (m & e & -> & Hme)]; [discriminate|].
  cbn [rbind SFmul xorb].
  pose proof (ge_one_mul _ _ _ _ Hme Hc) as Hp. rewrite <- Pos2Z.inj_mul in Hp.
  destruct (binary_round_aux_ge_one false _ _ Hp) as [(m' & e' & -> & [_ Hy])| ->];
    cbn [PyFloat.int_of_float cond_Zopp]; [|discriminate].
  intros [= <-]. done.
Qed.

Lemma Z_div_eucl_div_mod a b : Z.div_eucl a b = (a / b, a mod b).
Proof. unfold Z.div, Z.modulo. by destruct (Z.div_eucl a b). Qed.

Lemma binary_round_aux_double s (m : positive) e :
  2 ^ 52 <= Zpos m < 2 ^ 53 -> -1074 <= e + 1 <= 971 ->
  binary_round_aux 53 1024 s (Zpos m~0) e loc_Exact = S754_finite s m (e + 1).
Proof.
  intros Hm He. unfold binary_round_aux, shr_fexp.
  rewrite (Zdigits2_unique (Zpos m~0) 54) by (rewrite Pos2Z.inj_xO; simpl in *; lia).
  replace (fexp 53 1024 (54 + e) - e) with 1 by (unfold fexp, emin; lia).
  cbn [shr shr_record_of_loc SpecFloat.iter_pos shr_1 shr_m loc_of_shr_record round_nearest_even orb].
  rewrite (Zdigits2_unique (Zpos m) 53) by (simpl in *; lia).
  replace (fexp 53 1024 (53 + (e + 1)) - (e + 1)) with 0 by (unfold fexp, emin; lia).
  cbn [shr shr_record_of_loc shr_m].
  destruct (Z.leb_spec (e + 1) (1024 - 53)); [done|lia].
Qed.

Lemma int_div_2 h :
  0 <= h < 2 ^ 53 -> PyFloat.int_div h 2 = Ok (h / 2).
Proof.
  intros Hh. destruct h as [|p|p]; [reflexivity| |lia].
  pose proof (digits2_pos_bounds p) as Hd.
  set (d := Zpos (digits2_pos p)) in *.
  assert (Hd53: 1 <= d <= 53).
  { split; [lia|]. destruct (Z_le_gt_dec d 53); [done|].
    assert (2 ^ 53 <= 2 ^ (d - 1)) by (apply Z.pow_le_mono_r; lia). lia. }
  assert (Hpow: 2 ^ d = 2 ^ (d - 1) * 2).
  { replace d with (d - 1 + 1) at 1 by lia. rewrite Z.pow_add_r by lia. done. }
  assert (Hk: 0 < 2 ^ (53 - d)) by (apply Z.pow_pos_nonneg; lia).
  assert (H52: 2 ^ 52 = 2 ^ (d - 1) * 2 ^ (53 - d)).
  { rewrite <- Z.pow_add_r by lia. f_equal. lia. }
  assert (H53: 2 ^ 53 = 2 ^ d * 2 ^ (53 - d)).
  { rewrite <- Z.pow_add_r by lia. f_equal. lia. }
  unfold PyFloat.int_div, PyFloat.int_truediv.
  cbn [Z.eqb PyFloat.exact SFdiv xorb]. unfold SFdiv_core_binary.
  change (Zdigits2 (Zpos p)) with d. change (Zdigits2 2) with 2.
  replace (Z.min (fexp 53 1024 (d + 0 - (2 + 0))) (0 - 0)) with (d - 55)
    by (unfold fexp, emin; lia).
  replace (0 - 0 - (d - 55)) with (55 - d) by lia.
  destruct (55 - d) as [|s|s] eqn:Hs; try lia.
  rewrite <- Hs, Z_div_eucl_div_mod, Z.shiftl_mul_pow2 by lia.
  replace (55 - d) with (53 - d + 1 + 1) by lia.
  rewrite !Z.pow_add_r by lia. change (2 ^ 1) with 2.
  rewrite !Z.mul_assoc, Z.div_mul, Z.mod_mul by lia.
  change (new_location 2 0) with loc_Exact.
  destruct (Zpos p * 2 ^ (53 - d)) as [|m|m] eqn:Hm; try nia.
  replace (Zpos m * 2) with (Zpos m~0) by lia.
  assert (Hr: 2 ^ 52 <= Zpos m < 2 ^ 53).
  { rewrite <- Hm, H52, H53. destruct Hd as [Hlo Hhi]. split.
    - apply Z.mul_le_mono_nonneg_r; lia.
    - apply Z.mul_lt_mono_pos_r; lia. }
  rewrite binary_round_aux_double by lia.
  cbn [rbind PyFloat.int_of_float cond_Zopp]. f_equal.
  rewrite Z.shiftl_div_pow2, <- Hm by lia.
  replace (- (d - 55 + 1)) with (53 - d + 1) by lia.
  rewrite Z.pow_add_r by lia. change (2 ^ 1) with 2.
  rewrite (Z.mul_comm (2 ^ (53 - d)) 2), Z.div_mul_cancel_r; [done|lia|lia].
Qed.

(** A product of an integer below [2^53] and a normal float literal does
    not overflow. *)
Lemma int_mul_normal_ok x (mc : positive) ec :
  0 < x < 2 ^ 53 -> 2 ^ 52 <= Zpos mc < 2 ^ 53 -> -900 <= ec <= 700 ->
  exists y, PyFloat.int_mul x (S754_finite false mc ec) = Ok y.
Proof.
  intros Hx Hc He.
  destruct (of_int_small x Hx) as (mz & ez & Hf & Hez & _ & Hr).
  unfold PyFloat.int_mul, PyFloat.int_mul_float, PyFloat.float_of_int.
  rewrite Hf. cbn [rbind].
  destruct (SFmul_normal_bounds mz mc ez ec) as (m & n & -> & _); [done|done|lia|].
  cbn [PyFloat.int_of_float]. eauto.
Qed.

(** The thresholds of the level curve: [int(x * 1.4)] returns, and stays
    at least 1, for every threshold from 1 up to [2^53]. *)
Lemma int_mul_1_4_ok x :
  1 <= x < 2 ^ 53 -> exists y, PyFloat.int_mul x PyFloat.f_1_4 = Ok y /\ 1 <= y.
Proof.
  intros Hx.
  destruct (int_mul_normal_ok x 6305039478318694 (-52)) as [y Hy]; [lia|simpl; lia|lia|].
  exists y. split; [exact Hy|].
  apply (int_mul_ge_one x 6305039478318694 (-52)); [lia| |exact Hy].
  split; [lia|]. apply Z.leb_le. reflexivity.
Qed.

(** Whatever the threshold, a scaled threshold is at least 1 when the
    scaling returns. *)
Lemma int_mul_1_4_ge_one x y :
  1 <= x -> PyFloat.int_mul x PyFloat.f_1_4 = Ok y -> 1 <= y.
Proof.
  intros Hx. apply int_mul_ge_one; [done|]. split; [lia|]. apply Z.leb_le. reflexivity.
Qed.

(** A critical hit on a damage of at least 1 deals at least 1. *)
Lemma int_mul_1_8_ge_one x y :
  1 <= x -> PyFloat.int_mul x PyFloat.f_1_8 = Ok y -> 1 <= y.
Proof.
  intros Hx. apply int_mul_ge_one; [done|]. split; [lia|]. apply Z.leb_le. reflexivity.
Qed.

(** The level curve of a new player: 30, 42, 58, 81, ...; and a threshold
    where rounding shows: [45 * 1.4] is the float just below 63. *)
Example level_curve :
  PyFloat.int_mul 30 PyFloat.f_1_4 = Ok 42 /\
  PyFloat.int_mul 42 PyFloat.f_1_4 = Ok 58 /\
  PyFloat.int_mul 58 PyFloat.f_1_4 = Ok 81 /\
  PyFloat.int_mul 45 PyFloat.f_1_4 = Ok 62.
Proof. repeat split; reflexivity. Qed.

(** ** The runtime *)

Lemma randint_draw a b rt : randint a b rt = (Ok (draw_int a b rt), skip rt).
Proof. reflexivity. Qed.

Lemma random_float_draw rt : random_float rt = (Ok (draw_float rt), skip rt).
Proof. reflexivity. Qed.

Lemma draw_int_range a b rt : a <= b -> a <= draw_int a b rt <= b.
Proof.
  intros Hab. unfold draw_int, random.randint. simpl.
  pose proof (Z.mod_pos_bound (Z.of_N (rng rt 0%nat)) (b - a + 1)). lia.
Qed.

(** Every value of the range is drawn by some source. *)
Lemma draw_int_onto a b k :
  a <= k <= b -> exists g, forall o, draw_int a b (Runtime g o) = k.
Proof.
  intros Hk. exists (fun _ => Z.to_N (k - a)). intros o.
  unfold draw_int, random.randint. simpl.
  rewrite Z2N.id by lia. rewrite Z.mod_small by lia. lia.
Qed.

(** ** The combat resolvers *)

Lemma c_set_hp_hp v c : Entity.hp (c_entity (c_set_hp v c)) = v.
Proof. by destruct c. Qed.

Lemma c_set_hp_max_hp v c :
  Entity.max_hp (c_entity (c_set_hp v c)) = Entity.max_hp (c_entity c).
Proof. by destruct c. Qed.

(** [_do_attack] when the roll is at most the defender's dodge. *)
Lemma do_attack_dodged attacker defender f rt :
  draw_int 1 20 rt <= Entity.dodge (c_entity defender) ->
  Game._do_attack attacker defender f rt =
    (Ok (defender, [Dodged (Entity.name (c_entity defender))]), skip rt).
Proof.
  intros H. unfold Game._do_attack.
  destruct (Game.stat_values attacker defender f) as [a d].
  unfold bind. rewrite randint_draw.
  by rewrite (proj2 (Z.leb_le _ _) H).
Qed.

(** [_do_attack] when the roll is above the defender's dodge: the second
    draw is the offset, the third decides the critical hit. *)
Lemma do_attack_hit attacker defender f rt :
  Entity.dodge (c_entity defender) < draw_int 1 20 rt ->
  Game._do_attack attacker defender f rt =
    let sv := Game.stat_values attacker defender f in
    let base_dmg := Z.max 1 (fst sv - snd sv + draw_int (-1) 2 (skip rt)) in
    let hits dmg :=
      Hits (Entity.name (c_entity attacker)) (Entity.name (c_entity defender)) dmg in
    let rt' := skip (skip (skip rt)) in
    if PyFloat.lt (draw_float (skip (skip rt))) PyFloat.f_0_12 then
      match PyFloat.int_mul base_dmg PyFloat.f_1_8 with
      | Ok dmg =>
          (Ok (c_set_hp (Entity.hp (c_entity defender) - dmg) defender,
               [CriticalHit; hits dmg]), rt')
      | Raise e => (Raise e, rt')
      end
    else
      (Ok (c_set_hp (Entity.hp (c_entity defender) - base_dmg) defender, [hits base_dmg]),
       rt').
Proof.
  intros H. unfold Game._do_attack.
  destruct (Game.stat_values attacker defender f) as [a d]. cbn [fst snd].
  unfold bind. rewrite randint_draw.
  rewrite (proj2 (Z.leb_gt _ _) H).
  rewrite randint_draw, random_float_draw.
  destruct (PyFloat.lt _ _); [|reflexivity].
  unfold lift. by destruct (PyFloat.int_mul _ _).
Qed.

(** [attack] of mystic_dungeon.py when roll plus dodge exceeds 20. *)
Lemma mystic_attack_dodged attacker defender rt :
  20 < draw_int 1 20 rt + Entity.dodge defender ->
  Mystic.attack attacker defender rt =
    (Ok (Mystic.AttackResult false 0 false, defender), skip rt).
Proof.
  intros H. unfold Mystic.attack, bind. rewrite randint_draw.
  by rewrite (proj2 (Z.ltb_lt _ _) H).
Qed.

(** [attack] of mystic_dungeon.py otherwise: the second draw decides the
    critical hit, the third is the offset. *)
Lemma mystic_attack_hit attacker defender rt :
  draw_int 1 20 rt + Entity.dodge defender <= 20 ->
  Mystic.attack attacker defender rt =
    let base := Z.max 0 (Entity.atk attacker - Entity.defense defender) in
    let offset := draw_int (-1) 2 (skip (skip rt)) in
    let landed dmg crit :=
      (Ok (Mystic.AttackResult true dmg crit,
           Entity.set_hp (Entity.hp defender - dmg) defender), skip (skip (skip rt))) in
    if PyFloat.lt (draw_float (skip rt)) PyFloat.f_0_12 then
      match PyFloat.int_mul base PyFloat.f_1_8 with
      | Ok scaled => landed (Z.max 1 (scaled + 2 + offset)) true
      | Raise e => (Raise e, skip (skip rt))
      end
    else landed (Z.max 1 (base + offset)) false.
Proof.
  intros H. unfold Mystic.attack, bind. rewrite randint_draw.
  rewrite (proj2 (Z.ltb_ge _ _) H).
  rewrite random_float_draw.
  destruct (PyFloat.lt _ _).
  - unfold lift. destruct (PyFloat.int_mul _ _); [|reflexivity].
    unfold ret. by rewrite randint_draw.
  - unfold ret. by rewrite randint_draw.
Qed.

(** What [_do_attack] does to the defender, whatever the draws: nothing
    and a [Dodged] message, or a hit of at least 1 whose damage is
    subtracted as it is. *)
Lemma do_attack_outcome attacker defender f rt d' out rt' :
  Game._do_attack attacker defender f rt = (Ok (d', out), rt') ->
  (d' = defender /\ out = [Dodged (Entity.name (c_entity defender))]) \/
  exists dmg,
    1 <= dmg /\
    d' = c_set_hp (Entity.hp (c_entity defender) - dmg) defender /\
    last out = Some (Hits (Entity.name (c_entity attacker))
                          (Entity.name (c_entity defender)) dmg).
Proof.
  destruct (Z_le_gt_dec (draw_int 1 20 rt) (Entity.dodge (c_entity defender))) as [Hd|Hd].
  - rewrite do_attack_dodged by done. intros [= <- <- _]. by left.
  - rewrite do_attack_hit by lia. cbv zeta.
    destruct (PyFloat.lt _ _).
    + destruct (PyFloat.int_mul _ _) as [dmg|] eqn:Hm; [|discriminate].
      intros [= <- <- _]. right. exists dmg. split; [|done].
      eapply int_mul_1_8_ge_one; [|exact Hm]. lia.
    + intros [= <- <- _]. right. eexists. split; [|done]. lia.
Qed.

Lemma mystic_attack_outcome attacker defender rt res d' rt' :
  Mystic.attack attacker defender rt = (Ok (res, d'), rt') ->
  (d' = defender /\ res = Mystic.AttackResult false 0 false) \/
  (1 <= Mystic.damage res /\ Mystic.hit res = true /\
   d' = Entity.set_hp (Entity.hp defender - Mystic.damage res) defender).
Proof.
  destruct (Z_le_gt_dec (draw_int 1 20 rt + Entity.dodge defender) 20) as [Hd|Hd].
  - rewrite mystic_attack_hit by done. cbv zeta.
    destruct (PyFloat.lt _ _).
    + destruct (PyFloat.int_mul _ _) as [scaled|]; [|discriminate].
      intros [= <- <- _]. right. cbn. split; [lia|done].
    + intros [= <- <- _]. right. cbn. split; [lia|done].
  - rewrite mystic_attack_dodged by lia. intros [= <- <- _]. by left.
Qed.

(** ** Progression: [gain_xp] *)

(** A level-up does not read [xp]. *)
Lemma level_up_set_xp v p :
  Player._level_up (Player.set_xp v p) =
    match Player._level_up p with
    | Ok p' => Ok (Player.set_xp v p')
    | Raise e => Raise e
    end.
Proof.
  unfold Player._level_up. cbn.
  by destruct (PyFloat.int_mul (Player.xp_to_next p) PyFloat.f_1_4).
Qed.

Lemma level_up_fields p p' :
  Player._level_up p = Ok p' ->
  PyFloat.int_mul (Player.xp_to_next p) PyFloat.f_1_4 = Ok (Player.xp_to_next p') /\
  Player.xp p' = Player.xp p /\
  Player.level p' = Player.level p + 1 /\
  Player.max_hp p' = Player.max_hp p + 8 /\
  Player.hp p' = Player.max_hp p + 8 /\
  Player.atk p' = Player.atk p + 2 /\
  Player.defense p' = Player.defense p + 1.
Proof.
  unfold Player._level_up.
  destruct (PyFloat.int_mul (Player.xp_to_next p) PyFloat.f_1_4) as [n|]; [|discriminate].
  cbn. intros [= <-]. cbn. done.
Qed.

Lemma gain_xp_loop_mono fuel fuel' p r :
  Player.gain_xp_loop fuel p = Some r -> (fuel <= fuel')%nat ->
  Player.gain_xp_loop fuel' p = Some r.
Proof.
  revert fuel' p. induction fuel as [|fuel IH]; intros fuel' p H Hle.
  - cbn in H. destruct fuel'; cbn; destruct (Player.xp_to_next p <=? Player.xp p); done.
  - destruct fuel' as [|fuel']; [lia|]. cbn in H |- *.
    destruct (Player.xp_to_next p <=? Player.xp p); [|done].
    destruct (Player._level_up _); [|done]. apply IH; [done|lia].
Qed.

(** The loop keeps a threshold of at least 1. *)
Lemma gain_xp_loop_threshold fuel p p' :
  1 <= Player.xp_to_next p ->
  Player.gain_xp_loop fuel p = Some (Ok p') -> 1 <= Player.xp_to_next p'.
Proof.
  revert p. induction fuel as [|fuel IH]; intros p Ht; cbn;
    destruct (Player.xp_to_next p <=? Player.xp p); try discriminate;
    try (by intros [= <-]).
  destruct (Player._level_up _) as [q|] eqn:Hq; [|discriminate].
  apply IH. apply level_up_fields in Hq as (Hn & _).
  eapply int_mul_1_4_ge_one; [|exact Hn]. done.
Qed.

(** The loop ends: every round takes at least 1 from [xp].  It returns
    when [xp] is below [2^53] and raises [OverflowError] at most beyond. *)
Lemma gain_xp_loop_terminates fuel p :
  1 <= Player.xp_to_next p -> Player.xp p <= Z.of_nat fuel ->
  exists r, Player.gain_xp_loop fuel p = Some r /\
            (Player.xp p < 2 ^ 53 -> exists p', r = Ok p').
Proof.
  revert p. induction fuel as [|fuel IH]; intros p Ht Hx; cbn.
  - destruct (Z.leb_spec (Player.xp_to_next p) (Player.xp p)); [lia|]. eauto.
  - destruct (Z.leb_spec (Player.xp_to_next p) (Player.xp p)) as [Hle|Hgt]; [|eauto].
    rewrite level_up_set_xp.
    destruct (Player._level_up p) as [q|e] eqn:Hq.
    + apply level_up_fields in Hq as (Hn & Hxq & _).
      destruct (IH (Player.set_xp (Player.xp p - Player.xp_to_next p) q)) as (r & Hr & Hok).
      * cbn. eapply int_mul_1_4_ge_one; [|exact Hn]. done.
      * cbn. lia.
      * exists r. split; [done|]. intros Hb. apply Hok. cbn. lia.
    + exists (Raise e). split; [done|]. intros Hb. exfalso.
      destruct (int_mul_1_4_ok (Player.xp_to_next p)) as (y & Hy & _); [lia|].
      unfold Player._level_up in Hq. by rewrite Hy in Hq.
Qed.

Lemma gain_xp_loop_S fuel p :
  Player.gain_xp_loop (S fuel) p =
    if Player.xp_to_next p <=? Player.xp p then
      match Player._level_up (Player.set_xp (Player.xp p - Player.xp_to_next p) p) with
      | Ok p' => Player.gain_xp_loop fuel p'
      | Raise e => Some (Raise e)
      end
    else Some (Ok p).
Proof. reflexivity. Qed.

Lemma set_xp_set_xp v w p : Player.set_xp v (Player.set_xp w p) = Player.set_xp v p.
Proof. reflexivity. Qed.

Lemma xp_set_xp v p : Player.xp (Player.set_xp v p) = v.
Proof. reflexivity. Qed.

Lemma xp_to_next_set_xp v p :
  Player.xp_to_next (Player.set_xp v p) = Player.xp_to_next p.
Proof. reflexivity. Qed.

(** Adding [b >= 0] to [xp] before the loop is running the loop, adding
    [b], and running the loop again. *)
Lemma gain_xp_loop_add b fuel p :
  0 <= b ->
  match Player.gain_xp_loop fuel p with
  | Some (Ok p1) =>
      forall fuel2 r,
        Player.gain_xp_loop fuel2 (Player.set_xp (Player.xp p1 + b) p1) = Some r ->
        Player.gain_xp_loop (fuel + fuel2) (Player.set_xp (Player.xp p + b) p) = Some r
  | Some (Raise e) =>
      Player.gain_xp_loop fuel (Player.set_xp (Player.xp p + b) p) = Some (Raise e)
  | None => True
  end.
Proof.
  intros Hb. revert p. induction fuel as [|fuel IH]; intros p.
  - cbn. destruct (Z.leb_spec (Player.xp_to_next p) (Player.xp p)); [done|].
    intros fuel2 r Hr. exact Hr.
  - rewrite gain_xp_loop_S.
    destruct (Z.leb_spec (Player.xp_to_next p) (Player.xp p)) as [Hle|Hgt].
    + assert (Hstep: forall n,
        Player.gain_xp_loop (S n) (Player.set_xp (Player.xp p + b) p) =
          match Player._level_up p with
          | Ok q =>
              Player.gain_xp_loop n
                (Player.set_xp (Player.xp p - Player.xp_to_next p + b) q)
          | Raise e => Some (Raise e)
          end).
      { intros n. rewrite gain_xp_loop_S, xp_set_xp, xp_to_next_set_xp, set_xp_set_xp.
        destruct (Z.leb_spec (Player.xp_to_next p) (Player.xp p + b)); [|lia].
        rewrite level_up_set_xp.
        replace (Player.xp p + b - Player.xp_to_next p)
          with (Player.xp p - Player.xp_to_next p + b) by lia.
        by destruct (Player._level_up p). }
      rewrite level_up_set_xp.
      destruct (Player._level_up p) as [q|e] eqn:Hq.
      * specialize (IH (Player.set_xp (Player.xp p - Player.xp_to_next p) q)).
        rewrite xp_set_xp, set_xp_set_xp in IH.
        destruct (Player.gain_xp_loop fuel _) as [[p1|e]|] eqn:Hloop; [| |done].
        -- intros fuel2 r Hr. change (S fuel + fuel2)%nat with (S (fuel + fuel2)).
           rewrite Hstep. by apply IH.
        -- by rewrite Hstep.
      * by rewrite Hstep.
    + intros fuel2 r Hr. eapply gain_xp_loop_mono; [exact Hr|lia].
Qed.

(** The loop keeps the hit points within [[0, max_hp]]: it leaves them
    alone or sets them to the new maximum. *)
Lemma gain_xp_loop_hp_in_range fuel p p' :
  hp_in_range (Player.base p) ->
  Player.gain_xp_loop fuel p = Some (Ok p') -> hp_in_range (Player.base p').
Proof.
  revert p. induction fuel as [|fuel IH]; intros p Hr.
  - cbn. destruct (Player.xp_to_next p <=? Player.xp p); [done|]. by intros [= <-].
  - rewrite gain_xp_loop_S.
    destruct (Player.xp_to_next p <=? Player.xp p); [|by intros [= <-]].
    rewrite level_up_set_xp.
    destruct (Player._level_up p) as [q|] eqn:Hq; [|discriminate].
    apply IH. apply level_up_fields in Hq as (_ & _ & _ & Hm & Hh & _).
    unfold hp_in_range, Player.max_hp, Player.hp in *. cbn. lia.
Qed.

(** * The claims *)

(** ** C1: hit points after an attack and after [gain_xp] *)

(** C1, as stated, fails: neither resolver clamps.  A wolf left with 4 hit
    points that the starting player hits for 5 is stored with -1 by
    [_do_attack] (roll 20, offset 0, no critical hit), and [attack] of
    mystic_dungeon.py stores the same (roll 1, no critical hit, offset 0). *)
Lemma C1_hp_below_zero :
  hp_in_range (Enemy.base wounded_wolf) /\
  fst (Game._do_attack (Hero hero) (Foe wounded_wolf) true
         (rt_of [19%N; 1%N; 4503599627370496%N])) =
    Ok (Foe (Enemy.set_base (Entity.set_hp (-1) (Enemy.base wounded_wolf)) wounded_wolf),
        [Hits "Hero" "Wolf" 5]) /\
  fst (Mystic.attack (Mystic.player_entity hero) (Enemy.base wounded_wolf)
         (rt_of [0%N; 4503599627370496%N; 1%N])) =
    Ok (Mystic.AttackResult true 5 false, Entity.set_hp (-1) (Enemy.base wounded_wolf)) /\
  ~ hp_in_range (Entity.set_hp (-1) (Enemy.base wounded_wolf)).
Proof.
  split; [by vm_compute|].
  split; [vm_compute; reflexivity|]. split; [vm_compute; reflexivity|].
  intros [H _]. by vm_compute in H.
Qed.

(** C1, amended: an attack leaves [max_hp] alone and stores the old hit
    points minus the damage dealt, unclamped: they never rise, so they stay
    at most [max_hp], and they fall below 0 when the damage exceeds them;
    [gain_xp] keeps hit points within [[0, max_hp]]. *)
Theorem C1_hp_after_attack_and_gain_xp :
  (forall attacker defender f rt d' out rt',
      Game._do_attack attacker defender f rt = (Ok (d', out), rt') ->
      Entity.max_hp (c_entity d') = Entity.max_hp (c_entity defender) /\
      Entity.hp (c_entity d') <= Entity.hp (c_entity defender) /\
      (d' = defender \/
       exists dmg, 1 <= dmg /\
         Entity.hp (c_entity d') = Entity.hp (c_entity defender) - dmg /\
         last out = Some (Hits (Entity.name (c_entity attacker))
                               (Entity.name (c_entity defender)) dmg))) /\
  (forall attacker defender rt res d' rt',
      Mystic.attack attacker defender rt = (Ok (res, d'), rt') ->
      Entity.max_hp d' = Entity.max_hp defender /\
      Entity.hp d' = Entity.hp defender - Mystic.damage res /\
      0 <= Mystic.damage res) /\
  (forall fuel amount p p',
      hp_in_range (Player.base p) ->
      Player.gain_xp fuel amount p = Some (Ok p') ->
      hp_in_range (Player.base p')).
Proof.
  split; [|split].
  - intros attacker defender f rt d' out rt' H.
    apply do_attack_outcome in H as [[-> _]|(dmg & Hd & -> & Hout)].
    + split; [done|]. split; [lia|]. by left.
    + rewrite c_set_hp_hp, c_set_hp_max_hp. split; [done|]. split; [lia|].
      right. by exists dmg.
  - intros attacker defender rt res d' rt' H.
    apply mystic_attack_outcome in H as [[-> ->]|(Hd & _ & ->)]; cbn; lia.
  - intros fuel amount p p' Hr H. unfold Player.gain_xp in H.
    eapply gain_xp_loop_hp_in_range; [|exact H]. exact Hr.
Qed.

(** C1, witness: the starting player at full health gains 90 XP. *)
Lemma C1_hp_after_gain_xp_witness :
  exists p', Player.gain_xp 5 90 hero = Some (Ok p') /\ hp_in_range (Player.base p').
Proof.
  eexists. split; [vm_compute; reflexivity|].
  eapply (proj2 (proj2 C1_hp_after_attack_and_gain_xp) 5%nat 90 hero).
  - unfold hp_in_range. cbn. lia.
  - vm_compute. reflexivity.
Defined.

(** ** C2: the damage of a hit that is neither dodged nor critical *)

(** C2, as stated, fails on [attack] of mystic_dungeon.py, which clamps
    attack minus defense at 0 before it adds the offset: a marsh slime
    (attack 4) that hits the player in chain mail (defense 5) with offset 2
    deals 2, and [max(1, 4 - 5 + 2)] is 1. *)
Lemma C2_mystic_damage_differs :
  let rt := rt_of [0%N; 4503599627370496%N; 3%N] in
  let attacker := Enemy.base slime in
  let defender := Mystic.player_entity armored_hero in
  draw_int 1 20 rt + Entity.dodge defender <= 20 /\
  PyFloat.lt (draw_float (skip rt)) PyFloat.f_0_12 = false /\
  draw_int (-1) 2 (skip (skip rt)) = 2 /\
  fst (Mystic.attack attacker defender rt) =
    Ok (Mystic.AttackResult true 2 false, Entity.set_hp (40 - 2) defender) /\
  Z.max 1 (Entity.atk attacker - Player.defense_value armored_hero + 2) = 1.
Proof. cbv zeta. repeat apply conj; vm_compute; done. Qed.

(** C2, amended.  With the dodge check and the critical check failing and
    the offset [r] drawn:
    - [_do_attack], called as [cmd_attack] calls it (the player on an enemy
      with [use_player_stats], an enemy on the player without), deals
      [max(1, attack - defense + r)] with the player's effective stat;
    - [attack] of mystic_dungeon.py deals [max(1, max(0, attack - defense) + r)],
      on the entity [cmd_attack] builds from the player's effective stats;
      the two formulas agree unless attack is below defense and [r] is 2;
    - both take exactly the damage from the defender's hit points. *)
Theorem C2_damage_of_a_plain_hit :
  (forall p e rt,
      Entity.dodge (Enemy.base e) < draw_int 1 20 rt ->
      PyFloat.lt (draw_float (skip (skip rt))) PyFloat.f_0_12 = false ->
      let dmg := Z.max 1 (Player.attack_power p - Entity.defense (Enemy.base e)
                          + draw_int (-1) 2 (skip rt)) in
      Game._do_attack (Hero p) (Foe e) true rt =
        (Ok (Foe (Enemy.set_base
                    (Entity.set_hp (Entity.hp (Enemy.base e) - dmg) (Enemy.base e)) e),
             [Hits (Player.name p) (Entity.name (Enemy.base e)) dmg]),
         skip (skip (skip rt)))) /\
  (forall e p rt,
      Player.dodge p < draw_int 1 20 rt ->
      PyFloat.lt (draw_float (skip (skip rt))) PyFloat.f_0_12 = false ->
      let dmg := Z.max 1 (Entity.atk (Enemy.base e) - Player.defense_value p
                          + draw_int (-1) 2 (skip rt)) in
      Game._do_attack (Foe e) (Hero p) false rt =
        (Ok (Hero (Player.set_hp (Player.hp p - dmg) p),
             [Hits (Entity.name (Enemy.base e)) (Player.name p) dmg]),
         skip (skip (skip rt)))) /\
  (forall attacker defender rt,
      draw_int 1 20 rt + Entity.dodge defender <= 20 ->
      PyFloat.lt (draw_float (skip rt)) PyFloat.f_0_12 = false ->
      let dmg := Z.max 1 (Z.max 0 (Entity.atk attacker - Entity.defense defender)
                          + draw_int (-1) 2 (skip (skip rt))) in
      Mystic.attack attacker defender rt =
        (Ok (Mystic.AttackResult true dmg false,
             Entity.set_hp (Entity.hp defender - dmg) defender),
         skip (skip (skip rt)))) /\
  (forall p,
      Entity.atk (Mystic.player_entity p) = Player.attack_power p /\
      Entity.defense (Mystic.player_entity p) = Player.defense_value p) /\
  (forall a d r,
      d <= a \/ r <= 1 -> Z.max 1 (Z.max 0 (a - d) + r) = Z.max 1 (a - d + r)).
Proof.
  split; [|split; [|split; [|split]]].
  - intros p e rt Hd Hc dmg. rewrite do_attack_hit by exact Hd. cbv zeta.
    by rewrite Hc.
  - intros e p rt Hd Hc dmg. rewrite do_attack_hit by exact Hd. cbv zeta.
    by rewrite Hc.
  - intros attacker defender rt Hd Hc dmg. rewrite mystic_attack_hit by exact Hd.
    cbv zeta. by rewrite Hc.
  - done.
  - intros a d r H. lia.
Qed.

(** C2, witness: the starting player (attack 6) hits a wolf (defense 1,
    14 hit points) with roll 20, offset 0 and no critical hit, for 5. *)
Lemma C2_damage_witness :
  exists d' rt',
    Game._do_attack (Hero hero) (Foe wolf) true (rt_of [19%N; 1%N; 4503599627370496%N]) =
      (Ok (d', [Hits "Hero" "Wolf" 5]), rt') /\
    Entity.hp (c_entity d') = 14 - 5.
Proof.
  eexists _, _. split.
  - apply (proj1 C2_damage_of_a_plain_hit hero wolf
             (rt_of [19%N; 1%N; 4503599627370496%N])).
    + vm_compute. reflexivity.
    + vm_compute. reflexivity.
  - vm_compute. reflexivity.
Defined.

(** ** C3: the dodge check *)

(** C3, as stated, fails on [attack] of mystic_dungeon.py, which dodges
    when roll plus dodge exceeds 20: with roll 5 against the player's dodge
    of 8 the roll is at most the dodge stat, and the wolf's attack lands
    (for 3, offset 0, no critical hit), while [_do_attack] dodges it. *)
Lemma C3_mystic_roll_below_dodge_hits :
  let rt := rt_of [4%N; 4503599627370496%N; 1%N] in
  draw_int 1 20 rt = 5 /\
  Entity.dodge (Mystic.player_entity hero) = 8 /\
  fst (Mystic.attack (Enemy.base wolf) (Mystic.player_entity hero) rt) =
    Ok (Mystic.AttackResult true 3 false,
        Entity.set_hp (40 - 3) (Mystic.player_entity hero)) /\
  fst (Game._do_attack (Foe wolf) (Hero hero) false rt) = Ok (Hero hero, [Dodged "Hero"]).
Proof. cbv zeta. repeat apply conj; vm_compute; done. Qed.

(** C3, amended.  Both resolvers draw one integer of [[1, 20]] first, and
    every value of the range is drawn by some source.
    - [_do_attack] dodges exactly when the roll is at most the defender's
      dodge: then the defender is unchanged, the message is [Dodged] and
      one draw was made; otherwise a returning attack is a hit.
    - [attack] of mystic_dungeon.py dodges exactly when roll plus dodge
      exceeds 20: then the defender is unchanged and the result has
      [hit = False] and damage 0; otherwise a returning attack is a hit. *)
Theorem C3_dodge_check :
  (forall rt, 1 <= draw_int 1 20 rt <= 20) /\
  (forall k, 1 <= k <= 20 -> exists g, forall o, draw_int 1 20 (Runtime g o) = k) /\
  (forall attacker defender f rt,
      draw_int 1 20 rt <= Entity.dodge (c_entity defender) ->
      Game._do_attack attacker defender f rt =
        (Ok (defender, [Dodged (Entity.name (c_entity defender))]), skip rt)) /\
  (forall attacker defender f rt d' out rt',
      Entity.dodge (c_entity defender) < draw_int 1 20 rt ->
      Game._do_attack attacker defender f rt = (Ok (d', out), rt') ->
      exists dmg, 1 <= dmg /\
        Entity.hp (c_entity d') = Entity.hp (c_entity defender) - dmg /\
        last out = Some (Hits (Entity.name (c_entity attacker))
                              (Entity.name (c_entity defender)) dmg)) /\
  (forall attacker defender rt,
      20 < draw_int 1 20 rt + Entity.dodge defender ->
      Mystic.attack attacker defender rt =
        (Ok (Mystic.AttackResult false 0 false, defender), skip rt)) /\
  (forall attacker defender rt res d' rt',
      draw_int 1 20 rt + Entity.dodge defender <= 20 ->
      Mystic.attack attacker defender rt = (Ok (res, d'), rt') ->
      Mystic.hit res = true /\ 1 <= Mystic.damage res /\
      Entity.hp d' = Entity.hp defender - Mystic.damage res).
Proof.
  split; [|split; [|split; [|split; [|split]]]].
  - intros rt. apply draw_int_range. lia.
  - intros k Hk. by apply draw_int_onto.
  - intros attacker defender f rt H. by apply do_attack_dodged.
  - intros attacker defender f rt d' out rt' Hd H.
    rewrite do_attack_hit in H by exact Hd. cbv zeta in H.
    destruct (PyFloat.lt _ _).
    + destruct (PyFloat.int_mul _ _) as [dmg|] eqn:Hm; [|discriminate].
      injection H as <- <- _. exists dmg. rewrite c_set_hp_hp.
      split; [|done]. eapply int_mul_1_8_ge_one; [|exact Hm]. lia.
    + injection H as <- <- _. eexists. rewrite c_set_hp_hp. split; [|done]. lia.
  - intros attacker defender rt H. by apply mystic_attack_dodged.
  - intros attacker defender rt res d' rt' Hd H.
    rewrite mystic_attack_hit in H by exact Hd. cbv zeta in H.
    destruct (PyFloat.lt _ _).
    + destruct (PyFloat.int_mul _ _) as [scaled|]; [|discriminate].
      injection H as <- <- _. cbn. split; [done|]. split; [lia|done].
    + injection H as <- <- _. cbn. split; [done|]. split; [lia|done].
Qed.

(** C3, witness: a roll of 5 against the player's dodge of 8 in
    [_do_attack]. *)
Lemma C3_dodge_witness :
  Game._do_attack (Foe wolf) (Hero hero) false (rt_of [4%N; 4503599627370496%N; 1%N]) =
    (Ok (Hero hero, [Dodged (Entity.name (c_entity (Hero hero)))]),
     skip (rt_of [4%N; 4503599627370496%N; 1%N])).
Proof.
  apply (proj1 (proj2 (proj2 C3_dodge_check)) (Foe wolf) (Hero hero) false
           (rt_of [4%N; 4503599627370496%N; 1%N])).
  vm_compute. discriminate.
Defined.

(** ** C5: [gain_xp] in two calls and in one *)

(** C5.  For a threshold of at least 1 and a second amount [b >= 0] (XP
    amounts are rewards, never negative), with enough fuel [gain_xp(a)]
    followed by [gain_xp(b)] ends as [gain_xp(a + b)] does: with the same
    player, all attributes included, or with the same exception. *)
Theorem C5_gain_xp_additive p a b :
  1 <= Player.xp_to_next p -> 0 <= b ->
  exists n r, forall fuel, (n <= fuel)%nat ->
    Player.gain_xp fuel (a + b) p = Some r /\
    gain_xp_then fuel a b p = Some r.
Proof.
  intros Ht Hb.
  set (n1 := Z.to_nat (Player.xp p + a)).
  destruct (gain_xp_loop_terminates n1 (Player.set_xp (Player.xp p + a) p))
    as (r1 & Hr1 & _); [done|rewrite xp_set_xp; lia|].
  pose proof (gain_xp_loop_add b n1 (Player.set_xp (Player.xp p + a) p) Hb) as Hadd.
  rewrite Hr1, xp_set_xp, set_xp_set_xp in Hadd.
  replace (Player.xp p + a + b) with (Player.xp p + (a + b)) in Hadd by lia.
  destruct r1 as [p1|e].
  - set (n2 := Z.to_nat (Player.xp p1 + b)).
    destruct (gain_xp_loop_terminates n2 (Player.set_xp (Player.xp p1 + b) p1))
      as (r & Hr & _).
    { rewrite xp_to_next_set_xp. eapply gain_xp_loop_threshold; [|exact Hr1]. done. }
    { rewrite xp_set_xp. lia. }
    exists (n1 + n2)%nat, r. intros fuel Hf. split.
    + eapply gain_xp_loop_mono; [|exact Hf]. by apply Hadd.
    + unfold gain_xp_then, Player.gain_xp.
      rewrite (gain_xp_loop_mono _ fuel _ _ Hr1) by lia.
      eapply gain_xp_loop_mono; [exact Hr|lia].
  - exists n1, (Raise e). intros fuel Hf. split.
    + eapply gain_xp_loop_mono; [exact Hadd|done].
    + unfold gain_xp_then, Player.gain_xp.
      by rewrite (gain_xp_loop_mono _ fuel _ _ Hr1).
Qed.

(** C5, witness: the starting player gains 50 then 40, or 90 at once. *)
Lemma C5_gain_50_then_40_witness :
  exists n r, forall fuel, (n <= fuel)%nat ->
    Player.gain_xp fuel (50 + 40) hero = Some r /\
    gain_xp_then fuel 50 40 hero = Some r.
Proof.
  apply (C5_gain_xp_additive hero 50 40).
  - vm_compute. discriminate.
  - lia.
Defined.

(** The example of the specification, evaluated: both ways end at level
    3 with 18 XP, threshold 58 and 56 of 56 hit points. *)
Example gain_50_then_40 :
  gain_xp_then 3 50 40 hero = Player.gain_xp 3 90 hero /\
  exists p', Player.gain_xp 3 90 hero = Some (Ok p') /\
    (Player.level p', Player.xp p', Player.xp_to_next p') = (3, 18, 58) /\
    (Player.hp p', Player.max_hp p', Player.atk p', Player.defense p') = (56, 56, 10, 4).
Proof.
  split; [vm_compute; reflexivity|]. eexists.
  split; [vm_compute; reflexivity|]. split; vm_compute; reflexivity.
Qed.

(** ** C6: [gain_xp] terminates *)

(** C6.  For a threshold of at least 1 the loop of [gain_xp] ends within
    [xp + amount] rounds: with that much fuel or more the call gives a
    result.  The result is a returned player whenever [xp + amount] is
    below [2^53]; beyond, [int(xp_to_next * 1.4)] can raise
    [OverflowError], which ends the call as well. *)
Theorem C6_gain_xp_terminates p amount :
  0 <= amount -> 1 <= Player.xp_to_next p ->
  exists r,
    (forall fuel, (Z.to_nat (Player.xp p + amount) <= fuel)%nat ->
       Player.gain_xp fuel amount p = Some r) /\
    (Player.xp p + amount < 2 ^ 53 -> exists p', r = Ok p').
Proof.
  intros _ Ht.
  destruct (gain_xp_loop_terminates (Z.to_nat (Player.xp p + amount))
              (Player.set_xp (Player.xp p + amount) p)) as (r & Hr & Hok);
    [done|rewrite xp_set_xp; lia|].
  exists r. split.
  - intros fuel Hf. eapply gain_xp_loop_mono; [exact Hr|exact Hf].
  - intros Hb. apply Hok. by rewrite xp_set_xp.
Qed.

(** C6, witness: the starting player gains 9000 XP. *)
Lemma C6_gain_9000_witness :
  exists r,
    (forall fuel, (Z.to_nat (Player.xp hero + 9000) <= fuel)%nat ->
       Player.gain_xp fuel 9000 hero = Some r) /\
    (Player.xp hero + 9000 < 2 ^ 53 -> exists p', r = Ok p').
Proof.
  apply (C6_gain_xp_terminates hero 9000).
  - lia.
  - vm_compute. discriminate.
Defined.

(** With a threshold of 0 the loop does not end: every round leaves [xp]
    and the threshold as they were, so no fuel is enough. *)
Example gain_xp_threshold_0_diverges fuel :
  Player.gain_xp fuel 0 (Player.set_xp_to_next 0 hero) = None.
Proof.
  unfold Player.gain_xp. rewrite Z.add_0_r.
  change (Player.set_xp (Player.xp (Player.set_xp_to_next 0 hero)) (Player.set_xp_to_next 0 hero))
    with (Player.set_xp_to_next 0 hero).
  assert (H: forall p, Player.xp_to_next p = 0 -> 0 <= Player.xp p ->
             Player.gain_xp_loop fuel p = None); [|by apply H].
  induction fuel as [|fuel IH]; intros p Ht Hx.
  - cbn. rewrite Ht. by destruct (Z.leb_spec 0 (Player.xp p)); [|lia].
  - rewrite gain_xp_loop_S, Ht. destruct (Z.leb_spec 0 (Player.xp p)); [|lia].
    rewrite level_up_set_xp. unfold Player._level_up. rewrite Ht.
    change (PyFloat.int_mul 0 PyFloat.f_1_4) with (@Ok Z 0). cbn [rbind].
    apply IH; cbn; lia.
Qed.

(** ** C4: the defeat penalty *)

(** [int(gold * 0.2)] on the defeated player of the specification's
    example. *)
Example lost_gold_of_100 : PyFloat.int_mul 100 PyFloat.f_0_2 = Ok 20.
Proof. vm_compute. reflexivity. Qed.

(** C4, as stated, fails on the handler of mystic_dungeon.py.  It sets the
    hit points to [max(1, int(max_hp / 2))], which is 1 and not
    [floor(1 / 2) = 0] for a player loaded with [max_hp = 1]; and it does
    not assign the position at all: the player beaten at (2, 1) stays at
    (2, 1). *)
Lemma C4_mystic_defeat_differs :
  exists g',
    Mystic.cmd_attack_defeat (game_of (frail 100 (2, 1))) = Ok g' /\
    Player.alive (frail 100 (2, 1)) = false /\
    Player.max_hp (frail 100 (2, 1)) / 2 = 0 /\
    Player.hp (Game.player g') = 1 /\
    Player.pos (Game.player g') = (2, 1) /\
    Player.gold (Game.player g') = 80.
Proof. eexists. split; [vm_compute; reflexivity|]. repeat apply conj; vm_compute; done. Qed.

(** C4, amended.  For a player with hit points at most 0 and gold in
    [[0, 2^50)] (beyond, the float product [gold * 0.2] rounds):
    - the handler of game.py sets the hit points to [floor(max_hp / 2)],
      takes [floor(gold / 5)] from the gold, which stays at least 0, and
      sets the position to (1, 1);
    - the handler of mystic_dungeon.py, for [max_hp] in [[0, 2^53)], sets
      the hit points to [max(1, floor(max_hp / 2))] and takes the same
      [floor(gold / 5)]. *)
Theorem C4_defeat_penalty g :
  Player.alive (Game.player g) = false ->
  0 <= Player.gold (Game.player g) < 2 ^ 50 ->
  (exists g',
      Game.cmd_attack_defeat g = Ok g' /\
      Player.hp (Game.player g') = Player.max_hp (Game.player g) / 2 /\
      Player.gold (Game.player g') =
        Player.gold (Game.player g) - Player.gold (Game.player g) / 5 /\
      0 <= Player.gold (Game.player g') /\
      Player.pos (Game.player g') = (1, 1)) /\
  (0 <= Player.max_hp (Game.player g) < 2 ^ 53 ->
   exists g',
      Mystic.cmd_attack_defeat g = Ok g' /\
      Player.hp (Game.player g') = Z.max 1 (Player.max_hp (Game.player g) / 2) /\
      Player.gold (Game.player g') =
        Player.gold (Game.player g) - Player.gold (Game.player g) / 5 /\
      0 <= Player.gold (Game.player g')).
Proof.
  intros Hdead Hgold.
  assert (Hpos: 0 <= Player.gold (Game.player g) - Player.gold (Game.player g) / 5).
  { pose proof (Z.div_mod (Player.gold (Game.player g)) 5 ltac:(lia)).
    pose proof (Z.mod_pos_bound (Player.gold (Game.player g)) 5 ltac:(lia)). lia. }
  split.
  - unfold Game.cmd_attack_defeat. rewrite Hdead. cbn [negb].
    change (Player.gold (Player.set_hp _ (Game.player g)))
      with (Player.gold (Game.player g)).
    rewrite int_mul_0_2 by exact Hgold. cbn [rbind].
    eexists. split; [reflexivity|]. cbn. done.
  - intros Hmax. unfold Mystic.cmd_attack_defeat. rewrite Hdead. cbn [negb].
    rewrite int_div_2 by exact Hmax. cbn [rbind].
    change (Player.gold (Player.set_hp _ (Game.player g)))
      with (Player.gold (Game.player g)).
    rewrite int_mul_0_2 by exact Hgold. cbn [rbind].
    eexists. split; [reflexivity|]. cbn. done.
Qed.

(** C4, witness: the player beaten at (2, 1) with 100 gold and 40 maximal
    hit points wakes with 20 hit points and 80 gold, at (1, 1) in
    game.py. *)
Lemma C4_defeat_penalty_witness :
  (exists g',
      Game.cmd_attack_defeat (game_of (beaten 100 (2, 1))) = Ok g' /\
      Player.hp (Game.player g') = 40 / 2 /\
      Player.gold (Game.player g') = 100 - 100 / 5 /\
      0 <= Player.gold (Game.player g') /\
      Player.pos (Game.player g') = (1, 1)) /\
  (exists g',
      Mystic.cmd_attack_defeat (game_of (beaten 100 (2, 1))) = Ok g' /\
      Player.hp (Game.player g') = Z.max 1 (40 / 2) /\
      Player.gold (Game.player g') = 100 - 100 / 5 /\
      0 <= Player.gold (Game.player g')).
Proof.
  destruct (C4_defeat_penalty (game_of (beaten 100 (2, 1)))) as [HG HM].
  - vm_compute. reflexivity.
  - vm_compute. split; [discriminate|reflexivity].
  - split; [exact HG|]. apply HM. vm_compute. split; [discriminate|reflexivity].
Defined.

(** ** C7: [to_dict] then [from_dict] *)

(** An item read back from its own dict is a new object with the same
    attributes; only the allocator moves. *)
Lemma item_from_to_dict it rt :
  Item.from_dict (Item.to_dict it) rt =
    (Ok (Item.mk (next_oid rt) (Item.id it) (Item.name it) (Item.desc it)
                 (Item.kind it) (Item.power it) (Item.value it)),
     Runtime (rng rt) (Pos.succ (next_oid rt))).
Proof. reflexivity. Qed.

Lemma item_dict_truthy it : truthy (VDict (Item.to_dict it)) = true.
Proof.
  cbn [truthy]. apply negb_true_iff, bool_decide_eq_false.
  unfold Item.to_dict. apply insert_non_empty.
Qed.

Lemma items_from_to_dict l : forall rt,
  exists l' rt',
    mapM Player.item_of_val (map (fun it => VDict (Item.to_dict it)) l) rt = (Ok l', rt') /\
    same_items l' l /\ rng rt' = rng rt.
Proof.
  induction l as [|it l IH]; intros rt.
  - exists [], rt. repeat split. constructor.
  - cbn [map mapM]. unfold bind at 1. cbn [Player.item_of_val].
    rewrite item_from_to_dict.
    destruct (IH (Runtime (rng rt) (Pos.succ (next_oid rt)))) as (l' & rt' & Hl & Hs & Hr).
    unfold bind at 1. rewrite Hl.
    eexists _, rt'. split; [reflexivity|]. split; [|exact Hr].
    constructor; [|exact Hs]. by repeat split.
Qed.

Lemma equipped_from_to_dict o rt :
  exists o' rt',
    Player.equipped_of (Some (Player.item_or_none o)) rt = (Ok o', rt') /\
    same_equipped o' o /\ rng rt' = rng rt.
Proof.
  destruct o as [it|].
  - unfold Player.equipped_of, Player.item_or_none. rewrite item_dict_truthy.
    unfold bind. cbn [Player.item_of_val]. rewrite item_from_to_dict.
    eexists _, _. split; [reflexivity|]. split; [|reflexivity]. by repeat split.
  - exists None, rt. by repeat split.
Qed.

Lemma positions_from_tuples l :
  Player.positions_of (map Player.tuple_of_pos l) = Ok l.
Proof.
  induction l as [|[x y] l IH]; [done|].
  cbn [map Player.positions_of Player.tuple_of_pos Player.pos_of_val fst snd rbind].
  by rewrite IH.
Qed.

(** What [from_dict] reads in the dict [to_dict] wrote. *)
Lemma to_dict_entries p :
  (forall d, get_str (Player.to_dict p) "name" d = Ok (Player.name p)) /\
  (forall d, get_int (Player.to_dict p) "hp" d = Ok (Player.hp p)) /\
  (forall d, get_int (Player.to_dict p) "max_hp" d = Ok (Player.max_hp p)) /\
  (forall d, get_int (Player.to_dict p) "atk" d = Ok (Player.atk p)) /\
  (forall d, get_int (Player.to_dict p) "defense" d = Ok (Player.defense p)) /\
  (forall d, get_int (Player.to_dict p) "dodge" d = Ok (Player.dodge p)) /\
  (forall d, get_int (Player.to_dict p) "level" d = Ok (Player.level p)) /\
  (forall d, get_int (Player.to_dict p) "xp" d = Ok (Player.xp p)) /\
  (forall d, get_int (Player.to_dict p) "xp_to_next" d = Ok (Player.xp_to_next p)) /\
  (forall d, get_int (Player.to_dict p) "gold" d = Ok (Player.gold p)) /\
  Player.to_dict p !! "pos" = Some (Player.tuple_of_pos (Player.pos p)) /\
  Player.to_dict p !! "inventory" =
    Some (VList (map (fun it => VDict (Item.to_dict it)) (Player.inventory p))) /\
  Player.to_dict p !! "equipped_weapon" =
    Some (Player.item_or_none (Player.equipped_weapon p)) /\
  Player.to_dict p !! "equipped_armor" =
    Some (Player.item_or_none (Player.equipped_armor p)) /\
  Player.to_dict p !! "quests" = Some (VDict (Player.quests p)) /\
  Player.to_dict p !! "discovered" =
    Some (VList (map Player.tuple_of_pos (elements (Player.discovered p)))).
Proof. repeat apply conj; intros; reflexivity. Qed.

(** C7.  Reading a player back from its own [to_dict] returns, raises
    nothing, and gives a player with the same name, hit points, maximal
    hit points, attack, defense, dodge, level, XP, threshold, gold,
    position, discovered set and quests, an inventory of the same length
    and order whose items have the same attributes, and equipped weapon
    and armor with the same attributes as the originals (they are new
    objects). *)
Theorem C7_player_round_trip p rt :
  exists p' rt',
    Player.from_dict (Player.to_dict p) rt = (Ok p', rt') /\
    Player.base p' = Player.base p /\
    Player.level p' = Player.level p /\
    Player.xp p' = Player.xp p /\
    Player.xp_to_next p' = Player.xp_to_next p /\
    Player.gold p' = Player.gold p /\
    Player.pos p' = Player.pos p /\
    Player.discovered p' = Player.discovered p /\
    Player.quests p' = Player.quests p /\
    same_items (Player.inventory p') (Player.inventory p) /\
    same_equipped (Player.equipped_weapon p') (Player.equipped_weapon p) /\
    same_equipped (Player.equipped_armor p') (Player.equipped_armor p).
Proof.
  destruct (items_from_to_dict (Player.inventory p) rt) as (inv & rt1 & Hinv & Hsi & _).
  destruct (equipped_from_to_dict (Player.equipped_weapon p) rt1) as (ew & rt2 & Hew & Hsw & _).
  destruct (equipped_from_to_dict (Player.equipped_armor p) rt2) as (ea & rt3 & Hea & Hsa & _).
  destruct (to_dict_entries p)
    as (E1 & E2 & E3 & E4 & E5 & E6 & E7 & E8 & E9 & E10 & E11 & E12 & E13 & E14 & E15 & E16).
  unfold Player.from_dict, bind, lift, ret.
  rewrite E1, E2, E3, E4, E5, E6, E7, E8, E9, E10, E11, E12, E13, E14, E15, E16.
  cbv beta iota delta [default from_option id Player.tuple_of_pos Player.pos_of_val].
  rewrite Hinv, Hew, Hea, positions_from_tuples.
  eexists _, rt3. split; [reflexivity|]. cbn.
  destruct p as [[] ? ? ? [] ? ? ? ? ? ? ?]. cbn in *.
  rewrite list_to_set_elements_L. done.
Qed.

(** ** C8: buying in the shop *)

(** The buy branch of game.py, for a valid choice whose price
    [int(value * 1.5)] is computed. *)
Lemma game_shop_buy_eq c g rt item price :
  Str.isdigit c = true ->
  1 <= Str.int c <= Z.of_nat (length (Game.merchant_goods g)) ->
  Game.merchant_goods g !! Z.to_nat (Str.int c - 1) = Some item ->
  PyFloat.int_mul (Item.value item) PyFloat.f_1_5 = Ok price ->
  Game.shop_buy c g rt =
    if price <=? Player.gold (Game.player g) then
      (do new_item <- Item.from_dict (Item.to_dict item);
       ret (Game.set_player
              (Player.add_item new_item
                 (Player.set_gold (Player.gold (Game.player g) - price)
                    (Game.player g))) g)) rt
    else (Ok g, rt).
Proof.
  intros Hd [H1 H2] Hsel Hprice. unfold Game.shop_buy.
  rewrite Hd, (proj2 (Z.leb_le _ _) H1), (proj2 (Z.leb_le _ _) H2).
  cbn [andb]. rewrite Hsel. unfold bind at 1, lift at 1. rewrite Hprice.
  cbv beta iota zeta. by destruct (price <=? Player.gold (Game.player g)).
Qed.

(** game.py clones what it sells.  With enough gold for the price
    [int(value * 1.5)] the gold drops by exactly the price and one item is
    appended: a new object with the attributes of the catalog item, whose
    identity differs from every catalog item's; the catalog is unchanged. *)
Theorem game_shop_buy_clones c g rt item price :
  Str.isdigit c = true ->
  1 <= Str.int c <= Z.of_nat (length (Game.merchant_goods g)) ->
  Game.merchant_goods g !! Z.to_nat (Str.int c - 1) = Some item ->
  PyFloat.int_mul (Item.value item) PyFloat.f_1_5 = Ok price ->
  price <= Player.gold (Game.player g) ->
  exists new_item g',
    Game.shop_buy c g rt = (Ok g', Runtime (rng rt) (Pos.succ (next_oid rt))) /\
    Player.gold (Game.player g') = Player.gold (Game.player g) - price /\
    Player.inventory (Game.player g') = Player.inventory (Game.player g) ++ [new_item] /\
    Game.merchant_goods g' = Game.merchant_goods g /\
    Item.same_fields new_item item /\
    Item.oid new_item = next_oid rt /\
    (allocated rt (Game.merchant_goods g) ->
     Forall (fun t => Item.oid t <> Item.oid new_item) (Game.merchant_goods g)).
Proof.
  intros Hd H12 Hsel Hprice Hge.
  rewrite (game_shop_buy_eq c g rt item price) by done.
  rewrite (proj2 (Z.leb_le _ _) Hge).
  unfold bind. rewrite item_from_to_dict. unfold ret.
  eexists _, _. split; [reflexivity|]. cbn.
  repeat apply conj; try done.
  intros Hall. eapply Forall_impl; [exact Hall|]. cbn. intros t Ht. lia.
Qed.

(** In game.py the player with 100 gold who answers 1 pays 60 for the
    iron sword (listed at [int(40 * 1.5)]) and receives a new object. *)
Lemma game_shop_buy_witness :
  exists new_item g',
    Game.shop_buy "1" (game_of (Player.set_gold 100 starter)) (rt_of []) =
      (Ok g', Runtime (rng (rt_of [])) (Pos.succ (next_oid (rt_of [])))) /\
    Player.gold (Game.player g') = 100 - 60 /\
    Player.inventory (Game.player g') = [knife; vest; bread] ++ [new_item] /\
    Item.same_fields new_item iron_sword /\
    Item.oid new_item <> Item.oid iron_sword.
Proof.
  destruct (game_shop_buy_clones "1" (game_of (Player.set_gold 100 starter))
              (rt_of []) iron_sword 60)
    as (new_item & g' & Hbuy & Hgold & Hinv & _ & Hsame & Hoid & _).
  - reflexivity.
  - vm_compute. split; discriminate.
  - reflexivity.
  - vm_compute. reflexivity.
  - vm_compute. discriminate.
  - exists new_item, g'.
    split; [exact Hbuy|]. split; [exact Hgold|]. split; [exact Hinv|].
    split; [exact Hsame|]. rewrite Hoid. vm_compute. discriminate.
Defined.

(** C8: mystic_dungeon.py appends the catalog item itself.  At the
    Merchant's Way (1, 2), where [cmd_shop] passes its check of the room,
    the player of a new game (30 gold) who answers 3 pays the listed 20 for
    the minor potion, and the inventory ends with the very object that
    stays in the merchant's catalog (same identity), where game.py appends
    a copy with a new identity. *)
Theorem C8_mystic_buy_shares_the_template :
  exists room g',
    Game.current_room (game_of (Player.set_pos (1, 2) starter)) = Some room /\
    Room.special room = Some "merchant" /\
    Player.gold (Game.player (game_of (Player.set_pos (1, 2) starter))) = 30 /\
    Mystic.shop_buy "3" (game_of (Player.set_pos (1, 2) starter)) = Ok g' /\
    Player.gold (Game.player g') = 30 - 20 /\
    Player.inventory (Game.player g') = [knife; vest; bread; potion] /\
    Game.merchant_goods g' = [iron_sword; chain_mail; potion] /\
    option_map Item.oid (last (Player.inventory (Game.player g'))) =
      option_map Item.oid (last (Game.merchant_goods g')).
Proof.
  eexists _, _. split; [vm_compute; reflexivity|]. split; [vm_compute; reflexivity|].
  split; [vm_compute; reflexivity|]. split; [vm_compute; reflexivity|].
  repeat apply conj; vm_compute; reflexivity.
Qed.

(** With too little gold both shops leave the game as it is. *)
Lemma shop_buy_insufficient_gold c g rt item price :
  Str.isdigit c = true ->
  1 <= Str.int c <= Z.of_nat (length (Game.merchant_goods g)) ->
  Game.merchant_goods g !! Z.to_nat (Str.int c - 1) = Some item ->
  (PyFloat.int_mul (Item.value item) PyFloat.f_1_5 = Ok price ->
   Player.gold (Game.player g) < price -> Game.shop_buy c g rt = (Ok g, rt)) /\
  (Player.gold (Game.player g) < Item.value item -> Mystic.shop_buy c g = Ok g).
Proof.
  intros Hd H12 Hsel. split.
  - intros Hp Hlt. rewrite (game_shop_buy_eq c g rt item price) by done.
    by rewrite (proj2 (Z.leb_gt _ _) Hlt).
  - intros Hlt. destruct H12 as [H1 H2]. unfold Mystic.shop_buy.
    rewrite Hd, (proj2 (Z.leb_le _ _) H1), (proj2 (Z.leb_le _ _) H2).
    cbn [andb]. rewrite Hsel. by rewrite (proj2 (Z.leb_gt _ _) Hlt).
Qed.

(** With enough gold mystic_dungeon.py takes the listed value and appends
    the selected catalog object. *)
Lemma mystic_shop_buy_appends_selection c g sel :
  Str.isdigit c = true ->
  1 <= Str.int c <= Z.of_nat (length (Game.merchant_goods g)) ->
  Game.merchant_goods g !! Z.to_nat (Str.int c - 1) = Some sel ->
  Item.value sel <= Player.gold (Game.player g) ->
  exists g',
    Mystic.shop_buy c g = Ok g' /\
    Player.gold (Game.player g') = Player.gold (Game.player g) - Item.value sel /\
    Player.inventory (Game.player g') = Player.inventory (Game.player g) ++ [sel].
Proof.
  intros Hd [H1 H2] Hsel Hge. unfold Mystic.shop_buy.
  rewrite Hd, (proj2 (Z.leb_le _ _) H1), (proj2 (Z.leb_le _ _) H2).
  cbn [andb]. rewrite Hsel, (proj2 (Z.leb_le _ _) Hge).
  eexists. split; [reflexivity|]. done.
Qed.

(** The player of the new game (30 gold) cannot afford the iron sword in
    either shop: 60 in game.py, 40 in mystic_dungeon.py. *)
Lemma shop_buy_insufficient_gold_witness :
  Game.shop_buy "1" new_game (rt_of []) = (Ok new_game, rt_of []) /\
  Mystic.shop_buy "1" new_game = Ok new_game.
Proof.
  destruct (shop_buy_insufficient_gold "1" new_game (rt_of []) iron_sword 60)
    as [HG HM].
  - reflexivity.
  - vm_compute. split; discriminate.
  - reflexivity.
  - split; [apply HG|apply HM]; vm_compute; reflexivity.
Defined.

(** With 100 gold the player pays the listed 40 in mystic_dungeon.py and
    carries the merchant's own iron sword. *)
Lemma mystic_shop_buy_witness :
  exists g',
    Mystic.shop_buy "1" (game_of (Player.set_gold 100 starter)) = Ok g' /\
    Player.gold (Game.player g') = 100 - 40 /\
    Player.inventory (Game.player g') = [knife; vest; bread] ++ [iron_sword].
Proof.
  apply (mystic_shop_buy_appends_selection "1"
           (game_of (Player.set_gold 100 starter)) iron_sword).
  - reflexivity.
  - vm_compute. split; discriminate.
  - reflexivity.
  - vm_compute. discriminate.
Defined.

(** ** C9: moving stays inside the grid *)

Lemma in_bounds_spec w xy :
  World.in_bounds w xy = true <->
  0 <= fst xy < World.width w /\ 0 <= snd xy < World.height w.
Proof.
  unfold World.in_bounds. rewrite !andb_true_iff, !Z.leb_le, !Z.ltb_lt. lia.
Qed.

Lemma lookup_dir_In d l xy : Game.lookup_dir d l = Some xy -> In (d, xy) l.
Proof.
  induction l as [|[k v] l IH]; [done|]. cbn.
  destruct (String.eqb_spec k d) as [->|_].
  - intros [= ->]. by left.
  - intros H. right. by apply IH.
Qed.

Lemma neighbors_in_bounds w pos d xy :
  Game.lookup_dir d (World.neighbors w pos) = Some xy -> World.in_bounds w xy = true.
Proof.
  intros H. apply lookup_dir_In in H. unfold World.neighbors in H.
  apply filter_In in H as [_ H]. exact H.
Qed.

(** [random_event] returns and leaves the world and the position alone. *)
Lemma random_event_frame g rt :
  exists g' rt',
    Game.random_event g rt = (Ok g', rt') /\
    Game.world g' = Game.world g /\
    Player.pos (Game.player g') = Player.pos (Game.player g).
Proof.
  unfold Game.random_event, bind. rewrite random_float_draw.
  repeat (destruct (PyFloat.lt _ _); [by eexists _, _|]).
  by eexists _, _.
Qed.

(** What [cmd_move] does to the position and to the world. *)
Lemma cmd_move_position d g rt g' rt' :
  Game.cmd_move d g rt = (Ok g', rt') ->
  Game.world g' = Game.world g /\
  (Player.pos (Game.player g') = Player.pos (Game.player g) \/
   exists d', Game.lookup_dir d' (World.neighbors (Game.world g) (Player.pos (Game.player g)))
              = Some (Player.pos (Game.player g'))).
Proof.
  unfold Game.cmd_move.
  destruct (String.eqb d EmptyString); [intros [= <- _]; auto|].
  destruct (Game.lookup_dir _ _) as [new_pos|] eqn:Hdir; [|intros [= <- _]; auto].
  destruct (World.get_room _ new_pos) as [r|] eqn:Hroom; [|discriminate].
  destruct (Room.locked r); [intros [= <- _]; auto|].
  cbv zeta. unfold bind.
  match goal with
  | |- context [Game.cmd_look ?g0 rt] =>
      assert (Hlook: Game.cmd_look g0 rt = (Ok (Game.reveal_current g0), rt))
        by (unfold Game.cmd_look, Game.current_room; cbn [Game.world Game.player
              Game.reveal_current Game.set_player Game.set_turn_count Player.pos
              Player.set_pos Player.set_discovered]; by rewrite Hroom);
      rewrite Hlook;
      destruct (random_event_frame (Game.reveal_current g0) rt) as (g1 & rt1 & -> & Hw & Hp)
  end.
  intros [= <- _]. cbn in Hw, Hp. split; [exact Hw|]. right. exists (Str.lower (Str.strip d)).
  by rewrite Hp.
Qed.

(** C9.  Every position [neighbors] returns lies in the grid; [cmd_move]
    leaves the world alone and either keeps the position or assigns one
    that [neighbors(pos)] returned; hence a move from a position in the
    grid ends at a position in the grid. *)
Theorem C9_move_stays_in_bounds :
  (forall w pos d xy,
      Game.lookup_dir d (World.neighbors w pos) = Some xy ->
      0 <= fst xy < World.width w /\ 0 <= snd xy < World.height w) /\
  (forall d g rt g' rt',
      Game.cmd_move d g rt = (Ok g', rt') ->
      Game.world g' = Game.world g /\
      (Player.pos (Game.player g') = Player.pos (Game.player g) \/
       exists d', Game.lookup_dir d'
                    (World.neighbors (Game.world g) (Player.pos (Game.player g)))
                  = Some (Player.pos (Game.player g')))) /\
  (forall d g rt g' rt',
      World.in_bounds (Game.world g) (Player.pos (Game.player g)) = true ->
      Game.cmd_move d g rt = (Ok g', rt') ->
      World.in_bounds (Game.world g') (Player.pos (Game.player g')) = true).
Proof.
  split; [|split].
  - intros w pos d xy H. apply in_bounds_spec. by eapply neighbors_in_bounds.
  - intros d g rt g' rt'. apply cmd_move_position.
  - intros d g rt g' rt' Hin H.
    apply cmd_move_position in H as [-> [-> | [d' Hd']]]; [exact Hin|].
    by eapply neighbors_in_bounds.
Qed.

(** C9, witness: from (0, 0) the player goes south to (0, 1); north and
    west are not offered there. *)
Lemma C9_move_witness :
  exists g' rt',
    Game.cmd_move "south" (game_of (Player.set_pos (0, 0) hero))
      (rt_of [4503599627370496%N]) = (Ok g', rt') /\
    Player.pos (Game.player g') = (0, 1) /\
    World.in_bounds (Game.world g') (Player.pos (Game.player g')) = true /\
    World.neighbors (Game.world new_game) (0, 0) = [("south", (0, 1)); ("east", (1, 0))].
Proof.
  eexists _, _. split; [vm_compute; reflexivity|]. split; [vm_compute; reflexivity|].
  split; [|vm_compute; reflexivity].
  eapply (proj2 (proj2 C9_move_stays_in_bounds) "south"
            (game_of (Player.set_pos (0, 0) hero)) (rt_of [4503599627370496%N])).
  - vm_compute. reflexivity.
  - vm_compute. reflexivity.
Defined.

(** ** C10: [find_item] and the commands that call it *)

Lemma startswith_append p post : Str.startswith p (String.append p post) = true.
Proof.
  induction p as [|c p IH]; [done|].
  change (String.append (String c p) post) with (String c (String.append p post)).
  cbn [Str.startswith]. by rewrite Ascii.eqb_refl, IH.
Qed.

Lemma startswith_spec p s :
  Str.startswith p s = true <-> exists post, s = String.append p post.
Proof.
  split.
  - revert s. induction p as [|c p IH]; intros s H.
    + by exists s.
    + destruct s as [|c' s]; [done|]. cbn [Str.startswith] in H.
      apply andb_true_iff in H as [Hc Hp]. apply Ascii.eqb_eq in Hc as ->.
      destruct (IH s Hp) as [post ->]. by exists post.
  - intros [post ->]. apply startswith_append.
Qed.

(** [needle in hay] decides substring containment. *)
Lemma contains_spec needle hay :
  Str.contains needle hay = true <-> is_substring needle hay.
Proof.
  split.
  - induction hay as [|c hay IH]; cbn; intros H.
    + apply orb_true_iff in H as [H|H]; [|done].
      apply startswith_spec in H as [post ->]. by exists EmptyString, post.
    + apply orb_true_iff in H as [H|H].
      * apply startswith_spec in H as [post ->]. by exists EmptyString, post.
      * destruct (IH H) as (pre & post & ->). by exists (String c pre), post.
  - intros (pre & post & ->). induction pre as [|c pre IH].
    + change (String.append EmptyString (String.append needle post))
        with (String.append needle post).
      destruct (String.append needle post) eqn:E; cbn [Str.contains]; rewrite <- E;
        by rewrite startswith_append.
    + change (String.append (String c pre) (String.append needle post))
        with (String c (String.append pre (String.append needle post))).
      cbn [Str.contains]. rewrite IH. apply orb_true_r.
Qed.

Lemma find_item_loop_first_match query inv :
  first_match query inv (Player.find_item_loop (Str.lower query) inv).
Proof.
  induction inv as [|it inv IH]; cbn.
  - constructor.
  - destruct (Str.contains _ _) eqn:Hc.
    + exists [], inv. repeat split; [|constructor]. by apply contains_spec.
    + assert (Hno: ~ name_matches query it).
      { intros Hm. apply contains_spec in Hm. congruence. }
      destruct (Player.find_item_loop _ inv) as [it'|]; cbn in IH |- *.
      * destruct IH as (before & after & -> & Hm & Hb).
        exists (it :: before), after. repeat split; [done|]. by constructor.
      * by constructor.
Qed.

(** C10.  [find_item] returns the first item of the inventory, in order,
    whose lowercased name contains the lowercased query, and nothing when
    no name contains it.  [cmd_equip], [cmd_use] and [cmd_drop] depend on
    their (non-empty) argument only through the item [find_item] finds for
    it, and [cmd_inspect] shows the carried item [find_item] finds for the
    stripped argument: a query that matches a weapon by a part of its name
    equips it. *)
Theorem C10_find_item_first_match :
  (forall query p, first_match query (Player.inventory p) (Player.find_item query p)) /\
  (forall g n1 n2,
      n1 <> EmptyString -> n2 <> EmptyString ->
      Player.find_item n1 (Game.player g) = Player.find_item n2 (Game.player g) ->
      Game.cmd_equip n1 g = Game.cmd_equip n2 g /\
      Game.cmd_use n1 g = Game.cmd_use n2 g /\
      Game.cmd_drop n1 g = Game.cmd_drop n2 g) /\
  (forall g name_ it,
      name_ <> EmptyString ->
      Player.find_item (Str.strip name_) (Game.player g) = Some it ->
      Game.cmd_inspect name_ g = Ok (Game.Carried it)) /\
  (forall g name_ it,
      name_ <> EmptyString ->
      Player.find_item name_ (Game.player g) = Some it ->
      Item.kind it = "weapon" ->
      Player.equipped_weapon (Game.player (Game.cmd_equip name_ g)) = Some it).
Proof.
  split; [|split; [|split]].
  - intros query p. apply find_item_loop_first_match.
  - intros g n1 n2 H1 H2 Heq.
    unfold Game.cmd_equip, Game.cmd_use, Game.cmd_drop.
    rewrite (proj2 (String.eqb_neq n1 EmptyString) H1).
    rewrite (proj2 (String.eqb_neq n2 EmptyString) H2).
    by rewrite Heq.
  - intros g name_ it Hn Hf. unfold Game.cmd_inspect.
    rewrite (proj2 (String.eqb_neq name_ EmptyString) Hn). by rewrite Hf.
  - intros g name_ it Hn Hf Hk. unfold Game.cmd_equip.
    rewrite (proj2 (String.eqb_neq name_ EmptyString) Hn). by rewrite Hf, Hk.
Qed.

(** C10, witness: in the starter inventory the query [KNIFE] finds, and
    equips, the Traveler's Knife, whose name it is only a part of. *)
Lemma C10_find_item_witness :
  Player.find_item "KNIFE" starter = Some knife /\
  first_match "KNIFE" [knife; vest; bread] (Player.find_item "KNIFE" starter) /\
  Player.equipped_weapon (Game.player (Game.cmd_equip "KNIFE" (game_of starter))) =
    Some knife /\
  Item.name knife <> "KNIFE".
Proof.
  split; [vm_compute; reflexivity|]. split; [|split].
  - apply (proj1 C10_find_item_first_match "KNIFE" starter).
  - apply (proj2 (proj2 (proj2 C10_find_item_first_match)) (game_of starter) "KNIFE" knife).
    + discriminate.
    + vm_compute. reflexivity.
    + reflexivity.
  - discriminate.
Defined.

(** * Further properties of the code *)

(** ** The [rooms] dict *)

Lemma key_eqb_eq a b : Rooms.key_eqb a b = true <-> a = b.
Proof.
  unfold Rooms.key_eqb. destruct a as [a1 a2], b as [b1 b2]. cbn.
  rewrite andb_true_iff, !Z.eqb_eq. split; [intros [-> ->]; done|intros [= -> ->]; done].
Qed.

Lemma key_eqb_refl a : Rooms.key_eqb a a = true.
Proof. by apply key_eqb_eq. Qed.

Lemma key_eqb_neq a b : a <> b -> Rooms.key_eqb a b = false.
Proof.
  intros H. destruct (Rooms.key_eqb a b) eqn:E; [|done]. by apply key_eqb_eq in E.
Qed.

Lemma rooms_get_set_eq k r d : Rooms.get k (Rooms.set k r d) = Some r.
Proof.
  induction d as [|[k' r'] d IH]; cbn.
  - by rewrite key_eqb_refl.
  - destruct (Rooms.key_eqb k' k) eqn:E; cbn; rewrite E; [done|exact IH].
Qed.

Lemma rooms_get_set_ne k k' r d :
  k <> k' -> Rooms.get k' (Rooms.set k r d) = Rooms.get k' d.
Proof.
  intros Hne. induction d as [|[k0 r0] d IH]; cbn.
  - by rewrite key_eqb_neq.
  - destruct (Rooms.key_eqb k0 k) eqn:E; cbn.
    + apply key_eqb_eq in E as ->. by rewrite key_eqb_neq.
    + by rewrite IH.
Qed.

Lemma rooms_get_set k k' r d :
  Rooms.get k' (Rooms.set k r d) = if Rooms.key_eqb k k' then Some r else Rooms.get k' d.
Proof.
  destruct (Rooms.key_eqb k k') eqn:E.
  - apply key_eqb_eq in E as ->. apply rooms_get_set_eq.
  - apply rooms_get_set_ne. intros ->. by rewrite key_eqb_refl in E.
Qed.

(** ** [_generate]: the rooms of a new world *)

Lemma fill_cell_get d xy k :
  Rooms.get k (World.fill_cell d xy) =
    match Rooms.get k d with
    | Some r => Some r
    | None =>
        if Rooms.key_eqb xy k
        then Some (Room.mk "Wilderness" "Tall grass stretches in all directions."
                           xy [] None false None)
        else None
    end.
Proof.
  unfold World.fill_cell. destruct (Rooms.get xy d) as [r|] eqn:Hxy.
  - destruct (Rooms.get k d) eqn:Hk; [done|].
    destruct (Rooms.key_eqb xy k) eqn:E; [|done].
    apply key_eqb_eq in E as ->. congruence.
  - rewrite rooms_get_set. destruct (Rooms.key_eqb xy k) eqn:E; [|by destruct (Rooms.get k d)].
    apply key_eqb_eq in E as ->. by rewrite Hxy.
Qed.

Lemma fill_cells_get ks : forall d k,
  Rooms.get k (fold_left World.fill_cell ks d) =
    match Rooms.get k d with
    | Some r => Some r
    | None =>
        if bool_decide (k ∈ ks)
        then Some (Room.mk "Wilderness" "Tall grass stretches in all directions."
                           k [] None false None)
        else None
    end.
Proof.
  induction ks as [|xy ks IH]; intros d k; cbn [fold_left].
  - rewrite bool_decide_eq_false_2 by (intros Hc; inversion Hc). by destruct (Rooms.get k d).
  - rewrite IH, fill_cell_get. destruct (Rooms.get k d) as [r|]; [done|].
    destruct (Rooms.key_eqb xy k) eqn:E.
    + apply key_eqb_eq in E as ->. rewrite bool_decide_eq_true_2 by constructor. done.
    + assert (xy <> k) by (intros ->; by rewrite key_eqb_refl in E).
      destruct (bool_decide (k ∈ ks)) eqn:Hin.
      * apply bool_decide_eq_true in Hin. rewrite bool_decide_eq_true_2 by (by constructor). done.
      * apply bool_decide_eq_false in Hin.
        rewrite bool_decide_eq_false_2; [done|].
        intros Hc. apply list_elem_of_In in Hc as [Hc|Hc]; [done|]. by apply Hin, list_elem_of_In.
Qed.

Lemma fill_as_cells w h d :
  World.fill w h d =
    fold_left World.fill_cell
      (flat_map (fun x => map (fun y => (x, y)) (World.range h)) (World.range w)) d.
Proof.
  unfold World.fill. generalize (World.range w) as xs. intros xs. revert d.
  induction xs as [|x xs IH]; intros d; cbn [fold_left flat_map]; [done|].
  rewrite fold_left_app, IH. f_equal.
  generalize (World.range h) as ys. intros ys. revert d.
  induction ys as [|y ys IHy]; intros d; cbn [fold_left map]; [done|]. apply IHy.
Qed.

Lemma elem_of_range n z : z ∈ World.range n <-> 0 <= z < n.
Proof.
  unfold World.range. rewrite list_elem_of_fmap. split.
  - intros (i & -> & Hi). apply list_elem_of_In, in_seq in Hi. lia.
  - intros Hz. exists (Z.to_nat z). split; [lia|].
    apply list_elem_of_In, in_seq. lia.
Qed.

Lemma elem_of_cells w h xy :
  xy ∈ flat_map (fun x => map (fun y => (x, y)) (World.range h)) (World.range w) <->
  0 <= fst xy < w /\ 0 <= snd xy < h.
Proof.
  rewrite list_elem_of_In, in_flat_map. split.
  - intros (x & Hx & Hin). apply in_map_iff in Hin as (y & <- & Hy).
    apply list_elem_of_In, elem_of_range in Hx. apply list_elem_of_In, elem_of_range in Hy.
    done.
  - intros [Hx Hy]. exists (fst xy). split.
    + by apply list_elem_of_In, elem_of_range.
    + apply in_map_iff. exists (snd xy). split; [by destruct xy|].
      by apply list_elem_of_In, elem_of_range.
Qed.

Lemma fill_get w h d k :
  Rooms.get k (World.fill w h d) =
    match Rooms.get k d with
    | Some r => Some r
    | None =>
        if (0 <=? fst k) && (fst k <? w) && (0 <=? snd k) && (snd k <? h)
        then Some (Room.mk "Wilderness" "Tall grass stretches in all directions."
                           k [] None false None)
        else None
    end.
Proof.
  rewrite fill_as_cells, fill_cells_get. destruct (Rooms.get k d); [done|].
  destruct (bool_decide _) eqn:Hin.
  - apply bool_decide_eq_true, elem_of_cells in Hin.
    replace ((0 <=? fst k) && (fst k <? w) && (0 <=? snd k) && (snd k <? h)) with true; [done|].
    symmetry. rewrite !andb_true_iff, !Z.leb_le, !Z.ltb_lt. lia.
  - apply bool_decide_eq_false in Hin. rewrite elem_of_cells in Hin.
    replace ((0 <=? fst k) && (fst k <? w) && (0 <=? snd k) && (snd k <? h)) with false; [done|].
    symmetry. apply not_true_iff_false. rewrite !andb_true_iff, !Z.leb_le, !Z.ltb_lt. lia.
Qed.

(** The rooms dict [_generate] builds before the random key: the named
    rooms, the wilderness and the keep. *)
Lemma world_init_run w h rt :
  exists d0 rt0,
    (forall k r, Rooms.get k d0 = Some r -> Room.pos r = k) /\
    (forall k, Rooms.get k d0 <> None ->
       k ∈ [(1, 1); (1, 2); (2, 1); (2, 2); (0, 1); (1, 0); (3, 1); (3, 2); (4, 1); (2, 3)]) /\
    Rooms.get (2, 2) d0 <> None /\
    World.init w h rt =
      match Rooms.get (4, 4) (World.fill w h d0) with
      | None => (Raise KeyError, rt0)
      | Some keep =>
          let d := Rooms.set (4, 4)
                     (Room.set_enemy
                        (Some (World._create_enemy "Obsidian Warden" (Some 60) (Some 10)
                                 (Some 4) (Some 4)))
                        (Room.set_desc
                           "A fortress of black glass looms before you. Dark energy radiates from within."
                           (Room.set_name "Obsidian Keep" keep)))
                     (World.fill w h d0) in
          (do u <- random_float;
           do d <-
             if PyFloat.lt u PyFloat.f_0_9 then
               do key <- Item.new "rusty_key" "Rusty Key"
                           "An old iron key. Might fit an ancient lock." "key" 0 0;
               match Rooms.get (2, 2) d with
               | Some r => ret (Rooms.set (2, 2) (Room.set_items (Room.items r ++ [key]) r) d)
               | None => raise KeyError
               end
             else ret d;
           ret (World.mk w h d)) rt0
      end.
Proof.
  eexists _, _. split; [|split; [|split]]; cycle 3.
  - unfold World.init, Item.new, bind, fresh_oid, ret, raise. cbn [next_oid rng].
    match goal with
    | |- ?L = ?R =>
        match L with
        | context [World.fill w h ?D] =>
            match R with
            | context [World.fill w h ?E] => unify E D
            end
        end
    end.
    destruct (Rooms.get (4, 4) _); reflexivity.
  - intros k r. unfold World.add_room. rewrite !rooms_get_set. cbn [Rooms.get].
    repeat (destruct (Rooms.key_eqb _ k) eqn:?E;
            [apply key_eqb_eq in E as <-; by intros [= <-]|clear E]).
    done.
  - intros k. unfold World.add_room. rewrite !rooms_get_set. cbn [Rooms.get].
    repeat (destruct (Rooms.key_eqb _ k) eqn:?E;
            [apply key_eqb_eq in E as <-; intros _; apply list_elem_of_In; cbn; tauto|clear E]).
    done.
  - unfold World.add_room. rewrite !rooms_get_set. cbn. done.
Qed.

(** [World(width, height)] returns for a grid of at least 5 x 5, and then
    every cell of the grid has a room, which knows its place. *)
Theorem world_init_full_grid w h rt :
  5 <= w -> 5 <= h ->
  exists wd rt',
    World.init w h rt = (Ok wd, rt') /\
    World.width wd = w /\ World.height wd = h /\ full_grid wd.
Proof.
  intros Hw Hh.
  destruct (world_init_run w h rt) as (d0 & rt0 & Hpos & Hkeys & H22 & ->).
  assert (Hfill: forall k r, Rooms.get k (World.fill w h d0) = Some r -> Room.pos r = k).
  { intros k r. rewrite fill_get. destruct (Rooms.get k d0) as [r0|] eqn:Hk.
    - intros [= <-]. by apply Hpos.
    - destruct (_ && _); [by intros [= <-]|done]. }
  assert (Hgrid: forall k, 0 <= fst k < w /\ 0 <= snd k < h ->
            exists r, Rooms.get k (World.fill w h d0) = Some r).
  { intros k Hk. rewrite fill_get. destruct (Rooms.get k d0); [eauto|].
    replace ((0 <=? fst k) && (fst k <? w) && (0 <=? snd k) && (snd k <? h)) with true; [eauto|].
    symmetry. rewrite !andb_true_iff, !Z.leb_le, !Z.ltb_lt. lia. }
  destruct (Hgrid (4, 4)) as [keep Hkeep]; [cbn; lia|]. rewrite Hkeep. cbv zeta.
  set (d1 := Rooms.set (4, 4) _ _).
  assert (H1: forall k r, Rooms.get k d1 = Some r -> Room.pos r = k).
  { intros k r. unfold d1. rewrite rooms_get_set. destruct (Rooms.key_eqb (4, 4) k) eqn:E.
    - apply key_eqb_eq in E as <-. intros [= <-]. cbn. by apply Hfill.
    - apply Hfill. }
  assert (G1: forall k, 0 <= fst k < w /\ 0 <= snd k < h -> exists r, Rooms.get k d1 = Some r).
  { intros k Hk. unfold d1. rewrite rooms_get_set. destruct (Rooms.key_eqb (4, 4) k); eauto. }
  unfold bind at 1. rewrite random_float_draw.
  destruct (PyFloat.lt _ _).
  - unfold bind, Item.new, bind, fresh_oid, ret. cbn [next_oid rng].
    destruct (G1 (2, 2)) as [r22 Hr22]; [cbn; lia|]. rewrite Hr22.
    eexists _, _. split; [reflexivity|]. split; [done|]. split; [done|].
    intros k Hk. apply in_bounds_spec in Hk. cbn [World.width World.height] in Hk.
    unfold World.get_room. cbn [World.rooms]. rewrite rooms_get_set.
    destruct (Rooms.key_eqb (2, 2) k) eqn:E.
    + apply key_eqb_eq in E as <-. eexists. split; [done|]. cbn. by apply H1.
    + destruct (G1 k Hk) as [r Hr]. exists r. split; [done|]. by apply H1.
  - unfold bind, ret. eexists _, _. split; [reflexivity|]. split; [done|]. split; [done|].
    intros k Hk. apply in_bounds_spec in Hk. cbn [World.width World.height] in Hk.
    unfold World.get_room. cbn [World.rooms].
    destruct (G1 k Hk) as [r Hr]. exists r. split; [done|]. by apply H1.
Qed.

(** [World(5, 5)], as [Game()] calls it. *)
Lemma world_init_full_grid_witness :
  exists wd rt',
    World.init 5 5 boot = (Ok wd, rt') /\
    World.width wd = 5 /\ World.height wd = 5 /\ full_grid wd.
Proof. apply (world_init_full_grid 5 5 boot); lia. Defined.

(** [World(width, height)] with a side below 5 raises [KeyError]: the keep
    at (4, 4) is not there to be renamed. *)
Theorem world_init_too_small w h rt :
  w < 5 \/ h < 5 -> fst (World.init w h rt) = Raise KeyError.
Proof.
  intros Hsmall.
  destruct (world_init_run w h rt) as (d0 & rt0 & _ & Hkeys & _ & ->).
  rewrite fill_get. destruct (Rooms.get (4, 4) d0) eqn:H44.
  - assert (Hin: (4, 4) ∈ [(1, 1); (1, 2); (2, 1); (2, 2); (0, 1); (1, 0); (3, 1); (3, 2);
                           (4, 1); (2, 3)]) by (apply Hkeys; congruence).
    apply list_elem_of_In in Hin. cbn in Hin.
    repeat (destruct Hin as [Hin|Hin]; [discriminate|]). done.
  - cbn [fst snd].
    replace ((0 <=? 4) && (4 <? w) && (0 <=? 4) && (4 <? h)) with false; [done|].
    symmetry. apply not_true_iff_false. rewrite !andb_true_iff, !Z.leb_le, !Z.ltb_lt. lia.
Qed.

Lemma world_init_too_small_witness : fst (World.init 4 5 boot) = Raise KeyError.
Proof. apply (world_init_too_small 4 5 boot). left. lia. Defined.

(** ** [neighbors] *)

Lemma lookup_neighbors w p d :
  Game.lookup_dir d (World.neighbors w p) =
    if String.eqb "north" d then
      if World.in_bounds w (fst p, snd p - 1) then Some (fst p, snd p - 1) else None
    else if String.eqb "south" d then
      if World.in_bounds w (fst p, snd p + 1) then Some (fst p, snd p + 1) else None
    else if String.eqb "west" d then
      if World.in_bounds w (fst p - 1, snd p) then Some (fst p - 1, snd p) else None
    else if String.eqb "east" d then
      if World.in_bounds w (fst p + 1, snd p) then Some (fst p + 1, snd p) else None
    else None.
Proof.
  unfold World.neighbors. cbn [List.filter snd].
  destruct (World.in_bounds w (fst p, snd p - 1)), (World.in_bounds w (fst p, snd p + 1)),
    (World.in_bounds w (fst p - 1, snd p)), (World.in_bounds w (fst p + 1, snd p));
    cbn [Game.lookup_dir];
    repeat (match goal with |- context [String.eqb ?a d] => destruct (String.eqb_spec a d) as [<-|?] end;
            try reflexivity).
Qed.

(** A neighbour is one step away, inside the grid, and the opposite
    direction leads back from it. *)
Theorem neighbors_lead_back w p d q :
  World.in_bounds w p = true ->
  Game.lookup_dir d (World.neighbors w p) = Some q ->
  manhattan p q = 1 /\
  World.in_bounds w q = true /\
  Game.lookup_dir (opposite d) (World.neighbors w q) = Some p.
Proof.
  intros Hp. destruct p as [x y]. rewrite !lookup_neighbors. unfold opposite, manhattan.
  cbn [fst snd].
  destruct (String.eqb_spec "north" d) as [<-|_].
  { destruct (World.in_bounds w (x, y - 1)) eqn:Hq; [|done]. intros [= <-].
    cbn [fst snd String.eqb Ascii.eqb Bool.eqb andb].
    replace (y - 1 + 1) with y by lia. rewrite Hp. repeat split; [lia|done]. }
  destruct (String.eqb_spec "south" d) as [<-|_].
  { destruct (World.in_bounds w (x, y + 1)) eqn:Hq; [|done]. intros [= <-].
    cbn [fst snd String.eqb Ascii.eqb Bool.eqb andb].
    replace (y + 1 - 1) with y by lia. rewrite Hp. repeat split; [lia|done]. }
  destruct (String.eqb_spec "west" d) as [<-|_].
  { destruct (World.in_bounds w (x - 1, y)) eqn:Hq; [|done]. intros [= <-].
    cbn [fst snd String.eqb Ascii.eqb Bool.eqb andb].
    replace (x - 1 + 1) with x by lia. rewrite Hp. repeat split; [lia|done]. }
  destruct (String.eqb_spec "east" d) as [<-|_]; [|done].
  destruct (World.in_bounds w (x + 1, y)) eqn:Hq; [|done]. intros [= <-].
  cbn [fst snd String.eqb Ascii.eqb Bool.eqb andb].
  replace (x + 1 - 1) with x by lia. rewrite Hp. repeat split; [lia|done].
Qed.

(** From the crossroads of the new game, east leads to (2, 1) and west
    leads back. *)
Lemma neighbors_lead_back_witness :
  manhattan (1, 1) (2, 1) = 1 /\
  World.in_bounds (Game.world new_game) (2, 1) = true /\
  Game.lookup_dir (opposite "east") (World.neighbors (Game.world new_game) (2, 1)) =
    Some (1, 1).
Proof.
  apply (neighbors_lead_back (Game.world new_game) (1, 1) "east" (2, 1));
    vm_compute; reflexivity.
Defined.

(** ** [cmd_move] *)

Lemma reveal_twice (q : Z * Z) (D : gset (Z * Z)) : {[q]} ∪ ({[q]} ∪ D) = {[q]} ∪ D.
Proof. apply set_eq. intros x. rewrite !elem_of_union. tauto. Qed.

Lemma reveal_grows (q : Z * Z) (D : gset (Z * Z)) : D ⊆ {[q]} ∪ D.
Proof. intros x Hx. apply elem_of_union. by right. Qed.

Lemma cmd_look_ok g r rt :
  Game.current_room g = Some r -> Game.cmd_look g rt = (Ok (Game.reveal_current g), rt).
Proof. intros H. unfold Game.cmd_look. by rewrite H. Qed.

(** [random_event] returns; it finds at most 5 gold and changes nothing
    else. *)
Lemma random_event_gold g rt :
  exists g' rt',
    Game.random_event g rt = (Ok g', rt') /\
    (g' = g \/
     exists found, 1 <= found <= 5 /\
       g' = Game.set_player
              (Player.set_gold (Player.gold (Game.player g) + found) (Game.player g)) g).
Proof.
  unfold Game.random_event, bind. rewrite random_float_draw.
  repeat (destruct (PyFloat.lt _ _); [by eexists _, _; split; [reflexivity|left]|]).
  destruct (PyFloat.lt _ _).
  - rewrite randint_draw. eexists _, _. split; [reflexivity|]. right.
    eexists. split; [|reflexivity]. apply draw_int_range. lia.
  - destruct (PyFloat.lt _ _); by eexists _, _; split; [reflexivity|left].
Qed.

(** An unknown direction, a direction that leaves the grid and a locked
    room leave the game as it is, and no random number is drawn. *)
Theorem cmd_move_blocked d g rt :
  (Game.lookup_dir (Str.lower (Str.strip d))
     (World.neighbors (Game.world g) (Player.pos (Game.player g))) = None \/
   exists q r,
     Game.lookup_dir (Str.lower (Str.strip d))
       (World.neighbors (Game.world g) (Player.pos (Game.player g))) = Some q /\
     World.get_room (Game.world g) q = Some r /\ Room.locked r = true) ->
  Game.cmd_move d g rt = (Ok g, rt).
Proof.
  intros H. unfold Game.cmd_move. destruct (String.eqb d EmptyString); [done|].
  destruct H as [->|(q & r & -> & -> & ->)]; done.
Qed.

(** In the new game the cave south of the bandit camp is locked. *)
Lemma cmd_move_blocked_witness :
  Game.cmd_move "South" (game_of (Player.set_pos (3, 1) starter)) (rt_of []) =
    (Ok (game_of (Player.set_pos (3, 1) starter)), rt_of []).
Proof.
  apply (cmd_move_blocked "South" (game_of (Player.set_pos (3, 1) starter)) (rt_of [])).
  right. eexists _, _. split; [vm_compute; reflexivity|]. split; vm_compute; reflexivity.
Defined.

(** A step into an unlocked neighbouring room: the player stands there,
    the turn is counted, the room is revealed, and the random event that
    follows adds at most 5 gold.  Nothing else changes. *)
Theorem cmd_move_enters d g rt q r :
  d <> EmptyString ->
  Game.lookup_dir (Str.lower (Str.strip d))
    (World.neighbors (Game.world g) (Player.pos (Game.player g))) = Some q ->
  World.get_room (Game.world g) q = Some r ->
  Room.locked r = false ->
  exists g' rt',
    Game.cmd_move d g rt = (Ok g', rt') /\
    Player.pos (Game.player g') = q /\
    Game.turn_count g' = Game.turn_count g + 1 /\
    Player.discovered (Game.player g') = {[q]} ∪ Player.discovered (Game.player g) /\
    Player.gold (Game.player g) <= Player.gold (Game.player g') <=
      Player.gold (Game.player g) + 5 /\
    Game.world g' = Game.world g /\
    Game.merchant_goods g' = Game.merchant_goods g /\
    Player.base (Game.player g') = Player.base (Game.player g) /\
    Player.inventory (Game.player g') = Player.inventory (Game.player g) /\
    Player.equipped_weapon (Game.player g') = Player.equipped_weapon (Game.player g) /\
    Player.equipped_armor (Game.player g') = Player.equipped_armor (Game.player g) /\
    Player.quests (Game.player g') = Player.quests (Game.player g).
Proof.
  intros Hd Hdir Hroom Hlock. unfold Game.cmd_move.
  apply String.eqb_neq in Hd. rewrite Hd, Hdir, Hroom, Hlock. cbv zeta.
  unfold bind.
  erewrite cmd_look_ok by (unfold Game.current_room; cbn; exact Hroom).
  match goal with |- context [Game.random_event ?g0 rt] =>
    destruct (random_event_gold g0 rt) as (g' & rt' & -> & Hg') end.
  exists g', rt'. split; [done|].
  destruct Hg' as [->|(found & Hf & ->)]; cbn.
  - repeat split; try done; try lia. apply reveal_twice.
  - repeat split; try done; try lia. apply reveal_twice.
Qed.

(** From the crossroads of the new game, east is the way to the
    whispering trees. *)
Lemma cmd_move_enters_witness :
  exists r g' rt',
    World.get_room (Game.world new_game) (2, 1) = Some r /\
    Game.cmd_move "east" new_game (rt_of [4503599627370496%N]) = (Ok g', rt') /\
    Player.pos (Game.player g') = (2, 1) /\
    Game.turn_count g' = 1.
Proof.
  destruct (World.get_room (Game.world new_game) (2, 1)) as [r|] eqn:Hr;
    [|vm_compute in Hr; discriminate].
  destruct (cmd_move_enters "east" new_game (rt_of [4503599627370496%N]) (2, 1) r)
    as (g' & rt' & H & Hpos & Hturn & _).
  - discriminate.
  - vm_compute. reflexivity.
  - exact Hr.
  - vm_compute in Hr. injection Hr as <-. reflexivity.
  - exists r, g', rt'. split; [reflexivity|]. split; [exact H|]. split; [exact Hpos|exact Hturn].
Defined.

(** In a world whose grid is full, as [World()] builds it, [cmd_move]
    always returns: it keeps the world, forgets no discovered room, counts
    at most one turn and adds at most 5 gold. *)
Theorem cmd_move_returns d g rt :
  full_grid (Game.world g) ->
  exists g' rt',
    Game.cmd_move d g rt = (Ok g', rt') /\
    Game.world g' = Game.world g /\
    Player.discovered (Game.player g) ⊆ Player.discovered (Game.player g') /\
    Game.turn_count g <= Game.turn_count g' <= Game.turn_count g + 1 /\
    Player.gold (Game.player g) <= Player.gold (Game.player g') <=
      Player.gold (Game.player g) + 5.
Proof.
  intros Hgrid.
  destruct (String.eqb_spec d EmptyString) as [->|Hd].
  { exists g, rt. repeat split; try done; lia. }
  destruct (Game.lookup_dir (Str.lower (Str.strip d))
              (World.neighbors (Game.world g) (Player.pos (Game.player g)))) as [q|] eqn:Hdir.
  - destruct (Hgrid q) as (r & Hr & _); [by eapply neighbors_in_bounds|].
    destruct (Room.locked r) eqn:Hlock.
    + exists g, rt. split; [|repeat split; try done; lia].
      apply cmd_move_blocked. right. by exists q, r.
    + destruct (cmd_move_enters d g rt q r Hd Hdir Hr Hlock)
        as (g' & rt' & -> & _ & Ht & Hdisc & Hgold & Hw & _).
      exists g', rt'. split; [done|]. split; [done|].
      split; [rewrite Hdisc; apply reveal_grows|]. split; lia.
  - exists g, rt. split; [|repeat split; try done; lia].
    apply cmd_move_blocked. by left.
Qed.

(** The world of the new game has a full grid. *)
Lemma new_game_full_grid : full_grid (Game.world new_game).
Proof.
  intros [x y] H. apply in_bounds_spec in H.
  change (World.width (Game.world new_game)) with 5 in H.
  change (World.height (Game.world new_game)) with 5 in H. cbn [fst snd] in H.
  assert (Hx: x = 0 \/ x = 1 \/ x = 2 \/ x = 3 \/ x = 4) by lia.
  assert (Hy: y = 0 \/ y = 1 \/ y = 2 \/ y = 3 \/ y = 4) by lia.
  clear H.
  destruct Hx as [->|[->|[->|[->| ->]]]], Hy as [->|[->|[->|[->| ->]]]];
    (eexists; split; [vm_compute; reflexivity|reflexivity]).
Qed.

(** In the new game a step west returns. *)
Lemma cmd_move_returns_witness :
  exists g' rt',
    Game.cmd_move "west" new_game (rt_of []) = (Ok g', rt') /\
    Game.world g' = Game.world new_game /\
    Player.discovered (Game.player new_game) ⊆ Player.discovered (Game.player g') /\
    Game.turn_count new_game <= Game.turn_count g' <= Game.turn_count new_game + 1 /\
    Player.gold (Game.player new_game) <= Player.gold (Game.player g') <=
      Player.gold (Game.player new_game) + 5.
Proof. apply (cmd_move_returns "west" new_game (rt_of [])). exact new_game_full_grid. Defined.

(** ** The inventory *)

Lemma remove_by_id_first id_ inv :
  match Player.remove_by_id id_ inv with
  | (Some it, rest) =>
      exists before after,
        inv = before ++ it :: after /\
        Item.id it = id_ /\
        Forall (fun x => Item.id x <> id_) before /\
        rest = before ++ after
  | (None, rest) => Forall (fun x => Item.id x <> id_) inv /\ rest = inv
  end.
Proof.
  induction inv as [|it inv IH]; cbn; [done|].
  destruct (String.eqb_spec (Item.id it) id_) as [Hid|Hid].
  - exists [], inv. by repeat split.
  - destruct (Player.remove_by_id id_ inv) as [[x|] rest].
    + destruct IH as (before & after & -> & Hx & Hb & ->).
      exists (it :: before), after. repeat split; try done. by constructor.
    + destruct IH as [Hall ->]. split; [by constructor|done].
Qed.

Lemma set_inventory_same p : Player.set_inventory (Player.inventory p) p = p.
Proof. by destruct p. Qed.

(** [remove_item_by_id] pops the first item that carries the id and keeps
    the others in their order; when no item carries it, it returns [None]
    and leaves the player as it is. *)
Theorem remove_item_by_id_first id_ p :
  match Player.remove_item_by_id id_ p with
  | (Some it, p') =>
      exists before after,
        Player.inventory p = before ++ it :: after /\
        Item.id it = id_ /\
        Forall (fun x => Item.id x <> id_) before /\
        p' = Player.set_inventory (before ++ after) p
  | (None, p') => Forall (fun x => Item.id x <> id_) (Player.inventory p) /\ p' = p
  end.
Proof.
  unfold Player.remove_item_by_id.
  pose proof (remove_by_id_first id_ (Player.inventory p)) as H.
  destruct (Player.remove_by_id id_ (Player.inventory p)) as [[it|] rest].
  - destruct H as (before & after & Hinv & Hid & Hb & ->). by exists before, after.
  - destruct H as [Hall ->]. split; [done|apply set_inventory_same].
Qed.

(** An item added to an inventory that holds no item of its id is the one
    [remove_item_by_id] gives back, and the player is as before. *)
Theorem add_then_remove_item it p :
  Forall (fun x => Item.id x <> Item.id it) (Player.inventory p) ->
  Player.remove_item_by_id (Item.id it) (Player.add_item it p) = (Some it, p).
Proof.
  intros Hall. unfold Player.remove_item_by_id, Player.add_item.
  cbn [Player.inventory Player.set_inventory].
  assert (H: Player.remove_by_id (Item.id it) (Player.inventory p ++ [it]) =
             (Some it, Player.inventory p)).
  { induction Hall as [|x l Hx Hl IH]; cbn.
    - by rewrite String.eqb_refl.
    - apply String.eqb_neq in Hx. by rewrite Hx, IH. }
  rewrite H. by destruct p.
Qed.

Lemma add_then_remove_item_witness :
  Player.remove_item_by_id "potion" (Player.add_item potion starter) = (Some potion, starter).
Proof.
  apply (add_then_remove_item potion starter).
  vm_compute. repeat constructor; discriminate.
Defined.

(** ** [Item.from_dict] *)

(** [Item.from_dict] needs the keys [id], [name] and [desc]: when one of
    them is missing (and those before it hold strings) it raises
    [KeyError], and no object is created. *)
Theorem item_from_dict_required data rt :
  data !! "id" = None \/
  (exists i, data !! "id" = Some (VStr i)) /\
    (data !! "name" = None \/
     (exists n, data !! "name" = Some (VStr n)) /\ data !! "desc" = None) ->
  Item.from_dict data rt = (Raise KeyError, rt).
Proof.
  unfold Item.from_dict, bind, lift, item_str.
  intros [->|[[i ->] [->|[[n ->] ->]]]]; reflexivity.
Qed.

(** A dict read from a save file that lost its description. *)
Lemma item_from_dict_required_witness :
  Item.from_dict (<["id" := VStr "herb"]> (<["name" := VStr "Healing Herb"]> ∅)) boot =
    (Raise KeyError, boot).
Proof.
  apply (item_from_dict_required _ boot). right. split; [by eexists|].
  right. split; [by eexists|]. reflexivity.
Defined.

(** ** [gain_xp] and the levels *)

Lemma level_up_frame p p' :
  Player._level_up p = Ok p' ->
  Player.name p' = Player.name p /\
  Player.dodge p' = Player.dodge p /\
  Player.pos p' = Player.pos p /\
  Player.gold p' = Player.gold p /\
  Player.inventory p' = Player.inventory p /\
  Player.equipped_weapon p' = Player.equipped_weapon p /\
  Player.equipped_armor p' = Player.equipped_armor p /\
  Player.discovered p' = Player.discovered p /\
  Player.quests p' = Player.quests p.
Proof.
  unfold Player._level_up. destruct (PyFloat.int_mul _ _); [|discriminate].
  intros [= <-]. by repeat split.
Qed.

Lemma gain_xp_loop_levels fuel : forall p p',
  Player.gain_xp_loop fuel p = Some (Ok p') ->
  0 <= Player.level p' - Player.level p /\
  Player.max_hp p' = Player.max_hp p + 8 * (Player.level p' - Player.level p) /\
  Player.atk p' = Player.atk p + 2 * (Player.level p' - Player.level p) /\
  Player.defense p' = Player.defense p + (Player.level p' - Player.level p) /\
  Player.xp p' < Player.xp_to_next p' /\
  (Player.level p' = Player.level p -> p' = p) /\
  (Player.level p < Player.level p' -> Player.hp p' = Player.max_hp p') /\
  Player.name p' = Player.name p /\
  Player.dodge p' = Player.dodge p /\
  Player.pos p' = Player.pos p /\
  Player.gold p' = Player.gold p /\
  Player.inventory p' = Player.inventory p /\
  Player.equipped_weapon p' = Player.equipped_weapon p /\
  Player.equipped_armor p' = Player.equipped_armor p.
Proof.
  induction fuel as [|fuel IH]; intros p p'.
  - cbn. destruct (Z.leb_spec (Player.xp_to_next p) (Player.xp p)); [done|].
    intros [= <-]. repeat split; try done; lia.
  - rewrite gain_xp_loop_S.
    destruct (Z.leb_spec (Player.xp_to_next p) (Player.xp p)).
    + destruct (Player._level_up _) as [q|] eqn:Hq; [|discriminate].
      intros Hloop. apply IH in Hloop.
      pose proof (level_up_fields _ _ Hq) as (_ & _ & Hl & Hm & Hh & Ha & Hd).
      pose proof (level_up_frame _ _ Hq) as (Hn & Hdg & Hp & Hg & Hi & Hw & Hr & _).
      destruct Hloop as (L0 & L1 & L2 & L3 & L4 & L5 & L6 & L7 & L8 & L9 & L10 & L11 & L12 & L13).
      unfold Player.max_hp, Player.hp, Player.atk, Player.defense, Player.name,
        Player.dodge in *.
      cbn [Player.set_xp Player.base Player.level Player.pos Player.gold Player.inventory
           Player.equipped_weapon Player.equipped_armor] in *.
      repeat split; try lia; try congruence.
      intros _. destruct (Z.eq_dec (Player.level p') (Player.level q)) as [E|E].
      * rewrite (L5 E). lia.
      * apply L6. lia.
    + intros [= <-]. repeat split; try done; lia.
Qed.

(** What [gain_xp] leaves behind when it returns: with [n] the number of
    levels gained, [max_hp] grew by [8 n], [atk] by [2 n] and [defense] by
    [n]; the experience left is below the next threshold; the hit points
    are full when a level was gained and untouched otherwise; name, dodge,
    position, gold, inventory and equipment are as before. *)
Theorem gain_xp_levels fuel amount p p' :
  Player.gain_xp fuel amount p = Some (Ok p') ->
  0 <= Player.level p' - Player.level p /\
  Player.max_hp p' = Player.max_hp p + 8 * (Player.level p' - Player.level p) /\
  Player.atk p' = Player.atk p + 2 * (Player.level p' - Player.level p) /\
  Player.defense p' = Player.defense p + (Player.level p' - Player.level p) /\
  Player.xp p' < Player.xp_to_next p' /\
  (Player.level p' = Player.level p ->
     Player.hp p' = Player.hp p /\ Player.xp p' = Player.xp p + amount /\
     Player.xp_to_next p' = Player.xp_to_next p) /\
  (Player.level p < Player.level p' -> Player.hp p' = Player.max_hp p') /\
  Player.name p' = Player.name p /\
  Player.dodge p' = Player.dodge p /\
  Player.pos p' = Player.pos p /\
  Player.gold p' = Player.gold p /\
  Player.inventory p' = Player.inventory p /\
  Player.equipped_weapon p' = Player.equipped_weapon p /\
  Player.equipped_armor p' = Player.equipped_armor p.
Proof.
  unfold Player.gain_xp. intros H. apply gain_xp_loop_levels in H. cbn in H.
  destruct H as (L0 & L1 & L2 & L3 & L4 & L5 & L6 & L7 & L8 & L9 & L10 & L11 & L12 & L13).
  repeat split; try done.
  all: match goal with E : Player.level _ = Player.level _ |- _ => by rewrite (L5 E) end.
Qed.

(** The starting player who gains 90 XP is at level 3 with 56 hit points
    out of 56. *)
Lemma gain_xp_levels_witness :
  exists p',
    Player.gain_xp 3 90 hero = Some (Ok p') /\
    Player.level p' = 3 /\
    Player.max_hp p' = Player.max_hp hero + 8 * (Player.level p' - Player.level hero) /\
    Player.hp p' = 56.
Proof.
  destruct (Player.gain_xp 3 90 hero) as [[p'|]|] eqn:H;
    [|vm_compute in H; discriminate|vm_compute in H; discriminate].
  exists p'. split; [reflexivity|].
  destruct (gain_xp_levels 3 90 hero p' H) as (_ & Hm & _).
  assert (Hv: Some (Ok p') = Player.gain_xp 3 90 hero) by (symmetry; exact H).
  vm_compute in Hv. injection Hv as ->. split; [reflexivity|]. split; [exact Hm|reflexivity].
Defined.

(** ** Using, equipping, taking and dropping items *)

Lemma find_item_In name_ p it :
  Player.find_item name_ p = Some it -> In it (Player.inventory p).
Proof.
  intros H. pose proof (find_item_loop_first_match name_ (Player.inventory p)) as Hm.
  unfold Player.find_item in H. rewrite H in Hm.
  destruct Hm as (before & after & -> & _). apply in_or_app. right. by left.
Qed.

(** Removing by the id of an item that is in the inventory pops one item,
    the first of that id; it is the item itself when ids are distinct. *)
Lemma remove_by_id_found it inv :
  In it inv ->
  exists before x after,
    inv = before ++ x :: after /\
    Item.id x = Item.id it /\
    Forall (fun y => Item.id y <> Item.id it) before /\
    Player.remove_by_id (Item.id it) inv = (Some x, before ++ after) /\
    (distinct_ids inv -> x = it).
Proof.
  intros Hin. pose proof (remove_by_id_first (Item.id it) inv) as H.
  destruct (Player.remove_by_id (Item.id it) inv) as [[x|] rest].
  - destruct H as (before & after & -> & Hx & Hb & ->).
    exists before, x, after. repeat split; try done.
    intros Hd. unfold distinct_ids in Hd. rewrite map_app in Hd. cbn [map] in Hd.
    apply NoDup_app in Hd as (_ & _ & Hd). apply NoDup_cons in Hd as [Hx' _].
    apply in_app_or in Hin as [Hin|[Hin|Hin]]; [|done|].
    + rewrite List.Forall_forall in Hb. by apply Hb in Hin.
    + exfalso. apply Hx'. rewrite Hx. apply list_elem_of_In, in_map_iff. by exists it.
  - destruct H as [Hall _]. rewrite List.Forall_forall in Hall. by apply Hall in Hin.
Qed.

(** A consumable heals by its power, up to [max_hp] and never beyond, and
    one item of its id leaves the inventory (the consumable itself when
    ids are distinct).  Nothing else changes. *)
Theorem cmd_use_consumable name_ g it :
  name_ <> EmptyString ->
  Player.find_item name_ (Game.player g) = Some it ->
  Item.kind it = "consumable" ->
  let p := Game.player g in
  let p' := Game.player (Game.cmd_use name_ g) in
  Player.hp p' = Z.min (Player.max_hp p) (Player.hp p + Item.power it) /\
  Player.hp p' <= Player.max_hp p' /\
  Player.max_hp p' = Player.max_hp p /\
  (0 <= Item.power it -> Player.hp p <= Player.max_hp p -> Player.hp p <= Player.hp p') /\
  (exists before x after,
     Player.inventory p = before ++ x :: after /\
     Item.id x = Item.id it /\
     Forall (fun y => Item.id y <> Item.id it) before /\
     Player.inventory p' = before ++ after /\
     (distinct_ids (Player.inventory p) -> x = it)) /\
  Player.gold p' = Player.gold p /\
  Player.equipped_weapon p' = Player.equipped_weapon p /\
  Player.equipped_armor p' = Player.equipped_armor p /\
  Game.world (Game.cmd_use name_ g) = Game.world g.
Proof.
  intros Hn Hf Hk. unfold Game.cmd_use.
  rewrite (proj2 (String.eqb_neq name_ EmptyString) Hn), Hf, Hk.
  cbn [String.eqb Ascii.eqb Bool.eqb andb]. cbv zeta.
  destruct (remove_by_id_found it (Player.inventory (Game.player g)))
    as (before & x & after & Hinv & Hx & Hb & Hrm & Hd); [by eapply find_item_In|].
  unfold Player.remove_item_by_id.
  cbn [Player.inventory Player.set_hp Player.set_base]. rewrite Hrm.
  cbn. unfold Player.hp, Player.max_hp. cbn.
  repeat split; try done; try lia.
  exists before, x, after. by repeat split.
Qed.

(** The stale bread of the starter inventory restores 8 hit points to a
    player who has 10 of 40. *)
Lemma cmd_use_consumable_witness :
  let g := game_of (Player.set_hp 10 starter) in
  Player.hp (Game.player (Game.cmd_use "bread" g)) = 18 /\
  Player.inventory (Game.player (Game.cmd_use "bread" g)) = [knife; vest].
Proof.
  cbv zeta.
  destruct (cmd_use_consumable "bread" (game_of (Player.set_hp 10 starter)) bread)
    as (Hhp & _); [discriminate|vm_compute; reflexivity|reflexivity|].
  split; [rewrite Hhp; reflexivity|vm_compute; reflexivity].
Defined.

Lemma first_locked_near_spec xy d :
  match Game.first_locked_near xy d with
  | Some (k, room) =>
      In (k, room) d /\ Room.locked room = true /\ manhattan k xy <= 1
  | None =>
      forall k room, In (k, room) d -> Room.locked room = true -> 1 < manhattan k xy
  end.
Proof.
  unfold manhattan. induction d as [|[k room] d IH]; cbn [Game.first_locked_near]; [done|].
  destruct (Room.locked room) eqn:Hl; cbn [andb].
  - destruct (Z.leb_spec (Z.abs (fst k - fst xy) + Z.abs (snd k - snd xy)) 1).
    + split; [by left|done].
    + destruct (Game.first_locked_near xy d) as [[k' room']|].
      * destruct IH as (Hin & Hl' & Hd). split; [by right|done].
      * intros k' room' [[= <- <-]|Hin] Hl'; [done|by eapply IH].
  - destruct (Game.first_locked_near xy d) as [[k' room']|].
    + destruct IH as (Hin & Hl' & Hd). split; [by right|done].
    + intros k' room' [[= <- <-]|Hin] Hl'; [congruence|by eapply IH].
Qed.

(** A key opens one locked room at Manhattan distance at most 1 and is
    used up (one item of its id leaves the inventory); the other rooms stay
    as they are.  With no locked room that near, the game is unchanged and
    the key is kept. *)
Theorem cmd_use_key name_ g it :
  name_ <> EmptyString ->
  Player.find_item name_ (Game.player g) = Some it ->
  Item.kind it = "key" ->
  let g' := Game.cmd_use name_ g in
  ((forall k room, In (k, room) (World.rooms (Game.world g)) -> Room.locked room = true ->
      1 < manhattan k (Player.pos (Game.player g))) /\
   g' = g) \/
  (exists k room,
     In (k, room) (World.rooms (Game.world g)) /\
     Room.locked room = true /\
     manhattan k (Player.pos (Game.player g)) <= 1 /\
     World.get_room (Game.world g') k = Some (Room.set_locked false room) /\
     (forall k', k' <> k ->
        World.get_room (Game.world g') k' = World.get_room (Game.world g) k') /\
     S (length (Player.inventory (Game.player g'))) =
       length (Player.inventory (Game.player g)) /\
     Player.pos (Game.player g') = Player.pos (Game.player g)).
Proof.
  intros Hn Hf Hk. unfold Game.cmd_use.
  rewrite (proj2 (String.eqb_neq name_ EmptyString) Hn), Hf, Hk.
  cbn [String.eqb Ascii.eqb Bool.eqb andb]. cbv zeta.
  pose proof (first_locked_near_spec (Player.pos (Game.player g))
                (World.rooms (Game.world g))) as Hs.
  destruct (Game.first_locked_near _ _) as [[k room]|].
  - right. destruct Hs as (Hin & Hl & Hd). exists k, room.
    split; [done|]. split; [done|]. split; [done|].
    destruct (remove_by_id_found it (Player.inventory (Game.player g)))
      as (before & x & after & Hinv & Hx & Hb & Hrm & _); [by eapply find_item_In|].
    unfold Player.remove_item_by_id. rewrite Hrm.
    unfold World.get_room. cbn. split; [apply rooms_get_set_eq|].
    split; [intros k' Hk'; apply rooms_get_set_ne; congruence|].
    split; [|done]. rewrite Hinv, !length_app. cbn. lia.
  - left. done.
Qed.

(** In the new game the rusty key, used at the bandit camp, opens the
    cave south of it, and the way south is free. *)
Lemma cmd_use_key_witness :
  let rusty_key := Item.mk 5 "rusty_key" "Rusty Key"
                     "An old iron key. Might fit an ancient lock." "key" 0 0 in
  let g := game_of (Player.set_pos (3, 1) (Player.add_item rusty_key starter)) in
  exists room,
    World.get_room (Game.world g) (3, 2) = Some room /\
    Room.locked room = true /\
    World.get_room (Game.world (Game.cmd_use "key" g)) (3, 2) =
      Some (Room.set_locked false room) /\
    Player.inventory (Game.player (Game.cmd_use "key" g)) = [knife; vest; bread] /\
    match fst (Game.cmd_move "south" (Game.cmd_use "key" g) (rt_of [])) with
    | Ok g' => Player.pos (Game.player g') = (3, 2)
    | Raise _ => False
    end.
Proof.
  cbv zeta.
  set (rusty_key := Item.mk 5 "rusty_key" "Rusty Key"
                      "An old iron key. Might fit an ancient lock." "key" 0 0).
  set (g := game_of (Player.set_pos (3, 1) (Player.add_item rusty_key starter))).
  destruct (cmd_use_key "key" g rusty_key) as [[Hnone _]|(k & room & Hin & Hl & Hd & Hget & _)];
    [discriminate|vm_compute; reflexivity|reflexivity| |].
  - exfalso.
    specialize (Hnone (3, 2)
      (Room.mk "Mysterious Cave"
         "A dark cave entrance. Strange symbols are carved around the doorway."
         (3, 2) [] None true (Some "riddle"))).
    vm_compute in Hnone. assert (Lt = Lt) as E by reflexivity.
    specialize (Hnone ltac:(tauto) eq_refl). discriminate.
  - eexists. split; [vm_compute; reflexivity|]. split; [vm_compute; reflexivity|].
    split; [vm_compute; reflexivity|]. split; [vm_compute; reflexivity|].
    vm_compute. reflexivity.
Defined.

(** Equipping sets the slot of the item's kind and adds its power to the
    attack or to the defense; the item stays in the inventory and the other
    slot stays as it is.  Unequipping that slot afterwards gives back the
    game as it was when the slot was empty. *)
Theorem equip_then_unequip name_ g it :
  name_ <> EmptyString ->
  Player.find_item name_ (Game.player g) = Some it ->
  let p := Game.player g in
  let g1 := Game.cmd_equip name_ g in
  let p1 := Game.player g1 in
  (Item.kind it = "weapon" ->
     Player.equipped_weapon p1 = Some it /\
     Player.attack_power p1 = Player.atk p + Item.power it /\
     Player.defense_value p1 = Player.defense_value p /\
     Player.inventory p1 = Player.inventory p /\
     Player.attack_power (Game.player (Game.cmd_unequip "weapon" g1)) = Player.atk p /\
     (Player.equipped_weapon p = None -> Game.cmd_unequip "weapon" g1 = g)) /\
  (Item.kind it = "armor" ->
     Player.equipped_armor p1 = Some it /\
     Player.defense_value p1 = Player.defense p + Item.power it /\
     Player.attack_power p1 = Player.attack_power p /\
     Player.inventory p1 = Player.inventory p /\
     Player.defense_value (Game.player (Game.cmd_unequip "armor" g1)) = Player.defense p /\
     (Player.equipped_armor p = None -> Game.cmd_unequip "armor" g1 = g)) /\
  (Item.kind it <> "weapon" -> Item.kind it <> "armor" -> g1 = g).
Proof.
  intros Hn Hf. cbv zeta. unfold Game.cmd_equip.
  rewrite (proj2 (String.eqb_neq name_ EmptyString) Hn), Hf.
  split; [|split].
  - intros ->. cbn. repeat split. intros Hw. destruct g as [w p m r i t]. cbn in *.
    destruct p. cbn in *. by subst.
  - intros ->. cbn. repeat split. intros Hw. destruct g as [w p m r i t]. cbn in *.
    destruct p. cbn in *. by subst.
  - intros Hw Ha. apply String.eqb_neq in Hw, Ha. by rewrite Hw, Ha.
Qed.

(** The knife of the starter inventory raises the attack from 6 to 8. *)
Lemma equip_then_unequip_witness :
  Player.attack_power (Game.player (Game.cmd_equip "knife" new_game)) = 8 /\
  Game.cmd_unequip "weapon" (Game.cmd_equip "knife" new_game) = new_game.
Proof.
  destruct (equip_then_unequip "knife" new_game knife) as [H _];
    [discriminate|vm_compute; reflexivity|].
  destruct (H eq_refl) as (_ & Hatk & _ & _ & _ & Hback).
  split; [rewrite Hatk; reflexivity|apply Hback; reflexivity].
Defined.

Lemma take_from_spec name_ items :
  match Game.take_from name_ items with
  | Some (it, rest) =>
      exists before after,
        items = before ++ it :: after /\
        Str.contains name_ (Str.lower (Item.name it)) = true /\
        Forall (fun x => Str.contains name_ (Str.lower (Item.name x)) = false) before /\
        rest = before ++ after
  | None => Forall (fun x => Str.contains name_ (Str.lower (Item.name x)) = false) items
  end.
Proof.
  induction items as [|it items IH]; cbn [Game.take_from]; [done|].
  destruct (Str.contains name_ (Str.lower (Item.name it))) eqn:Hc.
  - exists [], items. by repeat split.
  - destruct (Game.take_from name_ items) as [[x rest]|].
    + destruct IH as (before & after & -> & Hx & Hb & ->).
      exists (it :: before), after. repeat split; try done. by constructor.
    + by constructor.
Qed.

(** [cmd_take] moves the first item on the ground whose lowercased name
    contains the given name to the end of the inventory; the other items
    of the room keep their order and the other rooms are untouched.  When
    no item matches, the game is unchanged.  Together, the inventory and
    the ground hold the same items as before. *)
Theorem cmd_take_moves name_ g g' :
  Game.cmd_take name_ g = Ok g' ->
  (g' = g \/
   exists room before it after,
     Game.current_room g = Some room /\
     Room.items room = before ++ it :: after /\
     Str.contains name_ (Str.lower (Item.name it)) = true /\
     Forall (fun x => Str.contains name_ (Str.lower (Item.name x)) = false) before /\
     Player.inventory (Game.player g') = Player.inventory (Game.player g) ++ [it] /\
     Game.current_room g' = Some (Room.set_items (before ++ after) room) /\
     (forall k, k <> Player.pos (Game.player g) ->
        World.get_room (Game.world g') k = World.get_room (Game.world g) k)) /\
  Permutation (Player.inventory (Game.player g') ++ items_here g')
              (Player.inventory (Game.player g) ++ items_here g).
Proof.
  unfold Game.cmd_take. destruct (String.eqb name_ EmptyString); [intros [= <-]; auto|].
  destruct (Game.current_room g) as [room|] eqn:Hroom; [|discriminate].
  pose proof (take_from_spec name_ (Room.items room)) as Hs.
  destruct (Game.take_from name_ (Room.items room)) as [[it rest]|]; [|intros [= <-]; auto].
  destruct Hs as (before & after & Hitems & Hc & Hb & ->). intros [= <-].
  assert (Hcur: Game.current_room
                  (Game.set_player (Player.add_item it (Game.player g))
                     (Game.set_world
                        (World.set_rooms
                           (Rooms.set (Player.pos (Game.player g))
                              (Room.set_items (before ++ after) room)
                              (World.rooms (Game.world g))) (Game.world g)) g)) =
                Some (Room.set_items (before ++ after) room)).
  { unfold Game.current_room, World.get_room. cbn. apply rooms_get_set_eq. }
  split.
  - right. exists room, before, it, after. repeat split; try done.
    intros k Hk. unfold World.get_room. cbn. apply rooms_get_set_ne. congruence.
  - unfold items_here. rewrite Hcur, Hroom, Hitems. cbn.
    rewrite <- !app_assoc. apply Permutation_app_head. cbn.
    apply Permutation_middle.
Qed.

(** In the meadow of the new game, [herb] picks up the healing herb. *)
Lemma cmd_take_moves_witness :
  exists g',
    Game.cmd_take "herb" (game_of (Player.set_pos (1, 0) starter)) = Ok g' /\
    map Item.name (Player.inventory (Game.player g')) =
      ["Traveler's Knife"; "Leather Vest"; "Stale Bread"; "Healing Herb"] /\
    items_here g' = [] /\
    Permutation (Player.inventory (Game.player g') ++ items_here g')
      (Player.inventory (Game.player (game_of (Player.set_pos (1, 0) starter))) ++
       items_here (game_of (Player.set_pos (1, 0) starter))).
Proof.
  destruct (Game.cmd_take "herb" (game_of (Player.set_pos (1, 0) starter))) as [g'|] eqn:H;
    [|vm_compute in H; discriminate].
  exists g'. split; [reflexivity|].
  pose proof (cmd_take_moves "herb" _ g' H) as [_ Hperm].
  assert (Hv: Ok g' = Game.cmd_take "herb" (game_of (Player.set_pos (1, 0) starter)))
    by (symmetry; exact H).
  vm_compute in Hv. injection Hv as ->.
  split; [vm_compute; reflexivity|]. split; [vm_compute; reflexivity|]. exact Hperm.
Defined.

Lemma lower_char_idem c : Str.lower_char (Str.lower_char c) = Str.lower_char c.
Proof. destruct c as [[] [] [] [] [] [] [] []]; reflexivity. Qed.

Lemma lower_idem s : Str.lower (Str.lower s) = Str.lower s.
Proof. induction s as [|c s IH]; cbn; [done|]. by rewrite lower_char_idem, IH. Qed.

Lemma append_cons c a b : String.append (String c a) b = String c (String.append a b).
Proof. reflexivity. Qed.

Lemma lower_app_fixed a b :
  Str.lower (String.append a b) = String.append a b -> Str.lower a = a /\ Str.lower b = b.
Proof.
  induction a as [|c a IH].
  - intros H. split; [done|exact H].
  - rewrite append_cons. cbn [Str.lower]. intros [= Hc H].
    destruct (IH H) as [Ha Hb]. split; [|done]. cbn. by rewrite Hc, Ha.
Qed.

Lemma contains_lower_fixed n s :
  Str.contains n (Str.lower s) = true -> Str.lower n = n.
Proof.
  intros H. apply contains_spec in H as (pre & post & Heq).
  assert (Hl: Str.lower (String.append pre (String.append n post)) =
              String.append pre (String.append n post)) by (by rewrite <- Heq, lower_idem).
  apply lower_app_fixed in Hl as [_ Hl]. by apply lower_app_fixed in Hl as [Hl _].
Qed.

(** [cmd_take] compares the name as it is given with lowercased item
    names: a name that holds an uppercase letter picks up nothing. *)
Theorem cmd_take_case_sensitive name_ g :
  Str.lower name_ <> name_ ->
  Game.current_room g <> None ->
  Game.cmd_take name_ g = Ok g.
Proof.
  intros Hl Hroom. unfold Game.cmd_take.
  destruct (String.eqb name_ EmptyString); [done|].
  destruct (Game.current_room g) as [room|]; [|done].
  pose proof (take_from_spec name_ (Room.items room)) as Hs.
  destruct (Game.take_from name_ (Room.items room)) as [[it rest]|]; [|done].
  destruct Hs as (_ & _ & _ & Hc & _). by apply contains_lower_fixed in Hc.
Qed.

Lemma cmd_take_case_sensitive_witness :
  Game.cmd_take "Herb" (game_of (Player.set_pos (1, 0) starter)) =
    Ok (game_of (Player.set_pos (1, 0) starter)).
Proof.
  apply (cmd_take_case_sensitive "Herb" (game_of (Player.set_pos (1, 0) starter)));
    vm_compute; discriminate.
Defined.

(** [cmd_drop] refuses the equipped weapon and the equipped armor.  Any
    other item found goes to the end of the items of the room, and one
    item of its id leaves the inventory: with distinct ids that is the
    item itself, so that the inventory and the ground together hold the
    same items as before. *)
Theorem cmd_drop_moves name_ g it :
  name_ <> EmptyString ->
  Player.find_item name_ (Game.player g) = Some it ->
  let p := Game.player g in
  (Game.is_object (Player.equipped_weapon p) it ||
   Game.is_object (Player.equipped_armor p) it = true ->
   Game.cmd_drop name_ g = Ok g) /\
  (Game.is_object (Player.equipped_weapon p) it ||
   Game.is_object (Player.equipped_armor p) it = false ->
   forall room, Game.current_room g = Some room ->
   exists g' before x after,
     Game.cmd_drop name_ g = Ok g' /\
     Player.inventory p = before ++ x :: after /\
     Item.id x = Item.id it /\
     Player.inventory (Game.player g') = before ++ after /\
     Game.current_room g' = Some (Room.set_items (Room.items room ++ [it]) room) /\
     Player.equipped_weapon (Game.player g') = Player.equipped_weapon p /\
     Player.equipped_armor (Game.player g') = Player.equipped_armor p /\
     (distinct_ids (Player.inventory p) ->
        x = it /\
        Permutation (Player.inventory (Game.player g') ++ items_here g')
                    (Player.inventory p ++ items_here g))).
Proof.
  intros Hn Hf. cbv zeta. unfold Game.cmd_drop.
  rewrite (proj2 (String.eqb_neq name_ EmptyString) Hn), Hf. split.
  - by intros ->.
  - intros -> room Hroom. rewrite Hroom.
    destruct (remove_by_id_found it (Player.inventory (Game.player g)))
      as (before & x & after & Hinv & Hx & Hb & Hrm & Hd); [by eapply find_item_In|].
    unfold Player.remove_item_by_id. rewrite Hrm. cbn [snd].
    eexists _, before, x, after. split; [reflexivity|].
    assert (Hcur: forall p' w0,
              Game.current_room
                (Game.set_player (Player.set_inventory (before ++ after) (Game.player g))
                   (Game.set_world
                      (World.set_rooms
                         (Rooms.set (Player.pos (Game.player g)) p' (World.rooms (Game.world g)))
                         w0) g)) = Some p').
    { intros p' w0. unfold Game.current_room, World.get_room. cbn. apply rooms_get_set_eq. }
    cbn [Player.pos Player.set_inventory].
    split; [exact Hinv|]. split; [exact Hx|]. split; [reflexivity|].
    split; [apply Hcur|]. split; [reflexivity|]. split; [reflexivity|].
    intros Hdis. split; [by apply Hd|].
    unfold items_here. rewrite Hcur, Hroom. cbn [Room.items Room.set_items].
    cbn [Game.player Game.set_player Player.inventory Player.set_inventory].
    rewrite Hinv, (Hd Hdis). rewrite <- !app_assoc. apply Permutation_app_head.
    cbn [app]. rewrite app_assoc.
    apply (Permutation_app_comm (after ++ Room.items room) [it]).
Qed.

(** The bread of the starter inventory, dropped at the crossroads. *)
Lemma cmd_drop_moves_witness :
  exists g',
    Game.cmd_drop "bread" new_game = Ok g' /\
    Player.inventory (Game.player g') = [knife; vest] /\
    items_here g' = [bread].
Proof.
  destruct (cmd_drop_moves "bread" new_game bread) as [_ H];
    [discriminate|vm_compute; reflexivity|].
  destruct (Game.current_room new_game) as [room|] eqn:Hroom;
    [|vm_compute in Hroom; discriminate].
  destruct (H eq_refl room eq_refl) as (g' & before & x & after & Hdrop & _).
  exists g'. split; [exact Hdrop|].
  assert (Hv: Ok g' = Game.cmd_drop "bread" new_game) by (symmetry; exact Hdrop).
  vm_compute in Hv. injection Hv as ->. split; vm_compute; reflexivity.
Defined.

(** ** [cmd_talk]: the wanderer's quest *)

(** When [cmd_talk] talks (no merchant, no living enemy), it leaves the
    world and the position alone.  It pays 15 gold at most once: the gold
    changes only by these 15, only while the quest is not done, and the
    quest is done afterwards and one item left the inventory; once the
    quest is done, [cmd_talk] changes nothing at all. *)
Theorem cmd_talk_pays_once g g1 :
  Game.cmd_talk g = Ok (Game.Talked g1) ->
  Game.world g1 = Game.world g /\
  Player.pos (Game.player g1) = Player.pos (Game.player g) /\
  (quest_is_done (Game.player g) -> g1 = g) /\
  (Player.gold (Game.player g1) = Player.gold (Game.player g) \/
   Player.gold (Game.player g1) = Player.gold (Game.player g) + 15 /\
   ~ quest_is_done (Game.player g) /\
   quest_is_done (Game.player g1) /\
   S (length (Player.inventory (Game.player g1))) =
     length (Player.inventory (Game.player g))) /\
  (quest_is_done (Game.player g1) -> Game.cmd_talk g1 = Ok (Game.Talked g1)).
Proof.
  unfold Game.cmd_talk at 1.
  destruct (Game.current_room g) as [r|] eqn:Hroom; [|discriminate].
  destruct (Room.special_is "merchant" r) eqn:Hm; [discriminate|].
  destruct (Room.enemy_alive r) eqn:He; [discriminate|].
  assert (Hagain: forall g2,
            Game.world g2 = Game.world g ->
            Player.pos (Game.player g2) = Player.pos (Game.player g) ->
            quest_is_done (Game.player g2) -> Game.cmd_talk g2 = Ok (Game.Talked g2)).
  { intros g2 Hw Hp (q & Hq & Hdone). unfold Game.cmd_talk, Game.current_room.
    rewrite Hw, Hp. unfold Game.current_room in Hroom. rewrite Hroom, Hm, He, Hq.
    by rewrite Hdone. }
  destruct (Player.quests (Game.player g) !! "lost_herb") as [q|] eqn:Hq.
  - destruct (Game.quest_done q) as [done_|] eqn:Hdone; [|discriminate]. cbn [rbind].
    destruct done_; cbn [negb].
    + intros [= <-]. split; [done|]. split; [done|]. split; [done|].
      split; [by left|]. intros Hd. by apply Hagain.
    + assert (Hnot: ~ quest_is_done (Game.player g)).
      { intros (q' & Hq' & Hd'). congruence. }
      destruct (Player.find_item "herb" (Game.player g)) as [herb|] eqn:Hherb.
      * destruct q as [| | | | | |d]; try discriminate. intros [= <-].
        destruct (remove_by_id_found herb (Player.inventory (Game.player g)))
          as (before & x & after & Hinv & Hx & Hb & Hrm & _); [by eapply find_item_In|].
        assert (Hdone1: quest_is_done
                  (Game.player
                     (Game.set_player
                        (Player.set_quests
                           (<["lost_herb" := VDict (<["done" := VBool true]> d)]>
                              (Player.quests
                                 (snd (Player.remove_item_by_id (Item.id herb)
                                         (Player.set_gold (Player.gold (Game.player g) + 15)
                                            (Game.player g))))))
                           (snd (Player.remove_item_by_id (Item.id herb)
                                   (Player.set_gold (Player.gold (Game.player g) + 15)
                                      (Game.player g))))) g))).
        { eexists. cbn [Game.player Game.set_player Player.quests Player.set_quests].
          split; [apply lookup_insert_eq|]. cbn [Game.quest_done].
          by rewrite lookup_insert_eq. }
        split; [done|].
        split; [unfold Player.remove_item_by_id; cbn; by rewrite Hrm|].
        split; [done|]. split.
        -- right. unfold Player.remove_item_by_id. cbn. rewrite Hrm. cbn.
           split; [done|]. split; [done|]. split.
           ++ revert Hdone1. unfold Player.remove_item_by_id. cbn. by rewrite Hrm.
           ++ rewrite Hinv, !length_app. cbn. lia.
        -- intros _. apply Hagain; [done| |done].
           unfold Player.remove_item_by_id. cbn. by rewrite Hrm.
      * intros [= <-]. split; [done|]. split; [done|]. split; [done|].
        split; [by left|]. intros Hd. by apply Hagain.
  - pose (q0 := VDict (<["desc" := VStr "Find herb for wanderer"]>
                      (<["done" := VBool false]> ∅))).
    intros [= <-]. split; [done|]. split; [done|].
    split; [intros (q & Hq' & _); congruence|]. split; [by left|].
    intros Hd. by apply Hagain.
Qed.

(** At the crossroads of the new game, the player who was asked for the
    herb and carries it is paid 15 gold, once. *)
Lemma cmd_talk_pays_once_witness :
  let herb := Item.mk 2 "herb" "Healing Herb" "A medicinal plant that can heal wounds."
                "consumable" 15 5 in
  let asked := <["lost_herb" := VDict (<["desc" := VStr "Find herb for wanderer"]>
                                       (<["done" := VBool false]> ∅))]> ∅ in
  let g := game_of (Player.set_quests asked (Player.add_item herb starter)) in
  exists g1,
    Game.cmd_talk g = Ok (Game.Talked g1) /\
    Player.gold (Game.player g1) = 45 /\
    (quest_is_done (Game.player g1) -> Game.cmd_talk g1 = Ok (Game.Talked g1)).
Proof.
  cbv zeta.
  match goal with |- context [Game.cmd_talk ?g0 = _] => set (g := g0) end.
  destruct (Game.cmd_talk g) as [[| |g1]|] eqn:H1; try (vm_compute in H1; discriminate).
  exists g1. split; [reflexivity|].
  destruct (cmd_talk_pays_once g g1 H1) as (_ & _ & _ & _ & Hagain).
  split; [|exact Hagain].
  apply (f_equal (fun r => match r with
                           | Ok (Game.Talked x) => Player.gold (Game.player x)
                           | _ => 0
                           end)) in H1.
  vm_compute in H1. symmetry. exact H1.
Defined.

(** ** The prices of the shop *)

(** [int(v * 0.6)], the price paid for an item of value [v], is between 0
    and [v]. *)
Lemma int_mul_0_6_le g :
  0 <= g < 2 ^ 50 -> exists y, PyFloat.int_mul g PyFloat.f_0_6 = Ok y /\ 0 <= y <= g.
Proof.
  intros Hg. destruct (Z_le_lt_eq_dec 0 g) as [Hpos| <-]; [lia| |by exists 0].
  destruct (of_int_small g) as (mz & ez & Hf & Hez & Hmz & Hr); [simpl in *; lia|].
  unfold PyFloat.int_mul, PyFloat.int_mul_float, PyFloat.float_of_int, PyFloat.f_0_6.
  rewrite Hf. cbn [rbind].
  destruct (SFmul_normal_bounds mz 5404319552844595 ez (-53)) as (m & n & -> & Hn & Hm);
    [done|simpl; lia|lia|].
  cbn [PyFloat.int_of_float cond_Zopp]. eexists. split; [reflexivity|].
  set (k := - ez) in *.
  assert (Hk: 3 <= k <= 52).
  { split; [|lia]. destruct (Z_le_gt_dec 3 k); [done|].
    assert (2 ^ k <= 2 ^ 2) by (apply Z.pow_le_mono_r; lia).
    change (2 ^ 2) with 4 in *. change (2 ^ 52) with (4 * 2 ^ 50) in Hr. nia. }
  rewrite Z.shiftl_div_pow2 by lia.
  replace (- (ez + -53 + n)) with (53 + k - n) by lia.
  assert (HK: 8 <= 2 ^ k) by (change 8 with (2 ^ 3); apply Z.pow_le_mono_r; lia).
  assert (HN: 0 < 2 ^ n <= 2 ^ 54) by (split; [apply Z.pow_pos_nonneg|apply Z.pow_le_mono_r]; lia).
  assert (HD: 0 < 2 ^ (53 + k - n)) by (apply Z.pow_pos_nonneg; lia).
  assert (HDN: 2 ^ (53 + k - n) * 2 ^ n = 2 ^ 53 * 2 ^ k).
  { rewrite <- !Z.pow_add_r by lia. f_equal. lia. }
  rewrite Pos2Z.inj_mul, Hmz in Hm.
  set (K := 2 ^ k) in *. set (N := 2 ^ n) in *. set (D := 2 ^ (53 + k - n)) in *.
  set (M := Z.pos 5404319552844595) in *.
  assert (HM: M < 2 ^ 53) by reflexivity.
  split; [apply Z.div_pos; lia|].
  assert (Hhi: g * K * M / N + 1 < (g + 1) * D).
  { assert (g * K * M / N < (g + 1) * D - 1); [|lia].
    apply Z.div_lt_upper_bound; [lia|].
    replace (N * ((g + 1) * D - 1)) with ((g + 1) * (D * N) - N) by lia. rewrite HDN.
    clearbody K N D M. simpl in *. nia. }
  assert (Zpos m / D < g + 1); [|lia].
  apply Z.div_lt_upper_bound; lia.
Qed.

(** [int(v * 1.5)], the price asked for an item of value [v], is at least
    [v]. *)
Lemma int_mul_1_5_ge g :
  0 <= g < 2 ^ 50 -> exists y, PyFloat.int_mul g PyFloat.f_1_5 = Ok y /\ g <= y.
Proof.
  intros Hg. destruct (Z_le_lt_eq_dec 0 g) as [Hpos| <-]; [lia| |by exists 0].
  destruct (of_int_small g) as (mz & ez & Hf & Hez & Hmz & Hr); [simpl in *; lia|].
  unfold PyFloat.int_mul, PyFloat.int_mul_float, PyFloat.float_of_int, PyFloat.f_1_5.
  rewrite Hf. cbn [rbind].
  destruct (SFmul_normal_bounds mz 6755399441055744 ez (-52)) as (m & n & -> & Hn & Hm);
    [done|simpl; lia|lia|].
  cbn [PyFloat.int_of_float cond_Zopp]. eexists. split; [reflexivity|].
  set (k := - ez) in *.
  assert (Hk: 3 <= k <= 52).
  { split; [|lia]. destruct (Z_le_gt_dec 3 k); [done|].
    assert (2 ^ k <= 2 ^ 2) by (apply Z.pow_le_mono_r; lia).
    change (2 ^ 2) with 4 in *. change (2 ^ 52) with (4 * 2 ^ 50) in Hr. nia. }
  rewrite Z.shiftl_div_pow2 by lia.
  replace (- (ez + -52 + n)) with (52 + k - n) by lia.
  assert (HN: 0 < 2 ^ n) by (apply Z.pow_pos_nonneg; lia).
  assert (HD: 0 < 2 ^ (52 + k - n)) by (apply Z.pow_pos_nonneg; lia).
  assert (HDN: 2 ^ (52 + k - n) * 2 ^ n = 2 ^ 52 * 2 ^ k).
  { rewrite <- !Z.pow_add_r by lia. f_equal. lia. }
  assert (HK: 0 < 2 ^ k) by (apply Z.pow_pos_nonneg; lia).
  rewrite Pos2Z.inj_mul, Hmz in Hm.
  set (K := 2 ^ k) in *. set (N := 2 ^ n) in *. set (D := 2 ^ (52 + k - n)) in *.
  set (M := Z.pos 6755399441055744) in *.
  assert (HM: 2 ^ 52 <= M) by (apply Z.leb_le; reflexivity).
  assert (Hlo: g * D <= g * K * M / N).
  { apply Z.div_le_lower_bound; [lia|].
    replace (N * (g * D)) with (g * (D * N)) by lia. rewrite HDN.
    clearbody K N D M. simpl in *. nia. }
  apply Z.div_le_lower_bound; lia.
Qed.

Lemma sellable_In p i item :
  Game.sellable p !! i = Some item ->
  In item (Player.inventory p) /\
  Game.is_object (Player.equipped_weapon p) item = false /\
  Game.is_object (Player.equipped_armor p) item = false.
Proof.
  intros H. apply list_elem_of_lookup_2, list_elem_of_In in H.
  unfold Game.sellable in H. apply filter_In in H as [Hin Hb].
  apply andb_true_iff in Hb as [Hw Ha]. apply negb_true_iff in Hw, Ha. done.
Qed.

(** Selling: a valid choice among the items that are not equipped pays
    [int(value * 0.6)] gold, which is between 0 and the item's value, and
    removes one inventory item of the chosen item's id (the first; the
    chosen item itself when ids are distinct).  Equipment and world are as
    before. *)
Theorem shop_sell_pays c g item :
  Str.isdigit c = true ->
  1 <= Str.int c <= Z.of_nat (length (Game.sellable (Game.player g))) ->
  Game.sellable (Game.player g) !! Z.to_nat (Str.int c - 1) = Some item ->
  0 <= Item.value item < 2 ^ 50 ->
  exists g' price,
    Game.shop_sell c g = Ok g' /\
    PyFloat.int_mul (Item.value item) PyFloat.f_0_6 = Ok price /\
    0 <= price <= Item.value item /\
    Player.gold (Game.player g') = Player.gold (Game.player g) + price /\
    Game.is_object (Player.equipped_weapon (Game.player g)) item = false /\
    Game.is_object (Player.equipped_armor (Game.player g)) item = false /\
    (exists before x after,
       Player.inventory (Game.player g) = before ++ x :: after /\
       Item.id x = Item.id item /\
       Forall (fun y => Item.id y <> Item.id item) before /\
       Player.inventory (Game.player g') = before ++ after /\
       (distinct_ids (Player.inventory (Game.player g)) -> x = item)) /\
    Player.equipped_weapon (Game.player g') = Player.equipped_weapon (Game.player g) /\
    Player.equipped_armor (Game.player g') = Player.equipped_armor (Game.player g) /\
    Game.world g' = Game.world g.
Proof.
  intros Hd [H1 H2] Hsel Hv.
  destruct (int_mul_0_6_le (Item.value item) Hv) as (price & Hprice & Hp).
  destruct (sellable_In _ _ _ Hsel) as (Hin & Hw & Ha).
  destruct (remove_by_id_found item (Player.inventory (Game.player g)) Hin)
    as (before & x & after & Hinv & Hx & Hb & Hrm & Hdis).
  unfold Game.shop_sell. cbv zeta.
  rewrite Hd, (proj2 (Z.leb_le _ _) H1), (proj2 (Z.leb_le _ _) H2). cbn [andb].
  rewrite Hsel, Hprice. cbn [rbind]. unfold Player.remove_item_by_id. rewrite Hrm.
  eexists _, price. split; [reflexivity|]. split; [done|]. split; [done|].
  split; [reflexivity|]. split; [done|]. split; [done|].
  split; [by exists before, x, after|]. done.
Qed.

(** With the knife equipped, choice 2 of the starter inventory is the
    stale bread (value 2), sold for [int(2 * 0.6) = 1] gold. *)
Lemma shop_sell_pays_witness :
  exists g' price,
    Game.shop_sell "2" (Game.cmd_equip "knife" new_game) = Ok g' /\
    PyFloat.int_mul (Item.value bread) PyFloat.f_0_6 = Ok price /\
    0 <= price <= Item.value bread /\
    Player.gold (Game.player g') =
      Player.gold (Game.player (Game.cmd_equip "knife" new_game)) + price.
Proof.
  destruct (shop_sell_pays "2" (Game.cmd_equip "knife" new_game) bread)
    as (g' & price & H & Hp & Hb & Hg & _).
  - reflexivity.
  - vm_compute. split; discriminate.
  - vm_compute. reflexivity.
  - vm_compute. split; [discriminate|reflexivity].
  - exists g', price. split; [exact H|]. split; [exact Hp|]. split; [exact Hb|exact Hg].
Defined.

(** Buying an item and selling the copy back never leaves more gold than
    before: the price asked is [int(value * 1.5) >= value] and the price
    paid is [int(value * 0.6) <= value].  The copy is the last of the
    items offered for sale. *)
Theorem buy_then_sell_loses c c' g rt item :
  Str.isdigit c = true ->
  1 <= Str.int c <= Z.of_nat (length (Game.merchant_goods g)) ->
  Game.merchant_goods g !! Z.to_nat (Str.int c - 1) = Some item ->
  0 <= Item.value item < 2 ^ 50 ->
  (forall price, PyFloat.int_mul (Item.value item) PyFloat.f_1_5 = Ok price ->
     price <= Player.gold (Game.player g)) ->
  equipment_allocated rt (Game.player g) ->
  Str.isdigit c' = true ->
  Str.int c' = Z.of_nat (length (Game.sellable (Game.player g))) + 1 ->
  exists g1 rt1 g2,
    Game.shop_buy c g rt = (Ok g1, rt1) /\
    Game.shop_sell c' g1 = Ok g2 /\
    Player.gold (Game.player g2) <= Player.gold (Game.player g) /\
    length (Player.inventory (Game.player g2)) = length (Player.inventory (Game.player g)).
Proof.
  intros Hd H12 Hsel Hv Hgold Halloc Hd' Hc'.
  destruct (int_mul_1_5_ge (Item.value item) Hv) as (price & Hprice & Hge).
  specialize (Hgold price Hprice).
  rewrite (game_shop_buy_eq c g rt item price) by done.
  rewrite (proj2 (Z.leb_le _ _) Hgold).
  unfold bind. rewrite item_from_to_dict. unfold ret.
  set (new_item := Item.mk (next_oid rt) (Item.id item) (Item.name item) (Item.desc item)
                           (Item.kind item) (Item.power item) (Item.value item)).
  set (g1 := Game.set_player _ g).
  assert (Hs: Game.sellable (Game.player g1) = Game.sellable (Game.player g) ++ [new_item]).
  { unfold Game.sellable, g1. cbn. rewrite List.filter_app. f_equal. cbn.
    assert (Hno: forall o, (forall e, o = Some e -> (Item.oid e < next_oid rt)%positive) ->
                   Game.is_object o new_item = false).
    { intros [e|] He; [|done]. cbn. apply Pos.eqb_neq. specialize (He e eq_refl). lia. }
    rewrite !Hno; [done| |]; intros e He; apply Halloc; auto. }
  destruct (shop_sell_pays c' g1 new_item) as (g2 & sell & Hsell & _ & Hse & Hg2 & _ & _ & Hrem & _).
  - done.
  - rewrite Hs, length_app, Hc'. cbn. lia.
  - rewrite Hs, Hc'. replace (Z.to_nat (Z.of_nat (length (Game.sellable (Game.player g))) + 1 - 1))
      with (length (Game.sellable (Game.player g))) by lia.
    apply list_lookup_middle. reflexivity.
  - done.
  - exists g1, (Runtime (rng rt) (Pos.succ (next_oid rt))), g2.
    split; [done|]. split; [done|]. split.
    + rewrite Hg2. unfold g1. cbn in *. lia.
    + destruct Hrem as (before & x & after & Hinv & _ & _ & -> & _).
      unfold g1 in Hinv. cbn in Hinv.
      apply (f_equal (@length _)) in Hinv. rewrite !length_app in *. cbn in *. lia.
Qed.

(** With 100 gold in the new game: the iron sword is bought for 60 and
    its copy, item 4 of the sell menu, is sold for 24. *)
Lemma buy_then_sell_loses_witness :
  exists g1 rt1 g2,
    Game.shop_buy "1" (game_of (Player.set_gold 100 starter)) (rt_of []) = (Ok g1, rt1) /\
    Game.shop_sell "4" g1 = Ok g2 /\
    Player.gold (Game.player g2) <= 100 /\
    length (Player.inventory (Game.player g2)) = 3%nat.
Proof.
  apply (buy_then_sell_loses "1" "4" (game_of (Player.set_gold 100 starter)) (rt_of [])
           iron_sword).
  - reflexivity.
  - vm_compute. split; discriminate.
  - reflexivity.
  - vm_compute. split; [discriminate|reflexivity].
  - intros price H. vm_compute in H. injection H as <-. vm_compute. discriminate.
  - intros e [H|H]; vm_compute in H; discriminate.
  - reflexivity.
  - vm_compute. reflexivity.
Defined.

(** ** [ascii_minimap] *)

Lemma rmapM_Forall2 {A B} (f : A -> result B) l :
  (forall a, In a l -> exists b, f a = Ok b) ->
  exists bs, rmapM f l = Ok bs /\ Forall2 (fun a b => f a = Ok b) l bs.
Proof.
  induction l as [|a l IH]; intros H.
  - exists []. split; [done|constructor].
  - destruct (H a) as [b Hb]; [by left|].
    destruct IH as (bs & Hbs & HF); [intros a' Ha'; apply H; by right|].
    exists (b :: bs). cbn [rmapM]. rewrite Hb, Hbs. split; [done|by constructor].
Qed.

Lemma range_lookup n i :
  (i < Z.to_nat n)%nat -> World.range n !! i = Some (Z.of_nat i).
Proof.
  intros Hi. unfold World.range. rewrite list_lookup_fmap.
  rewrite lookup_seq_lt by done. done.
Qed.

Lemma In_range n z : In z (World.range n) -> 0 <= z < n.
Proof. intros H. by apply list_elem_of_In, elem_of_range in H. Qed.

Lemma length_range n : length (World.range n) = Z.to_nat n.
Proof. unfold World.range. by rewrite length_map, length_seq. Qed.

Lemma string_of_list_length l : String.length (string_of_list_ascii l) = length l.
Proof. induction l as [|c l IH]; cbn; [done|by rewrite IH]. Qed.

Lemma string_of_list_get l : forall i, String.get i (string_of_list_ascii l) = l !! i.
Proof.
  induction l as [|c l IH]; intros i; [by destruct i|].
  destruct i as [|i]; [done|]. cbn. apply IH.
Qed.

Lemma map_cell_ok w player_pos reveal_set xy :
  full_grid w -> World.in_bounds w xy = true ->
  exists c, World.map_cell w player_pos reveal_set xy = Ok c.
Proof.
  intros Hgrid Hin. destruct (Hgrid xy Hin) as (r & Hr & _).
  unfold World.map_cell. unfold World.get_room in Hr. rewrite Hr.
  destruct (Rooms.key_eqb xy player_pos); [eauto|].
  destruct (bool_decide _); [|eauto].
  destruct (Room.enemy_alive r); [eauto|]. destruct (Room.locked r); [eauto|].
  destruct (Room.items r); eauto.
Qed.

(** In a world whose grid is full, [ascii_minimap] returns.  The map has
    [height] lines of [width] characters; the character at column [x] of
    line [y] is the one of room [(x, y)]: [@] where the player stands
    and a blank where nothing was discovered. *)
Theorem ascii_minimap_layout w player_pos reveal_set :
  full_grid w ->
  exists rows,
    World.minimap_rows w player_pos reveal_set = Ok rows /\
    World.ascii_minimap w player_pos reveal_set =
      Ok (Str.join (String "010"%char EmptyString) rows) /\
    length rows = Z.to_nat (World.height w) /\
    (forall row, In row rows -> String.length row = Z.to_nat (World.width w)) /\
    (forall xy, World.in_bounds w xy = true ->
       exists c, char_at rows xy = Some c /\
                 World.map_cell w player_pos reveal_set xy = Ok c) /\
    (World.in_bounds w player_pos = true -> char_at rows player_pos = Some "@"%char) /\
    (forall xy, World.in_bounds w xy = true -> xy <> player_pos -> xy ∉ reveal_set ->
       char_at rows xy = Some " "%char).
Proof.
  intros Hgrid.
  set (line := fun y =>
         try row := rmapM (fun x => World.map_cell w player_pos reveal_set (x, y))
                          (World.range (World.width w)) in
         Ok (string_of_list_ascii row)).
  assert (Hline: forall y, 0 <= y < World.height w ->
            exists cells,
              line y = Ok (string_of_list_ascii cells) /\
              Forall2 (fun x c => World.map_cell w player_pos reveal_set (x, y) = Ok c)
                      (World.range (World.width w)) cells).
  { intros y Hy.
    destruct (rmapM_Forall2 (fun x => World.map_cell w player_pos reveal_set (x, y))
                (World.range (World.width w))) as (cells & Hc & HF).
    - intros x Hx. apply In_range in Hx. apply map_cell_ok; [done|].
      apply in_bounds_spec. cbn. lia.
    - exists cells. unfold line. by rewrite Hc. }
  destruct (rmapM_Forall2 line (World.range (World.height w))) as (rows & Hrows & HF).
  { intros y Hy. apply In_range in Hy. destruct (Hline y Hy) as (cells & Hc & _). eauto. }
  assert (Hcell: forall xy, World.in_bounds w xy = true ->
            exists c, char_at rows xy = Some c /\
                      World.map_cell w player_pos reveal_set xy = Ok c).
  { intros [x y] Hin. apply in_bounds_spec in Hin. cbn [fst snd] in Hin.
    assert (Hy: World.range (World.height w) !! Z.to_nat y = Some y).
    { rewrite range_lookup by lia. f_equal. lia. }
    destruct (Forall2_lookup_l _ _ _ _ _ HF Hy) as (row & Hrow & Hl).
    destruct (Hline y) as (cells & Hc & HFc); [lia|].
    rewrite Hc in Hl. injection Hl as <-.
    assert (Hx: World.range (World.width w) !! Z.to_nat x = Some x).
    { rewrite range_lookup by lia. f_equal. lia. }
    destruct (Forall2_lookup_l _ _ _ _ _ HFc Hx) as (c & Hcx & Hm).
    exists c. split; [|done]. unfold char_at. cbn [fst snd]. rewrite Hrow.
    by rewrite string_of_list_get. }
  exists rows. split; [exact Hrows|]. split.
  { unfold World.ascii_minimap. unfold World.minimap_rows. fold line. by rewrite Hrows. }
  split.
  { apply Forall2_length in HF. by rewrite <- HF, length_range. }
  split.
  { intros row Hin. apply list_elem_of_In, list_elem_of_lookup in Hin as [i Hi].
    destruct (Forall2_lookup_r _ _ _ _ _ HF Hi) as (y & Hy & Hl).
    apply list_elem_of_lookup_2, list_elem_of_In, In_range in Hy.
    destruct (Hline y Hy) as (cells & Hc & HFc). rewrite Hc in Hl. injection Hl as <-.
    apply Forall2_length in HFc. by rewrite string_of_list_length, <- HFc, length_range. }
  split; [exact Hcell|]. split.
  - intros Hin. destruct (Hcell player_pos Hin) as (c & Hc & Hm).
    unfold World.map_cell in Hm. rewrite key_eqb_refl in Hm. by injection Hm as <-.
  - intros xy Hin Hne Hnot. destruct (Hcell xy Hin) as (c & Hc & Hm).
    unfold World.map_cell in Hm. rewrite key_eqb_neq in Hm by done.
    rewrite bool_decide_eq_false_2 in Hm by done. by injection Hm as <-.
Qed.

(** The map of the new game: five lines, the player on the second. *)
Lemma ascii_minimap_layout_witness :
  exists rows,
    World.minimap_rows (Game.world new_game) (1, 1) {[(1, 1)]} = Ok rows /\
    length rows = 5%nat /\
    char_at rows (1, 1) = Some "@"%char /\
    char_at rows (4, 4) = Some " "%char.
Proof.
  destruct (ascii_minimap_layout (Game.world new_game) (1, 1) {[(1, 1)]} new_game_full_grid)
    as (rows & Hrows & _ & Hlen & _ & _ & Hat & Hblank).
  exists rows. split; [exact Hrows|]. split; [exact Hlen|].
  split; [apply Hat; reflexivity|].
  apply Hblank; [reflexivity|discriminate|].
  intros Hin. apply elem_of_singleton in Hin. discriminate.
Defined.

(** What [cmd_map] prints at the start of the game. *)
Example cmd_map_new_game :
  Game.cmd_map new_game =
    Ok (Str.join (String "010"%char EmptyString) ["     "; " @   "; "     "; "     "; "     "]).
Proof. vm_compute. reflexivity. Qed.

(** ** [save] and [load] *)

Lemma reload_item_dict it : Json.reload (VDict (Item.to_dict it)) = VDict (Item.to_dict it).
Proof. reflexivity. Qed.

Lemma reload_items l :
  map Json.reload (map (fun it => VDict (Item.to_dict it)) l) =
    map (fun it => VDict (Item.to_dict it)) l.
Proof. induction l as [|it l IH]; cbn [map]; [done|]. by rewrite IH, reload_item_dict. Qed.

Lemma reload_item_or_none o :
  Json.reload (Player.item_or_none o) = Player.item_or_none o.
Proof. by destruct o. Qed.

Lemma positions_from_lists l :
  Player.positions_of (map Json.reload (map Player.tuple_of_pos l)) = Ok l.
Proof.
  induction l as [|[x y] l IH]; [done|].
  cbn [map Player.positions_of Player.tuple_of_pos Json.reload Player.pos_of_val fst snd rbind].
  by rewrite IH.
Qed.

(** What [from_dict] reads in the player dict of a save file. *)
Lemma saved_entries p :
  let d := Json.reload <$> Player.to_dict p in
  (forall x, get_str d "name" x = Ok (Player.name p)) /\
  (forall x, get_int d "hp" x = Ok (Player.hp p)) /\
  (forall x, get_int d "max_hp" x = Ok (Player.max_hp p)) /\
  (forall x, get_int d "atk" x = Ok (Player.atk p)) /\
  (forall x, get_int d "defense" x = Ok (Player.defense p)) /\
  (forall x, get_int d "dodge" x = Ok (Player.dodge p)) /\
  (forall x, get_int d "level" x = Ok (Player.level p)) /\
  (forall x, get_int d "xp" x = Ok (Player.xp p)) /\
  (forall x, get_int d "xp_to_next" x = Ok (Player.xp_to_next p)) /\
  (forall x, get_int d "gold" x = Ok (Player.gold p)) /\
  d !! "pos" = Some (Json.reload (Player.tuple_of_pos (Player.pos p))) /\
  d !! "inventory" =
    Some (VList (map Json.reload
                   (map (fun it => VDict (Item.to_dict it)) (Player.inventory p)))) /\
  d !! "equipped_weapon" =
    Some (Json.reload (Player.item_or_none (Player.equipped_weapon p))) /\
  d !! "equipped_armor" =
    Some (Json.reload (Player.item_or_none (Player.equipped_armor p))) /\
  d !! "quests" = Some (VDict (Json.reload <$> Player.quests p)) /\
  d !! "discovered" =
    Some (VList (map Json.reload
                   (map Player.tuple_of_pos (elements (Player.discovered p))))).
Proof. cbv zeta. repeat apply conj; intros; reflexivity. Qed.

(** [load] after [save], in a game with the same save slot: the player of
    the saved game comes back with the same stats, level, experience,
    gold, position and discovered rooms, items with the same attributes
    (they are new objects) and the quests as JSON returns them; the turn
    counter comes back too.  The world and the merchant's goods are not
    part of the file: they stay as they are in the game that loads. *)
Theorem save_then_load g g2 fs rt :
  Player.save_slot (Game.player g2) = Player.save_slot (Game.player g) ->
  exists g' rt',
    Game.load (Game.save g fs) g2 rt = (Ok g', rt') /\
    Player.base (Game.player g') = Player.base (Game.player g) /\
    Player.level (Game.player g') = Player.level (Game.player g) /\
    Player.xp (Game.player g') = Player.xp (Game.player g) /\
    Player.xp_to_next (Game.player g') = Player.xp_to_next (Game.player g) /\
    Player.gold (Game.player g') = Player.gold (Game.player g) /\
    Player.pos (Game.player g') = Player.pos (Game.player g) /\
    Player.discovered (Game.player g') = Player.discovered (Game.player g) /\
    Player.quests (Game.player g') = Json.reload <$> Player.quests (Game.player g) /\
    same_items (Player.inventory (Game.player g')) (Player.inventory (Game.player g)) /\
    same_equipped (Player.equipped_weapon (Game.player g'))
                  (Player.equipped_weapon (Game.player g)) /\
    same_equipped (Player.equipped_armor (Game.player g'))
                  (Player.equipped_armor (Game.player g)) /\
    Game.turn_count g' = Game.turn_count g /\
    Game.world g' = Game.world g2 /\
    Game.merchant_goods g' = Game.merchant_goods g2.
Proof.
  intros Hslot. set (p := Game.player g).
  destruct (items_from_to_dict (Player.inventory p) rt) as (inv & rt1 & Hinv & Hsi & _).
  destruct (equipped_from_to_dict (Player.equipped_weapon p) rt1) as (ew & rt2 & Hew & Hsw & _).
  destruct (equipped_from_to_dict (Player.equipped_armor p) rt2) as (ea & rt3 & Hea & Hsa & _).
  destruct (saved_entries p)
    as (E1 & E2 & E3 & E4 & E5 & E6 & E7 & E8 & E9 & E10 & E11 & E12 & E13 & E14 & E15 & E16).
  cbv zeta in E1, E2, E3, E4, E5, E6, E7, E8, E9, E10, E11, E12, E13, E14, E15, E16.
  assert (Hfrom: exists p',
            Player.from_dict (Json.reload <$> Player.to_dict p) rt = (Ok p', rt3) /\
            Player.base p' = Player.base p /\
            Player.level p' = Player.level p /\
            Player.xp p' = Player.xp p /\
            Player.xp_to_next p' = Player.xp_to_next p /\
            Player.gold p' = Player.gold p /\
            Player.pos p' = Player.pos p /\
            Player.discovered p' = Player.discovered p /\
            Player.quests p' = Json.reload <$> Player.quests p /\
            Player.inventory p' = inv /\
            Player.equipped_weapon p' = ew /\
            Player.equipped_armor p' = ea).
  { unfold Player.from_dict, bind, lift, ret.
    rewrite E1, E2, E3, E4, E5, E6, E7, E8, E9, E10, E11, E12, E13, E14, E15, E16.
    rewrite reload_items, !reload_item_or_none.
    cbv beta iota delta [default from_option id].
    cbn [Json.reload Player.tuple_of_pos Player.pos_of_val map].
    rewrite Hinv, Hew, Hea, positions_from_lists.
    eexists. split; [reflexivity|]. cbn.
    destruct p as [[] ? ? ? [] ? ? ? ? ? ? ?]. cbn in *.
    rewrite list_to_set_elements_L. done. }
  destruct Hfrom as (p' & Hp' & B & L & X & XN & G & PO & D & Q & I & W & A).
  exists (Game.set_turn_count (Game.turn_count g) (Game.set_player p' g2)), rt3.
  split.
  - unfold Game.load, Game.save. rewrite Hslot. fold p. rewrite lookup_insert_eq.
    cbn [Json.reload]. unfold Game.load_document.
    rewrite !fmap_insert, fmap_empty.
    rewrite lookup_insert_ne by done. rewrite lookup_insert_eq.
    cbn [Json.reload]. unfold bind. rewrite Hp'. unfold lift, get_int.
    rewrite lookup_insert_ne by done. rewrite lookup_insert_ne by done.
    rewrite lookup_insert_eq. cbn [Json.reload]. reflexivity.
  - cbn. subst inv ew ea. done.
Qed.

(** A game saved with 77 gold and loaded into a new game. *)
Lemma save_then_load_witness :
  exists g' rt',
    Game.load (Game.save (game_of (Player.set_gold 77 starter)) ∅) new_game (rt_of []) =
      (Ok g', rt') /\
    Player.gold (Game.player g') = 77 /\
    Game.world g' = Game.world new_game.
Proof.
  destruct (save_then_load (game_of (Player.set_gold 77 starter)) new_game ∅ (rt_of []))
    as (g' & rt' & H & _ & _ & _ & _ & Hg & _ & _ & _ & _ & _ & _ & _ & Hw & _);
    [vm_compute; reflexivity|].
  exists g', rt'. split; [exact H|]. split; [exact Hg|exact Hw].
Defined.

(** ** [_create_enemy] *)

(** [_create_enemy] names the enemy after its kind and gives it full hit
    points; the rewards always come from the template.  An override that
    is [None] or 0 is replaced by the template's value ([hp or
    template["hp"]]), any other override is taken.  Without overrides the
    enemy is alive and rewards at least 5 XP and 2 gold, whatever the
    kind. *)
Theorem create_enemy_overrides kind hp atk defense dodge :
  let e := World._create_enemy kind hp atk defense dodge in
  let plain := World._create_enemy kind None None None None in
  Entity.name (Enemy.base e) = kind /\
  Entity.hp (Enemy.base e) = Entity.max_hp (Enemy.base e) /\
  Enemy.xp_reward e = Enemy.xp_reward plain /\
  Enemy.gold_reward e = Enemy.gold_reward plain /\
  Entity.max_hp (Enemy.base e) =
    World.or_else hp (Entity.max_hp (Enemy.base plain)) /\
  Entity.atk (Enemy.base e) = World.or_else atk (Entity.atk (Enemy.base plain)) /\
  Entity.defense (Enemy.base e) =
    World.or_else defense (Entity.defense (Enemy.base plain)) /\
  Entity.dodge (Enemy.base e) = World.or_else dodge (Entity.dodge (Enemy.base plain)) /\
  World._create_enemy kind (Some 0) (Some 0) (Some 0) (Some 0) = plain /\
  Entity.alive (Enemy.base plain) = true /\
  5 <= Enemy.xp_reward plain /\
  2 <= Enemy.gold_reward plain.
Proof.
  cbv zeta. unfold World._create_enemy, World.template.
  destruct (String.eqb kind "Wolf"); [by repeat split|].
  destruct (String.eqb kind "Marsh Slime"); [by repeat split|].
  destruct (String.eqb kind "Bandit"); [by repeat split|].
  destruct (String.eqb kind "Obsidian Warden"); by repeat split.
Qed.

(** ** mystic_dungeon.py: the shop, the key, [choose] and [cmd_drop] *)

(** In mystic_dungeon.py an item is sold for what it was bought for:
    buying a catalog item and selling the last item of the inventory
    gives back the game as it was. *)
Theorem mystic_buy_then_sell_restores choice line g sel :
  Str.isdigit choice = true ->
  1 <= Str.int choice <= Z.of_nat (length (Game.merchant_goods g)) ->
  Game.merchant_goods g !! Z.to_nat (Str.int choice - 1) = Some sel ->
  Item.value sel <= Player.gold (Game.player g) ->
  Str.isdigit (Str.lower (Str.strip (Str.strip line))) = true ->
  Str.int (Str.lower (Str.strip (Str.strip line))) =
    Z.of_nat (length (Player.inventory (Game.player g))) + 1 ->
  exists g1,
    Mystic.shop_buy choice g = Ok g1 /\
    Player.gold (Game.player g1) = Player.gold (Game.player g) - Item.value sel /\
    Mystic.shop_sell_menu line g1 = Ok g.
Proof.
  intros Hd [H1 H2] Hsel Hge Hd' Hc'. unfold Mystic.shop_buy.
  rewrite Hd, (proj2 (Z.leb_le _ _) H1), (proj2 (Z.leb_le _ _) H2).
  cbn [andb]. rewrite Hsel, (proj2 (Z.leb_le _ _) Hge).
  eexists. split; [reflexivity|]. split; [reflexivity|].
  unfold Mystic.shop_sell_menu. cbv zeta.
  cbn [Game.player Game.set_player Player.inventory Player.add_item Player.set_inventory
       Player.set_gold].
  destruct (Player.inventory (Game.player g) ++ [sel]) as [|i0 l0] eqn:Hinv;
    [by destruct (Player.inventory (Game.player g))|].
  rewrite <- Hinv. clear i0 l0 Hinv.
  set (c := Str.lower (Str.strip (Str.strip line))) in *.
  assert (Hx: String.eqb c "x" = false).
  { destruct (String.eqb_spec c "x") as [E|]; [|done]. rewrite E in Hd'. discriminate. }
  rewrite Hx, Hd', Hc', length_app. cbn [length].
  replace (1 <=? Z.of_nat (length (Player.inventory (Game.player g))) + 1) with true
    by (symmetry; apply Z.leb_le; lia).
  replace (Z.of_nat (length (Player.inventory (Game.player g))) + 1 <=?
           Z.of_nat (length (Player.inventory (Game.player g)) + 1)) with true
    by (symmetry; apply Z.leb_le; lia).
  cbn [andb].
  replace (Z.to_nat (Z.of_nat (length (Player.inventory (Game.player g))) + 1 - 1))
    with (length (Player.inventory (Game.player g))) by lia.
  rewrite list_lookup_middle by done.
  f_equal. destruct g as [w p m r i t].
  destruct p as [b lv x xn ps gd inv ew ea dc qs sl].
  unfold Game.set_player, Player.set_gold, Player.add_item, Player.set_inventory. cbn.
  replace (gd - Item.value sel + Item.value sel) with gd by lia.
  replace (delete (length inv) (inv ++ [sel])) with inv; [done|].
  by rewrite delete_middle, app_nil_r.
Qed.

(** With 100 gold: the iron sword bought at choice 1 and sold again as
    item 4. *)
Lemma mystic_buy_then_sell_restores_witness :
  exists g1,
    Mystic.shop_buy "1" (game_of (Player.set_gold 100 starter)) = Ok g1 /\
    Player.gold (Game.player g1) = 100 - 40 /\
    Mystic.shop_sell_menu " 4 " g1 = Ok (game_of (Player.set_gold 100 starter)).
Proof.
  apply (mystic_buy_then_sell_restores "1" " 4 " (game_of (Player.set_gold 100 starter))
           iron_sword).
  - reflexivity.
  - vm_compute. split; discriminate.
  - reflexivity.
  - vm_compute. discriminate.
  - reflexivity.
  - vm_compute. reflexivity.
Defined.

Lemma first_locked_within_2_spec xy d :
  match Mystic.first_locked_within_2 xy d with
  | Some (k, room) =>
      In (k, room) d /\ Room.locked room = true /\ manhattan k xy <= 2
  | None =>
      forall k room, In (k, room) d -> Room.locked room = true -> 2 < manhattan k xy
  end.
Proof.
  unfold manhattan. induction d as [|[k room] d IH]; cbn [Mystic.first_locked_within_2]; [done|].
  destruct (Room.locked room) eqn:Hl; cbn [andb].
  - destruct (Z.leb_spec (Z.abs (fst k - fst xy) + Z.abs (snd k - snd xy)) 2).
    + split; [by left|done].
    + destruct (Mystic.first_locked_within_2 xy d) as [[k' room']|].
      * destruct IH as (Hin & Hl' & Hd). split; [by right|done].
      * intros k' room' [[= <- <-]|Hin] Hl'; [done|by eapply IH].
  - destruct (Mystic.first_locked_within_2 xy d) as [[k' room']|].
    + destruct IH as (Hin & Hl' & Hd). split; [by right|done].
    + intros k' room' [[= <- <-]|Hin] Hl'; [congruence|by eapply IH].
Qed.

(** In mystic_dungeon.py a key reaches further: it opens one locked room
    at Manhattan distance at most 2 and is used up; with no locked room
    that near, the game is unchanged and the key is kept. *)
Theorem mystic_cmd_use_key name_ g it :
  name_ <> EmptyString ->
  Player.find_item name_ (Game.player g) = Some it ->
  Item.kind it = "key" ->
  let g' := Mystic.cmd_use name_ g in
  ((forall k room, In (k, room) (World.rooms (Game.world g)) -> Room.locked room = true ->
      2 < manhattan k (Player.pos (Game.player g))) /\
   g' = g) \/
  (exists k room,
     In (k, room) (World.rooms (Game.world g)) /\
     Room.locked room = true /\
     manhattan k (Player.pos (Game.player g)) <= 2 /\
     World.get_room (Game.world g') k = Some (Room.set_locked false room) /\
     (forall k', k' <> k ->
        World.get_room (Game.world g') k' = World.get_room (Game.world g) k') /\
     S (length (Player.inventory (Game.player g'))) =
       length (Player.inventory (Game.player g)) /\
     Player.pos (Game.player g') = Player.pos (Game.player g)).
Proof.
  intros Hn Hf Hk. unfold Mystic.cmd_use.
  rewrite (proj2 (String.eqb_neq name_ EmptyString) Hn), Hf, Hk.
  cbn [String.eqb Ascii.eqb Bool.eqb andb]. cbv zeta.
  pose proof (first_locked_within_2_spec (Player.pos (Game.player g))
                (World.rooms (Game.world g))) as Hs.
  destruct (Mystic.first_locked_within_2 _ _) as [[k room]|].
  - right. destruct Hs as (Hin & Hl & Hd). exists k, room.
    split; [done|]. split; [done|]. split; [done|].
    destruct (remove_by_id_found it (Player.inventory (Game.player g)))
      as (before & x & after & Hinv & Hx & Hb & Hrm & _); [by eapply find_item_In|].
    unfold Player.remove_item_by_id. rewrite Hrm.
    unfold World.get_room. cbn. split; [apply rooms_get_set_eq|].
    split; [intros k' Hk'; apply rooms_get_set_ne; congruence|].
    split; [|done]. rewrite Hinv, !length_app. cbn. lia.
  - left. done.
Qed.

(** From the whispering trees at (2, 1) the cave at (3, 2) is two steps
    away: the key of mystic_dungeon.py opens it, the key of game.py does
    not. *)
Lemma mystic_cmd_use_key_witness :
  let rusty_key := Item.mk 5 "rusty_key" "Rusty Key"
                     "An old iron key. Might fit an ancient lock." "key" 0 0 in
  let g := game_of (Player.set_pos (2, 1) (Player.add_item rusty_key starter)) in
  exists room,
    World.get_room (Game.world g) (3, 2) = Some room /\
    Room.locked room = true /\
    World.get_room (Game.world (Mystic.cmd_use "key" g)) (3, 2) =
      Some (Room.set_locked false room) /\
    Game.cmd_use "key" g = g.
Proof.
  cbv zeta.
  set (rusty_key := Item.mk 5 "rusty_key" "Rusty Key"
                      "An old iron key. Might fit an ancient lock." "key" 0 0).
  set (g := game_of (Player.set_pos (2, 1) (Player.add_item rusty_key starter))).
  destruct (mystic_cmd_use_key "key" g rusty_key)
    as [[Hnone _]|(k & room & Hin & Hl & Hd & Hget & _)];
    [discriminate|vm_compute; reflexivity|reflexivity| |].
  - exfalso.
    specialize (Hnone (3, 2)
      (Room.mk "Mysterious Cave"
         "A dark cave entrance. Strange symbols are carved around the doorway."
         (3, 2) [] None true (Some "riddle"))).
    vm_compute in Hnone. specialize (Hnone ltac:(tauto) eq_refl). discriminate.
  - eexists. split; [vm_compute; reflexivity|]. split; [vm_compute; reflexivity|].
    split; [vm_compute; reflexivity|]. vm_compute. reflexivity.
Defined.

(** [choose] on ASCII text: the lines ["0"], ["x"] and ["9"] are passed over,
    [" 2 "] is the second of three options, and ["3"] is left unread. *)
Example choose_ascii :
  Mystic.choose Str.strip Str.isdigit (fun c => Ok (Str.int c))
    ["a"; "b"; "c"] ["0"; "x"; "9"; " 2 "; "3"] = Ok (1, ["3"]).
Proof. reflexivity. Qed.

(** [choose] reads on past the lines that fail [isdigit] or whose number is
    not one of the options, and ends at the first other line: with that
    line's number minus one, an index of the options, the later lines left
    unread; or with the exception of [int] when [int] refuses a line that
    passed [isdigit].  When the input ends before such a line it raises
    [EOFError]. *)
Theorem choose_first_valid {A} strip isdigit int (options : list A) lines :
  let passed_over line :=
    isdigit (strip line) = false \/
    exists n,
      isdigit (strip line) = true /\ int (strip line) = Ok n /\
      ~ 1 <= n <= Z.of_nat (length options) in
  match Mystic.choose strip isdigit int options lines with
  | Ok (i, rest) =>
      0 <= i < Z.of_nat (length options) /\
      exists skipped line,
        lines = skipped ++ line :: rest /\
        Forall passed_over skipped /\
        isdigit (strip line) = true /\
        int (strip line) = Ok (i + 1)
  | Raise e =>
      (e = EOFError /\ Forall passed_over lines) \/
      exists skipped line rest,
        lines = skipped ++ line :: rest /\
        Forall passed_over skipped /\
        isdigit (strip line) = true /\
        int (strip line) = Raise e
  end.
Proof.
  cbv zeta. induction lines as [|line lines IH]; cbn [Mystic.choose].
  { left. by split. }
  destruct (isdigit (strip line)) eqn:Hd.
  - destruct (int (strip line)) as [n|e] eqn:Hn; cbn [rbind].
    + destruct ((1 <=? n) && (n <=? Z.of_nat (length options))) eqn:Hv.
      * apply andb_true_iff in Hv as [H1 H2]. apply Z.leb_le in H1, H2.
        split; [lia|]. exists [], line. repeat split; try done.
        rewrite Hn. f_equal. lia.
      * assert (Hout : ~ 1 <= n <= Z.of_nat (length options)).
        { intros [H1 H2]. apply Z.leb_le in H1, H2. rewrite H1, H2 in Hv. discriminate. }
        destruct (Mystic.choose strip isdigit int options lines) as [[i rest]|e].
        -- destruct IH as (Hi & skipped & l & -> & Hs & Hl & Hi'). split; [done|].
           exists (line :: skipped), l. repeat split; try done.
           constructor; [|done]. right. by exists n.
        -- destruct IH as [[-> Hs]|(skipped & l & rest & -> & Hs & Hl & Hr)].
           ++ left. split; [done|]. constructor; [|done]. right. by exists n.
           ++ right. exists (line :: skipped), l, rest. repeat split; try done.
              constructor; [|done]. right. by exists n.
    + right. exists [], line, lines. by repeat split.
  - destruct (Mystic.choose strip isdigit int options lines) as [[i rest]|e].
    + destruct IH as (Hi & skipped & l & -> & Hs & Hl & Hi'). split; [done|].
      exists (line :: skipped), l. repeat split; try done.
      constructor; [|done]. by left.
    + destruct IH as [[-> Hs]|(skipped & l & rest & -> & Hs & Hl & Hr)].
      * left. split; [done|]. constructor; [|done]. by left.
      * right. exists (line :: skipped), l, rest. repeat split; try done.
        constructor; [|done]. by left.
Qed.
